(** * efl.framework.model: the model compiler and the federated
      gradient-exchange engine

    A shallow embedding of [efls-train/python/efl/framework/model.py].

    The TensorFlow graph is represented symbolically: a tensor or an
    operation is the expression that built it.  The Python object
    [self] together with the process-wide state the module touches (the
    module-level default optimizer configuration, the ambient task
    scope, the TensorFlow log, the communicator) is one explicit state
    record, threaded through a state-and-exception monad in which a
    raised exception keeps the mutations made before it, as in Python. *)

From stdpp Require Import base gmap strings list option.

Set Warnings "-register-all".


(** ** Python values *)

(** The exception classes the module raises or meets. *)
Inductive exn :=
| ValueError (msg : string)
| TypeError (msg : string)
| RuntimeError (msg : string)
| AttributeError (msg : string).

Inductive result (A : Type) :=
| Ok (a : A)
| Raise (e : exn).
Arguments Ok {A} a.
Arguments Raise {A} e.

Definition is_ValueError (e : exn) : bool :=
  match e with ValueError _ => true | _ => false end.

Inductive MODE := TRAIN | EVAL.

#[global] Instance MODE_eq_dec : EqDecision MODE.
Proof. solve_decision. Defined.

#[global] Instance MODE_countable : Countable MODE.
Proof.
  refine (inj_countable' (λ m, match m with TRAIN => true | EVAL => false end)
                         (λ b : bool, if b then TRAIN else EVAL) _).
  by intros [].
Defined.

(** A task name is a string or [None]. *)
Abbreviation task := (option string) (only parsing).

(** Python truth value of a task name: [None] and the empty string are
    false. *)
Definition truthy (t : task) : bool :=
  match t with
  | Some s => negb (bool_decide (s = ""))
  | None => false
  end.

Inductive dtype := float32 | float64 | int32 | int64.

(** Symbolic tensors.  [TNode] is a tensor built by user code or by the
    differentiation engine, identified by its graph name. *)
Inductive tensor :=
| TNode (name : string) (dt : dtype)
| TRecv (name : string) (dt : dtype)      (* communicator.recv(name, dtype) *)
| TReduceMean (t : tensor)                (* tf.reduce_mean *)
| TReduceSum (t : tensor)                 (* tf.reduce_sum *)
| TAdd (a b : tensor)                     (* tf.add *)
| TSliceAdd (a b : tensor)                (* slice_op.slice_add *)
| TZerosLike (t : tensor).                (* tf.zeros_like *)

#[global] Instance dtype_eq_dec : EqDecision dtype.
Proof. solve_decision. Defined.

#[global] Instance tensor_eq_dec : EqDecision tensor.
Proof. solve_decision. Defined.

Fixpoint tensor_dtype (t : tensor) : dtype :=
  match t with
  | TNode _ dt | TRecv _ dt => dt
  | TReduceMean a | TReduceSum a | TZerosLike a => tensor_dtype a
  | TAdd a _ | TSliceAdd a _ => tensor_dtype a
  end.

(** A gradient paired with the variable it belongs to; the gradient is
    [None] when the variable does not influence the loss. *)
Abbreviation grad_and_var := (option tensor * tensor)%type (only parsing).

(** Symbolic operations. *)
Inductive op :=
| OpNamed (name : string)
| OpSend (name : string) (t : tensor)     (* communicator.send(name, t) *)
| OpApplyGradients (opt : string) (gv : list grad_and_var)
| OpAssignAdd (delta : Z) (control_inputs : list op).
                                          (* global_step.assign_add(delta) *)

Record Sample := {
  sample_name : string;
  before_step_ops : list op
}.

(** What a user callback may hand back where a sample is expected. *)
Inductive pyobj :=
| PySample (s : Sample)             (* efl.Sample *)
| PyFederalSample (s : Sample)      (* efl.FederalSample *)
| PyNone
| PyOther (repr : string) (truth : bool).

(** [isinstance(o, (Sample, FederalSample))] *)
Definition is_sample (o : pyobj) : option Sample :=
  match o with
  | PySample s | PyFederalSample s => Some s
  | _ => None
  end.

(** Truth value of an object in [if eval_sample:]. *)
Definition py_bool (o : pyobj) : bool :=
  match o with
  | PySample _ | PyFederalSample _ => true
  | PyNone => false
  | PyOther _ b => b
  end.

(** Values of the optimizer configuration dict. *)
Inductive cfg_value :=
| CfgStr (s : string)
| CfgCallable (f : tensor → tensor)
| CfgOther (repr : string).

Definition cfg_is (v : cfg_value) (s : string) : bool :=
  match v with
  | CfgStr s' => bool_decide (s' = s)
  | _ => false
  end.

Definition cfg_repr (v : cfg_value) : string :=
  match v with
  | CfgStr s => s
  | CfgCallable _ => "<function>"
  | CfgOther r => r
  end.

Abbreviation opt_config := (gmap string cfg_value) (only parsing).

(** The module-level [_DEFAULT_OPT_CONFIG]. *)
Definition _DEFAULT_OPT_CONFIG : opt_config :=
  <["BACKEND_MODE" := CfgStr "noise"]> (<["REDUCE" := CfgStr "mean"]> ∅).

(** An optimizer, as far as the module uses one.  [takes_opt_config] is
    the test ['opt_config' in opt.compute_gradients.__code__.co_varnames];
    [compute_gradients loss var_list grad_loss opt_config] has [None]
    for a keyword argument that is left out. *)
Record optimizer := {
  opt_name : string;
  takes_opt_config : bool;
  compute_gradients :
    option tensor → list tensor → option tensor → option opt_config →
    result (list grad_and_var);
  apply_gradients : list grad_and_var → result op
}.

Abbreviation var_scope := (option string) (only parsing).

(** One entry of the dict an optimizer function returns:
    [opt -> (var_list, var_scope)]. *)
Abbreviation binding := (optimizer * (list tensor * option string))%type
  (only parsing).

Inductive comm_event :=
| CommSend (name : string) (t : tensor)
| CommRecv (name : string) (dt : dtype).

(** Which dict object [kwargs.pop('opt_config', _DEFAULT_OPT_CONFIG)]
    yields: the one the caller of [compile] passed, or the module-level
    default. *)
Inductive cfg_ref := UserOptConfig | DefaultOptConfig.

(** A call of a user callback: the registered function, the mode argument
    it is given (input functions only) and the ambient task scope it runs
    under. *)
Inductive call_event :=
| CallInputFn (fn : string) (arg : MODE) (mode : option MODE) (t : option string)
| CallLossFn (fn : string) (mode : option MODE) (t : option string)
| CallOptFn (fn : string) (t : option string)
| CallEvalFn (fn : string) (mode : option MODE) (t : option string).

(** ** The state *)

Record state := {
  (* attributes of the model object *)
  _inputs : gmap (MODE * option string) pyobj;
  _input_fns : list (option string * string);
  _losses : gmap (option string) (option tensor);
  _loss_fns : list (option string * string);
  _train_ops : gmap (option string) (list op);
  _opt_fns : gmap (option string) string;
  _eval_ops : gmap (option string) (list op);
  _eval_fns : gmap (option string) string;
  _opt_to_vars : gmap (option string) (list binding);
  _recv_grad_ops : gmap (option string) (list (string * tensor));
  _require_grad_ops : gmap (option string) (list (tensor * tensor));
  (* the hook manager *)
  hooks : list (MODE * option string * string);
  (* task_scope.current_task_scope() *)
  scope_mode : option MODE;
  scope_task : option string;
  (* the two optimizer configuration dicts *)
  user_opt_config : opt_config;
  default_opt_config : opt_config;
  (* tf.logging.warn *)
  warnings : list string;
  (* calls made on the communicator, oldest first *)
  comm_log : list comm_event;
  (* calls of user callbacks, oldest first *)
  calls : list call_event
}.

(** ** The state-and-exception monad *)

Definition M (A : Type) : Type := state → result A * state.

#[global] Instance M_ret : MRet M := λ A a st, (Ok a, st).

#[global] Instance M_bind : MBind M := λ A B f c st,
  match c st with
  | (Ok a, st') => f a st'
  | (Raise e, st') => (Raise e, st')
  end.

Definition raise {A} (e : exn) : M A := λ st, (Raise e, st).

(** A pure call that may raise. *)
Definition lift {A} (r : result A) : M A := λ st, (r, st).

Definition gets {A} (f : state → A) : M A := λ st, (Ok (f st), st).

Definition modify (f : state → state) : M unit := λ st, (Ok tt, f st).

(** [try: body except ValueError as e: handler e] *)
Definition try_except_ValueError {A} (body : M A) (handler : exn → M A) : M A :=
  λ st,
    match body st with
    | (Raise e, st') => if is_ValueError e then handler e st' else (Raise e, st')
    | r => r
    end.

(** [for x in l: body x], collecting what the bodies return. *)
Fixpoint for_each {A B} (body : A → M B) (l : list A) : M (list B) :=
  match l with
  | [] => mret []
  | x :: l' => b ← body x; bs ← for_each body l'; mret (b :: bs)
  end.

(** *** Field updates *)

Definition set_inputs (v : gmap (MODE * option string) pyobj) (s : state) : state :=
  {| _inputs := v; _input_fns := _input_fns s; _losses := _losses s;
     _loss_fns := _loss_fns s; _train_ops := _train_ops s;
     _opt_fns := _opt_fns s; _eval_ops := _eval_ops s;
     _eval_fns := _eval_fns s; _opt_to_vars := _opt_to_vars s;
     _recv_grad_ops := _recv_grad_ops s;
     _require_grad_ops := _require_grad_ops s; hooks := hooks s;
     scope_mode := scope_mode s; scope_task := scope_task s;
     user_opt_config := user_opt_config s;
     default_opt_config := default_opt_config s; warnings := warnings s;
     comm_log := comm_log s; calls := calls s |}.

Definition set_input_fns (v : list (option string * string)) (s : state) : state :=
  {| _inputs := _inputs s; _input_fns := v; _losses := _losses s;
     _loss_fns := _loss_fns s; _train_ops := _train_ops s;
     _opt_fns := _opt_fns s; _eval_ops := _eval_ops s;
     _eval_fns := _eval_fns s; _opt_to_vars := _opt_to_vars s;
     _recv_grad_ops := _recv_grad_ops s;
     _require_grad_ops := _require_grad_ops s; hooks := hooks s;
     scope_mode := scope_mode s; scope_task := scope_task s;
     user_opt_config := user_opt_config s;
     default_opt_config := default_opt_config s; warnings := warnings s;
     comm_log := comm_log s; calls := calls s |}.

Definition set_losses (v : gmap (option string) (option tensor)) (s : state) : state :=
  {| _inputs := _inputs s; _input_fns := _input_fns s; _losses := v;
     _loss_fns := _loss_fns s; _train_ops := _train_ops s;
     _opt_fns := _opt_fns s; _eval_ops := _eval_ops s;
     _eval_fns := _eval_fns s; _opt_to_vars := _opt_to_vars s;
     _recv_grad_ops := _recv_grad_ops s;
     _require_grad_ops := _require_grad_ops s; hooks := hooks s;
     scope_mode := scope_mode s; scope_task := scope_task s;
     user_opt_config := user_opt_config s;
     default_opt_config := default_opt_config s; warnings := warnings s;
     comm_log := comm_log s; calls := calls s |}.

Definition set_loss_fns (v : list (option string * string)) (s : state) : state :=
  {| _inputs := _inputs s; _input_fns := _input_fns s; _losses := _losses s;
     _loss_fns := v; _train_ops := _train_ops s; _opt_fns := _opt_fns s;
     _eval_ops := _eval_ops s; _eval_fns := _eval_fns s;
     _opt_to_vars := _opt_to_vars s; _recv_grad_ops := _recv_grad_ops s;
     _require_grad_ops := _require_grad_ops s; hooks := hooks s;
     scope_mode := scope_mode s; scope_task := scope_task s;
     user_opt_config := user_opt_config s;
     default_opt_config := default_opt_config s; warnings := warnings s;
     comm_log := comm_log s; calls := calls s |}.

Definition set_train_ops (v : gmap (option string) (list op)) (s : state) : state :=
  {| _inputs := _inputs s; _input_fns := _input_fns s; _losses := _losses s;
     _loss_fns := _loss_fns s; _train_ops := v; _opt_fns := _opt_fns s;
     _eval_ops := _eval_ops s; _eval_fns := _eval_fns s;
     _opt_to_vars := _opt_to_vars s; _recv_grad_ops := _recv_grad_ops s;
     _require_grad_ops := _require_grad_ops s; hooks := hooks s;
     scope_mode := scope_mode s; scope_task := scope_task s;
     user_opt_config := user_opt_config s;
     default_opt_config := default_opt_config s; warnings := warnings s;
     comm_log := comm_log s; calls := calls s |}.

Definition set_opt_fns (v : gmap (option string) string) (s : state) : state :=
  {| _inputs := _inputs s; _input_fns := _input_fns s; _losses := _losses s;
     _loss_fns := _loss_fns s; _train_ops := _train_ops s; _opt_fns := v;
     _eval_ops := _eval_ops s; _eval_fns := _eval_fns s;
     _opt_to_vars := _opt_to_vars s; _recv_grad_ops := _recv_grad_ops s;
     _require_grad_ops := _require_grad_ops s; hooks := hooks s;
     scope_mode := scope_mode s; scope_task := scope_task s;
     user_opt_config := user_opt_config s;
     default_opt_config := default_opt_config s; warnings := warnings s;
     comm_log := comm_log s; calls := calls s |}.

Definition set_eval_ops (v : gmap (option string) (list op)) (s : state) : state :=
  {| _inputs := _inputs s; _input_fns := _input_fns s; _losses := _losses s;
     _loss_fns := _loss_fns s; _train_ops := _train_ops s;
     _opt_fns := _opt_fns s; _eval_ops := v; _eval_fns := _eval_fns s;
     _opt_to_vars := _opt_to_vars s; _recv_grad_ops := _recv_grad_ops s;
     _require_grad_ops := _require_grad_ops s; hooks := hooks s;
     scope_mode := scope_mode s; scope_task := scope_task s;
     user_opt_config := user_opt_config s;
     default_opt_config := default_opt_config s; warnings := warnings s;
     comm_log := comm_log s; calls := calls s |}.

Definition set_eval_fns (v : gmap (option string) string) (s : state) : state :=
  {| _inputs := _inputs s; _input_fns := _input_fns s; _losses := _losses s;
     _loss_fns := _loss_fns s; _train_ops := _train_ops s;
     _opt_fns := _opt_fns s; _eval_ops := _eval_ops s; _eval_fns := v;
     _opt_to_vars := _opt_to_vars s; _recv_grad_ops := _recv_grad_ops s;
     _require_grad_ops := _require_grad_ops s; hooks := hooks s;
     scope_mode := scope_mode s; scope_task := scope_task s;
     user_opt_config := user_opt_config s;
     default_opt_config := default_opt_config s; warnings := warnings s;
     comm_log := comm_log s; calls := calls s |}.

Definition set_opt_to_vars (v : gmap (option string) (list binding)) (s : state) : state :=
  {| _inputs := _inputs s; _input_fns := _input_fns s; _losses := _losses s;
     _loss_fns := _loss_fns s; _train_ops := _train_ops s;
     _opt_fns := _opt_fns s; _eval_ops := _eval_ops s;
     _eval_fns := _eval_fns s; _opt_to_vars := v;
     _recv_grad_ops := _recv_grad_ops s;
     _require_grad_ops := _require_grad_ops s; hooks := hooks s;
     scope_mode := scope_mode s; scope_task := scope_task s;
     user_opt_config := user_opt_config s;
     default_opt_config := default_opt_config s; warnings := warnings s;
     comm_log := comm_log s; calls := calls s |}.

Definition set_recv_grad_ops (v : gmap (option string) (list (string * tensor))) (s : state) : state :=
  {| _inputs := _inputs s; _input_fns := _input_fns s; _losses := _losses s;
     _loss_fns := _loss_fns s; _train_ops := _train_ops s;
     _opt_fns := _opt_fns s; _eval_ops := _eval_ops s;
     _eval_fns := _eval_fns s; _opt_to_vars := _opt_to_vars s;
     _recv_grad_ops := v; _require_grad_ops := _require_grad_ops s;
     hooks := hooks s; scope_mode := scope_mode s;
     scope_task := scope_task s; user_opt_config := user_opt_config s;
     default_opt_config := default_opt_config s; warnings := warnings s;
     comm_log := comm_log s; calls := calls s |}.

Definition set_require_grad_ops (v : gmap (option string) (list (tensor * tensor))) (s : state) : state :=
  {| _inputs := _inputs s; _input_fns := _input_fns s; _losses := _losses s;
     _loss_fns := _loss_fns s; _train_ops := _train_ops s;
     _opt_fns := _opt_fns s; _eval_ops := _eval_ops s;
     _eval_fns := _eval_fns s; _opt_to_vars := _opt_to_vars s;
     _recv_grad_ops := _recv_grad_ops s; _require_grad_ops := v;
     hooks := hooks s; scope_mode := scope_mode s;
     scope_task := scope_task s; user_opt_config := user_opt_config s;
     default_opt_config := default_opt_config s; warnings := warnings s;
     comm_log := comm_log s; calls := calls s |}.

Definition set_hooks (v : list (MODE * option string * string)) (s : state) : state :=
  {| _inputs := _inputs s; _input_fns := _input_fns s; _losses := _losses s;
     _loss_fns := _loss_fns s; _train_ops := _train_ops s;
     _opt_fns := _opt_fns s; _eval_ops := _eval_ops s;
     _eval_fns := _eval_fns s; _opt_to_vars := _opt_to_vars s;
     _recv_grad_ops := _recv_grad_ops s;
     _require_grad_ops := _require_grad_ops s; hooks := v;
     scope_mode := scope_mode s; scope_task := scope_task s;
     user_opt_config := user_opt_config s;
     default_opt_config := default_opt_config s; warnings := warnings s;
     comm_log := comm_log s; calls := calls s |}.

Definition set_user_opt_config (v : opt_config) (s : state) : state :=
  {| _inputs := _inputs s; _input_fns := _input_fns s; _losses := _losses s;
     _loss_fns := _loss_fns s; _train_ops := _train_ops s;
     _opt_fns := _opt_fns s; _eval_ops := _eval_ops s;
     _eval_fns := _eval_fns s; _opt_to_vars := _opt_to_vars s;
     _recv_grad_ops := _recv_grad_ops s;
     _require_grad_ops := _require_grad_ops s; hooks := hooks s;
     scope_mode := scope_mode s; scope_task := scope_task s;
     user_opt_config := v; default_opt_config := default_opt_config s;
     warnings := warnings s; comm_log := comm_log s; calls := calls s |}.

Definition set_default_opt_config (v : opt_config) (s : state) : state :=
  {| _inputs := _inputs s; _input_fns := _input_fns s; _losses := _losses s;
     _loss_fns := _loss_fns s; _train_ops := _train_ops s;
     _opt_fns := _opt_fns s; _eval_ops := _eval_ops s;
     _eval_fns := _eval_fns s; _opt_to_vars := _opt_to_vars s;
     _recv_grad_ops := _recv_grad_ops s;
     _require_grad_ops := _require_grad_ops s; hooks := hooks s;
     scope_mode := scope_mode s; scope_task := scope_task s;
     user_opt_config := user_opt_config s; default_opt_config := v;
     warnings := warnings s; comm_log := comm_log s; calls := calls s |}.

Definition set_warnings (v : list string) (s : state) : state :=
  {| _inputs := _inputs s; _input_fns := _input_fns s; _losses := _losses s;
     _loss_fns := _loss_fns s; _train_ops := _train_ops s;
     _opt_fns := _opt_fns s; _eval_ops := _eval_ops s;
     _eval_fns := _eval_fns s; _opt_to_vars := _opt_to_vars s;
     _recv_grad_ops := _recv_grad_ops s;
     _require_grad_ops := _require_grad_ops s; hooks := hooks s;
     scope_mode := scope_mode s; scope_task := scope_task s;
     user_opt_config := user_opt_config s;
     default_opt_config := default_opt_config s; warnings := v;
     comm_log := comm_log s; calls := calls s |}.

Definition set_comm_log (v : list comm_event) (s : state) : state :=
  {| _inputs := _inputs s; _input_fns := _input_fns s; _losses := _losses s;
     _loss_fns := _loss_fns s; _train_ops := _train_ops s;
     _opt_fns := _opt_fns s; _eval_ops := _eval_ops s;
     _eval_fns := _eval_fns s; _opt_to_vars := _opt_to_vars s;
     _recv_grad_ops := _recv_grad_ops s;
     _require_grad_ops := _require_grad_ops s; hooks := hooks s;
     scope_mode := scope_mode s; scope_task := scope_task s;
     user_opt_config := user_opt_config s;
     default_opt_config := default_opt_config s; warnings := warnings s;
     comm_log := v; calls := calls s |}.

Definition set_calls (v : list call_event) (s : state) : state :=
  {| _inputs := _inputs s; _input_fns := _input_fns s; _losses := _losses s;
     _loss_fns := _loss_fns s; _train_ops := _train_ops s;
     _opt_fns := _opt_fns s; _eval_ops := _eval_ops s;
     _eval_fns := _eval_fns s; _opt_to_vars := _opt_to_vars s;
     _recv_grad_ops := _recv_grad_ops s;
     _require_grad_ops := _require_grad_ops s; hooks := hooks s;
     scope_mode := scope_mode s; scope_task := scope_task s;
     user_opt_config := user_opt_config s;
     default_opt_config := default_opt_config s; warnings := warnings s;
     comm_log := comm_log s; calls := v |}.

Definition set_scope (m : option MODE) (t : option string) (s : state) : state :=
  {| _inputs := _inputs s; _input_fns := _input_fns s; _losses := _losses s;
     _loss_fns := _loss_fns s; _train_ops := _train_ops s;
     _opt_fns := _opt_fns s; _eval_ops := _eval_ops s;
     _eval_fns := _eval_fns s; _opt_to_vars := _opt_to_vars s;
     _recv_grad_ops := _recv_grad_ops s;
     _require_grad_ops := _require_grad_ops s; hooks := hooks s;
     scope_mode := m; scope_task := t; user_opt_config := user_opt_config s;
     default_opt_config := default_opt_config s; warnings := warnings s;
     comm_log := comm_log s; calls := calls s |}.

(** [tf.logging.warn(msg)] *)
Definition tf_logging_warn (msg : string) : M unit :=
  modify (λ s, set_warnings (warnings s ++ [msg]) s).

(** ** Insertion-ordered dicts that the code iterates *)

Definition dict_mem {V} (k : option string) (d : list (option string * V)) : bool :=
  bool_decide (k ∈ d.*1).

Fixpoint dict_set {V} (k : option string) (v : V) (d : list (option string * V))
    : list (option string * V) :=
  match d with
  | [] => [(k, v)]
  | (k', v') :: d' =>
      if decide (k' = k) then (k, v) :: d' else (k', v') :: dict_set k v d'
  end.

Fixpoint dict_get {V} (k : option string) (d : list (option string * V)) : option V :=
  match d with
  | [] => None
  | (k', v') :: d' => if decide (k' = k) then Some v' else dict_get k d'
  end.

(** Insertion-ordered dicts over any key type: assigning to a key that is
    present keeps its place. *)
Fixpoint alist_set {K V} `{EqDecision K} (k : K) (v : V) (d : list (K * V))
    : list (K * V) :=
  match d with
  | [] => [(k, v)]
  | (k', v') :: d' =>
      if decide (k' = k) then (k, v) :: d' else (k', v') :: alist_set k v d'
  end.

Fixpoint alist_get {K V} `{EqDecision K} (k : K) (d : list (K * V)) : option V :=
  match d with
  | [] => None
  | (k', v') :: d' => if decide (k' = k) then Some v' else alist_get k d'
  end.

(** ** The two optimizer configuration dicts *)

Definition cfg_get (r : cfg_ref) (s : state) : opt_config :=
  match r with
  | UserOptConfig => user_opt_config s
  | DefaultOptConfig => default_opt_config s
  end.

Definition cfg_put (r : cfg_ref) (d : opt_config) (s : state) : state :=
  match r with
  | UserOptConfig => set_user_opt_config d s
  | DefaultOptConfig => set_default_opt_config d s
  end.

(** [d.pop(key, default)] on the dict [r]. *)
Definition dict_pop (r : cfg_ref) (key : string) (dflt : cfg_value) : M cfg_value :=
  λ st,
    match cfg_get r st !! key with
    | Some v => (Ok v, cfg_put r (delete key (cfg_get r st)) st)
    | None => (Ok dflt, st)
    end.

(** [kwargs.pop('opt_config', _DEFAULT_OPT_CONFIG)]: [kw] tells whether
    the keyword was passed to [compile]. *)
Definition kwargs_pop_opt_config (kw : bool) : cfg_ref :=
  if kw then UserOptConfig else DefaultOptConfig.

(** ** class Model *)

Module Model.

(** [task if task else task_scope.current_task_scope().task] *)
Definition resolve_task (t : task) : M task :=
  λ st, (Ok (if truthy t then t else scope_task st), st).

(** Modelled from the spec: [task_scope.current_task_scope] is not among
    the sources.  Following the data model (a TaskScope is an immutable
    key compared by value and "never mutated"), it hands out a fresh
    TaskScope holding the ambient mode and task, so the two assignments
    of [_get_task_scope] stay local to the returned key.  A scope
    without mode is an error. *)
Definition _get_task_scope (mode : option MODE) (t : task) : M (MODE * task) :=
  m0 ← gets scope_mode;
  t0 ← gets scope_task;
  let m := if mode is Some _ then mode else m0 in
  let tk := if truthy t then t else t0 in
  match m with
  | None => raise (ValueError "must have mode param")
  | Some m => mret (m, tk)
  end.

(** [with task_scope.task_scope(task=task, mode=mode): body] *)
Definition with_task_scope {A} (t : task) (mode : MODE) (body : M A) : M A :=
  λ st,
    let (r, st') := body (set_scope (Some mode) t st) in
    (r, set_scope (scope_mode st) (scope_task st) st').

Definition fmt_task (t : task) : string :=
  match t with Some s => s | None => "None" end.

Definition fmt_mode (m : MODE) : string :=
  match m with TRAIN => "train" | EVAL => "eval" end.

(** [input] *)
Definition input (mode : MODE) (t : task) : M pyobj :=
  ts ← _get_task_scope (Some mode) t;
  inputs ← gets _inputs;
  match inputs !! ts with
  | None => raise (ValueError ("get input failed for mode:" +:+ fmt_mode mode
                                +:+ " task:" +:+ fmt_task t))
  | Some s => mret s
  end.

(** [add_train_op] *)
Definition add_train_op (train_op : op) (t : task) : M unit :=
  modify (λ s, set_train_ops
                 (<[t := default [] (_train_ops s !! t) ++ [train_op]]> (_train_ops s)) s).

(** [add_eval_op] *)
Definition add_eval_op (eval_op : op) (t : task) : M unit :=
  modify (λ s, set_eval_ops
                 (<[t := default [] (_eval_ops s !! t) ++ [eval_op]]> (_eval_ops s)) s).

(** [add_hooks] *)
Definition add_hooks (hs : list string) (mode : option MODE) (t : task) : M unit :=
  ts ← _get_task_scope mode t;
  modify (λ s, set_hooks (hooks s ++ map (λ h, (ts.1, ts.2, h)) hs) s).

(** [input_fn] *)
Definition input_fn (fn : string) (t : task) : M unit :=
  t ← resolve_task t;
  fns ← gets _input_fns;
  if dict_mem t fns
  then raise (ValueError ("input define twice for task:" +:+ fmt_task t))
  else modify (set_input_fns (dict_set t fn fns)).

(** [loss_fn] *)
Definition loss_fn (fn : string) (t : task) : M unit :=
  t ← resolve_task t;
  fns ← gets _loss_fns;
  if dict_mem t fns
  then raise (ValueError ("loss define twice for task:" +:+ fmt_task t))
  else modify (set_loss_fns (dict_set t fn fns)).

(** [optimizer_fn] *)
Definition optimizer_fn (fn : string) (t : task) : M unit :=
  t ← resolve_task t;
  fns ← gets _opt_fns;
  if bool_decide (is_Some (fns !! t))
  then raise (ValueError ("optimizer define twice for task:" +:+ fmt_task t))
  else modify (set_opt_fns (<[t := fn]> fns)).

(** [eval_fn] *)
Definition eval_fn (fn : string) (t : task) : M unit :=
  t ← resolve_task t;
  fns ← gets _eval_fns;
  if bool_decide (is_Some (fns !! t))
  then raise (ValueError ("eval fn define twice for task:" +:+ fmt_task t))
  else modify (set_eval_fns (<[t := fn]> fns)).

(** [loss] *)
Definition loss (t : task) : M (option tensor) :=
  t ← resolve_task t;
  losses ← gets _losses;
  match losses !! t with
  | None => raise (ValueError ("get loss failed for task:" +:+ fmt_task t))
  | Some l => mret l
  end.

(** [train_op] *)
Definition train_op (t : task) : M (list op) :=
  t ← resolve_task t;
  ops ← gets _train_ops;
  match ops !! t with
  | None => raise (ValueError ("get train_op failed for task:" +:+ fmt_task t))
  | Some l => mret l
  end.

(** [eval_op] *)
Definition eval_op (t : task) : M (list op) :=
  t ← resolve_task t;
  ops ← gets _eval_ops;
  match ops !! t with
  | None => raise (ValueError ("get eval_op failed for task:" +:+ fmt_task t))
  | Some l => mret l
  end.

(** [opt_to_vars] *)
Definition opt_to_vars (t : task) : M (list binding) :=
  t ← resolve_task t;
  otv ← gets _opt_to_vars;
  match otv !! t with
  | None => raise (RuntimeError ("get opt_to_vars failed for task:" +:+ fmt_task t))
  | Some l => mret l
  end.

(** [add_extra_data] and [get_extra_data] read and write the attribute
    [_extra_data] only; it is passed explicitly.  A stored value is any
    Python object, [None] included: values are [option V], with [None]
    for Python's [None].  [get_extra_data] returns the stored value
    itself, and [None] for a missing key. *)
Definition add_extra_data {V} (key : string) (value : option V)
    (extra_data : gmap string (option V)) : result unit * gmap string (option V) :=
  if bool_decide (is_Some (extra_data !! key))
  then (Raise (ValueError ("key[" +:+ key +:+ "] already exist")), extra_data)
  else (Ok tt, <[key := value]> extra_data).

Definition get_extra_data {V} (key : string) (extra_data : gmap string (option V))
    : option V :=
  match extra_data !! key with
  | None => None
  | Some v => v
  end.

(** The attribute [_metrics]: per task scope, the metrics by name. *)
Abbreviation metrics_dict :=
  (list ((MODE * option string) * list (string * tensor))) (only parsing).

(** [add_metric]; the attribute [_metrics] is passed explicitly.  In
    [add_metric] and [metrics], [mode] is the argument as the method body
    sees it: [Some m] for a mode that is given and also for an omitted
    one, whose default is [MODE.TRAIN], i.e. [Some TRAIN]; [None] only
    for an explicit [mode=None]. *)
Definition add_metric (name : string) (metric : tensor) (mode : option MODE) (t : task)
    (_metrics : metrics_dict) : M metrics_dict :=
  ts ← _get_task_scope mode t;
  mret (alist_set ts (alist_set name metric (default [] (alist_get ts _metrics)))
          _metrics).

(** [metrics]: the empty list for a scope without metrics. *)
Definition metrics (mode : option MODE) (t : task) (_metrics : metrics_dict)
    : M (list (string * tensor)) :=
  ts ← _get_task_scope mode t;
  mret (default [] (alist_get ts _metrics)).

(** [_add_logger_hook]: [LoggerHook log_step ms] names the hook object
    built by [logger_hook.LoggerHook(global_step, log_step)] followed by
    one [add_metrics] per metric of [ms], in order.  The scope is entered
    with positional arguments, [task_scope.task_scope(ts.mode, ts.task)]:
    they are read in the order of the constructor, as in
    [task_scope.TaskScope(MODE.TRAIN, task)], the mode first. *)
Definition _add_logger_hook (LoggerHook : Z → list (string * tensor) → string)
    (log_step : Z) (_metrics : metrics_dict) : M unit :=
  for_each (λ e : (MODE * option string) * list (string * tensor),
              with_task_scope e.1.2 e.1.1
                (add_hooks [LoggerHook log_step e.2] (Some e.1.1) None))
           _metrics;;
  mret tt.

(** [_reduce_loss] *)
Definition _reduce_loss (loss : option tensor) (reduce_func : cfg_value)
    : M (option tensor) :=
  match loss with
  | None => mret None
  | Some l =>
      if cfg_is reduce_func "mean" then mret (Some (TReduceMean l))
      else if cfg_is reduce_func "sum" then mret (Some (TReduceSum l))
      else match reduce_func with
           | CfgCallable f => mret (Some (f l))
           | _ =>
               tf_logging_warn ("No such reduce function called '"
                                +:+ cfg_repr reduce_func
                                +:+ "', it will use mean by default.");;
               mret (Some (TReduceMean l))
           end
  end.

(** [_minimize] of the base class. *)
Definition _minimize (t : task) (loss : option tensor)
    (vars_to_compute : list tensor * var_scope) (opt : optimizer) (kw : bool)
    : M (option op) :=
  let opt_config := kwargs_pop_opt_config kw in
  loss ← (if takes_opt_config opt then mret loss
          else r ← dict_pop opt_config "REDUCE" (CfgStr "mean");
               _reduce_loss loss r);
  let var_list := vars_to_compute.1 in
  grads_and_vars ← lift (compute_gradients opt loss var_list None None);
  o ← lift (apply_gradients opt grads_and_vars);
  mret (Some o).

(** [ops.control_dependencies(control_inputs)]: every control input has
    to be an operation; [None] is refused. *)
Fixpoint control_dependencies (control_inputs : list (option op)) : result (list op) :=
  match control_inputs with
  | [] => Ok []
  | None :: _ =>
      Raise (TypeError "Can not convert a NoneType into a Tensor or Operation.")
  | Some o :: rest =>
      match control_dependencies rest with
      | Ok os => Ok (o :: os)
      | Raise e => Raise e
      end
  end.

(** The keyword arguments of [compile] that [_internal_compile] reads. *)
Record compile_kwargs := {
  sync_optimizer_config : option string;
  opt_config_given : bool
}.

Section Compile.

(** The user callbacks registered under a name: each receives the model
    ([self], here the state) and may change it. *)
Variable call_input_fn : string → MODE → M pyobj.
Variable call_loss_fn : string → Sample → M (option tensor).
Variable call_opt_fn : string → task → M (list binding).
Variable call_eval_fn : string → Sample → M (option op).

(** [tf.train.SyncReplicasOptimizer(opt, ...)] for a sync configuration,
    and the name of the hook its [make_session_run_hook] returns. *)
Variable SyncReplicasOptimizer : optimizer → string → optimizer.
Variable make_session_run_hook : optimizer → string.

(** [self._minimize], resolved on the class of [self]. *)
Variable minimize :
  task → option tensor → list tensor * var_scope → optimizer → bool → M (option op).

Definition log_call (e : option MODE → option string → call_event) : M unit :=
  modify (λ s, set_calls (calls s ++ [e (scope_mode s) (scope_task s)]) s).

(** The body of [for task, input_fn in self.input_fns.items()]. *)
Definition compile_input (t : task) (fn : string) : M unit :=
  train_sample ← with_task_scope t TRAIN
                   (log_call (CallInputFn fn TRAIN);; call_input_fn fn TRAIN);
  (if is_sample train_sample is None
   then raise (ValueError
          "input_fn must return a efl.Sample or efl.FederalSample for TRAIN")
   else mret tt);;
  modify (λ s, set_inputs (<[(TRAIN, t) := train_sample]> (_inputs s)) s);;
  eval_sample ← with_task_scope t EVAL
                  (log_call (CallInputFn fn EVAL);; call_input_fn fn EVAL);
  if py_bool eval_sample then
    (if is_sample eval_sample is None
     then raise (ValueError
            "input_fn must return a efl.Sample or efl.FederalSample for EVAL")
     else mret tt);;
    modify (λ s, set_inputs (<[(EVAL, t) := eval_sample]> (_inputs s)) s)
  else mret tt.

(** [task_sample.before_step_ops()] *)
Definition call_before_step_ops (o : pyobj) : M (list op) :=
  match is_sample o with
  | Some s => mret (before_step_ops s)
  | None => raise (AttributeError "before_step_ops")
  end.

Definition as_sample (o : pyobj) : Sample :=
  default {| sample_name := ""; before_step_ops := [] |} (is_sample o).

(** The body of [for opt, vars_to_compute in opt_to_vars.items()]. *)
Definition optimize_binding (kw : compile_kwargs) (t : task)
    (loss : option tensor) (b : binding) : M (option op) :=
  opt ← match sync_optimizer_config kw with
        | Some cfg =>
            let opt := SyncReplicasOptimizer b.1 cfg in
            add_hooks [make_session_run_hook opt] (Some TRAIN) t;;
            mret opt
        | None => mret b.1
        end;
  minimize t loss b.2 opt (opt_config_given kw).

(** Lines 371-395 of the body of
    [for task, loss_fn in self.loss_fns.items()]: the loss, the
    optimizer bindings, and the training op. *)
Definition compile_train (kw : compile_kwargs) (t : task) (fn : string) : M unit :=
  task_sample ← input TRAIN t;
  pre ← call_before_step_ops task_sample;
  loss ← with_task_scope t TRAIN
           (log_call (CallLossFn fn);; call_loss_fn fn (as_sample task_sample));
  modify (λ s, set_losses (<[t := loss]> (_losses s)) s);;
  opt_fns ← gets _opt_fns;
  match opt_fns !! t with
  | None => raise (RuntimeError ("optimizer fn not define for task["
                                  +:+ fmt_task t +:+ "]"))
  | Some ofn =>
      opt_to_vars ← (log_call (λ _, CallOptFn ofn);; call_opt_fn ofn t);
      modify (λ s, set_opt_to_vars (<[t := opt_to_vars]> (_opt_to_vars s)) s);;
      optimize_ops ← for_each (optimize_binding kw t loss) opt_to_vars;
      deps ← lift (control_dependencies optimize_ops);
      add_train_op (OpAssignAdd 1 (pre ++ deps)) t
  end.

(** Lines 396-402 of the same body: the evaluation op. *)
Definition compile_eval (t : task) : M unit :=
  eval_fns ← gets _eval_fns;
  match eval_fns !! t with
  | None => mret tt
  | Some efn =>
      eval_sample ← input EVAL t;
      _ ← call_before_step_ops eval_sample;
      eval_op ← with_task_scope t TRAIN
                  (log_call (CallEvalFn efn);;
                   call_eval_fn efn (as_sample eval_sample));
      match eval_op with
      | Some o => add_eval_op o t
      | None => mret tt
      end
  end.

(** The body of [for task, loss_fn in self.loss_fns.items()]. *)
Definition compile_task (kw : compile_kwargs) (t : task) (fn : string) : M unit :=
  compile_train kw t fn;;
  compile_eval t.

(** [_internal_compile] *)
Definition _internal_compile (kw : compile_kwargs) : M unit :=
  input_fns ← gets _input_fns;
  for_each (λ e, compile_input e.1 e.2) input_fns;;
  loss_fns ← gets _loss_fns;
  for_each (λ e, compile_task kw e.1 e.2) loss_fns;;
  mret tt.

End Compile.

End Model.

(** ** class FederalModel *)

Module FederalModel.

#[global] Instance result_ret : MRet result := λ A a, Ok a.

#[global] Instance result_bind : MBind result := λ A B f r,
  match r with
  | Ok a => f a
  | Raise e => Raise e
  end.

(** [self._communicator.send(name, tensor)] *)
Definition communicator_send (name : string) (t : tensor) : M op :=
  modify (λ s, set_comm_log (comm_log s ++ [CommSend name t]) s);;
  mret (OpSend name t).

(** [self._communicator.recv(name, dtype)] *)
Definition communicator_recv (name : string) (dt : dtype) : M tensor :=
  modify (λ s, set_comm_log (comm_log s ++ [CommRecv name dt]) s);;
  mret (TRecv name dt).

(** [recv] *)
Definition recv (name : string) (dt : dtype) (require_grad : bool) (t : task)
    : M tensor :=
  t ← Model.resolve_task t;
  recv_tensor ← communicator_recv name dt;
  (if require_grad
   then modify (λ s, set_recv_grad_ops
                  (<[t := default [] (_recv_grad_ops s !! t) ++ [(name, recv_tensor)]]>
                     (_recv_grad_ops s)) s)
   else mret tt);;
  mret recv_tensor.

(** [send] *)
Definition send (name : string) (x : tensor) (require_grad : bool) (mode : MODE)
    (t : task) : M op :=
  t ← Model.resolve_task t;
  send_op ← communicator_send name x;
  (match mode with
   | TRAIN => Model.add_train_op send_op t
   | EVAL => Model.add_eval_op send_op t
   end);;
  (if require_grad
   then recv_grad ← recv (name +:+ "_grad") (tensor_dtype x) false None;
        modify (λ s, set_require_grad_ops
                  (<[t := default [] (_require_grad_ops s !! t) ++ [(x, recv_grad)]]>
                     (_require_grad_ops s)) s)
   else mret tt);;
  mret send_op.

(** [self.require_grad_ops[task]]: the attribute is a
    [collections.defaultdict(list)], so reading a missing key stores an
    empty list under it. *)
Definition require_grad_ops_getitem (t : task) : M (list (tensor * tensor)) :=
  λ st,
    match _require_grad_ops st !! t with
    | Some l => (Ok l, st)
    | None => (Ok [], set_require_grad_ops (<[t := []]> (_require_grad_ops st)) st)
    end.

(** [tf.add]: a [None] operand cannot be converted to a tensor. *)
Definition tf_add (a b : option tensor) : result (option tensor) :=
  match a, b with
  | Some x, Some y => Ok (Some (TAdd x y))
  | None, _ =>
      Raise (ValueError
        "Tried to convert 'x' to a tensor and failed. Error: None values not supported.")
  | _, None =>
      Raise (ValueError
        "Tried to convert 'y' to a tensor and failed. Error: None values not supported.")
  end.

(** The local helper [_safe_slice_add]. *)
Definition _safe_slice_add (a b : option tensor) : option tensor :=
  match a, b with
  | None, _ => b
  | _, None => a
  | Some x, Some y => Some (TSliceAdd x y)
  end.

Fixpoint map2_result (f : option tensor → option tensor → result (option tensor))
    (a b : list (option tensor)) : result (list (option tensor)) :=
  match a, b with
  | x :: a', y :: b' => z ← f x y; zs ← map2_result f a' b'; mret (z :: zs)
  | _, _ => mret []
  end.

(** [tf.nest.map_structure(f, a, b)] on two flat lists: the structures
    are compared first, then [f] is applied position by position. *)
Definition map_structure (f : option tensor → option tensor → result (option tensor))
    (a b : list (option tensor)) : result (list (option tensor)) :=
  if bool_decide (length a = length b)
  then map2_result f a b
  else Raise (ValueError "The two structures don't have the same nested structure.").

(** The loop that fills [grads_lists]: one gradient list per loss source
    that is not [None]. *)
Fixpoint grads_per_source (opt : optimizer) (xs : list tensor)
    (cfg : opt_config) (sources : list (option tensor * option tensor))
    : result (list (list (option tensor))) :=
  match sources with
  | [] => mret []
  | (None, _) :: rest => grads_per_source opt xs cfg rest
  | (Some y, g) :: rest =>
      grads ← compute_gradients opt (Some y) xs g
                (if takes_opt_config opt then Some cfg else None);
      ls ← grads_per_source opt xs cfg rest;
      mret (grads.*1 :: ls)
  end.

(** The loop that folds [grads_lists] with [map_structure], starting from
    [None]. *)
Fixpoint fold_grads (f : option tensor → option tensor → result (option tensor))
    (acc : option (list (option tensor))) (ls : list (list (option tensor)))
    : result (option (list (option tensor))) :=
  match ls with
  | [] => mret acc
  | l :: rest =>
      match acc with
      | None => fold_grads f (Some l) rest
      | Some a => a' ← map_structure f a l; fold_grads f (Some a') rest
      end
  end.

(** Iterating [None] in [zip]. *)
Definition iter {A} (l : option (list A)) : result (list A) :=
  match l with
  | Some l => Ok l
  | None => Raise (TypeError "'NoneType' object is not iterable")
  end.

(** [e + '...']: an exception object has no [+]. *)
Definition exn_add_str (e : exn) (s : string) : result string :=
  Raise (TypeError "unsupported operand type(s) for +: 'ValueError' and 'str'").

Section Engine.

(** Whether a recorded received value originates in a variable scope. *)
Variable scope_matches : var_scope → string * tensor → bool.

(** [gradients_impl.gradients(ys, xs, grad_ys=...)] *)
Variable gradients :
  list (option tensor) → list tensor → list (option tensor) →
  result (list (option tensor)).

(** Modelled from the spec: [communicator_util.get_recv_grad_vars] is
    not among the sources.  It yields the task's recorded received
    values ([recv(..., require_grad=True)]) "filtered to the ones whose
    originating variable scope matches" the binding's scope. *)
Definition get_recv_grad_vars (t : task) (scope : var_scope)
    : M (list (string * tensor)) :=
  recs ← gets (λ s, default [] (_recv_grad_ops s !! t));
  mret (filter (λ r, scope_matches scope r) recs).

(** Lines 561-568: the loss sources and their upstream gradients.
    [loss in send_ops] compares graph tensors, which are equal only to
    themselves; a loss of [None] is in no list of sent tensors. *)
Definition loss_sources (opt_config : cfg_ref) (opt : optimizer)
    (loss : option tensor) (send_ops recv_grad_ops : list tensor)
    : M (list (option tensor) * list (option tensor)) :=
  if bool_decide (loss ∈ Some <$> send_ops)
  then mret (Some <$> send_ops, Some <$> recv_grad_ops)
  else
    loss ← (if takes_opt_config opt then mret loss
            else r ← dict_pop opt_config "REDUCE" (CfgStr "mean");
                 Model._reduce_loss loss r);
    mret (loss :: (Some <$> send_ops), None :: (Some <$> recv_grad_ops)).

(** Lines 593-597: one gradient message per pair of the zip. *)
Definition send_back (t : task) (pair : (string * tensor) * option tensor)
    : M op :=
  match pair.2 with
  | Some grad => send (pair.1.1 +:+ "_grad") grad false TRAIN t
  | None => send (pair.1.1 +:+ "_grad") (TZerosLike pair.1.2) false TRAIN t
  end.

(** Lines 571-591, once the backend mode has been read: the gradients
    for the received values. *)
Definition peer_send_grads (opt_config : cfg_ref) (opt : optimizer)
    (recv_grads : list (string * tensor))
    (loss grad_loss : list (option tensor)) (mode : cfg_value)
    : M (list (option tensor)) :=
  if cfg_is mode "noise" then
    cfg ← gets (cfg_get opt_config);
    grads_lists ← lift (grads_per_source opt recv_grads.*2 cfg (zip loss grad_loss));
    send_grads ← lift (fold_grads tf_add None grads_lists);
    lift (iter send_grads)
  else lift (gradients loss recv_grads.*2 grad_loss).

(** Lines 571-597: the gradients, sent to the peer. *)
Definition peer_reply (opt_config : cfg_ref) (opt : optimizer) (t : task)
    (recv_grads : list (string * tensor))
    (loss grad_loss : list (option tensor)) (mode : cfg_value) : M unit :=
  send_grads ← peer_send_grads opt_config opt recv_grads loss grad_loss mode;
  for_each (send_back t) (zip recv_grads send_grads);;
  mret tt.

(** Lines 570-597. *)
Definition peer_gradients (opt_config : cfg_ref) (opt : optimizer) (t : task)
    (recv_grads : list (string * tensor))
    (loss grad_loss : list (option tensor)) : M unit :=
  if bool_decide (0 < length recv_grads) then
    mode ← dict_pop opt_config "BACKEND_MODE" (CfgStr "noise");
    peer_reply opt_config opt t recv_grads loss grad_loss mode
  else mret tt.

(** Lines 608-629: the body of the [try]. *)
Definition local_gradients (opt_config : cfg_ref) (opt : optimizer)
    (var_list : list tensor) (loss grad_loss : list (option tensor))
    : M (option op) :=
  cfg ← gets (cfg_get opt_config);
  grads_lists ← lift (grads_per_source opt var_list cfg (zip loss grad_loss));
  grads_list ← lift (fold_grads (λ a b, Ok (_safe_slice_add a b)) None grads_lists);
  grads_list ← lift (iter grads_list);
  let grads_and_vars := zip grads_list var_list in
  o ← lift (apply_gradients opt grads_and_vars);
  mret (Some o).

(** Lines 630-632: the handler of the [try]. *)
Definition on_ValueError (e : exn) : M (option op) :=
  msg ← lift (exn_add_str e
    " This warning may be caused by either legal or illegal action. Please confirm.");
  tf_logging_warn msg;;
  mret None.

(** [_minimize] of the federated class. *)
Definition _minimize (t : task) (loss : option tensor)
    (vars_to_compute : list tensor * var_scope) (opt : optimizer) (kw : bool)
    : M (option op) :=
  let var_list := vars_to_compute.1 in
  let var_scope := vars_to_compute.2 in
  recv_grads ← get_recv_grad_vars t var_scope;
  send_recv_grad_list ← require_grad_ops_getitem t;
  let send_ops := send_recv_grad_list.*1 in
  let recv_grad_ops := send_recv_grad_list.*2 in
  let opt_config := kwargs_pop_opt_config kw in
  sources ← loss_sources opt_config opt loss send_ops recv_grad_ops;
  peer_gradients opt_config opt t recv_grads sources.1 sources.2;;
  try_except_ValueError
    (local_gradients opt_config opt var_list sources.1 sources.2)
    on_ValueError.

End Engine.

End FederalModel.

(** The value [_reduce_loss] returns for a defined loss. *)
Definition reduce_value (reduce_func : cfg_value) (l : tensor) : tensor :=
  if cfg_is reduce_func "mean" then TReduceMean l
  else if cfg_is reduce_func "sum" then TReduceSum l
  else match reduce_func with
       | CfgCallable f => f l
       | _ => TReduceMean l
       end.

(** The loss sources in the words of the specification, for a given
    first source [head]: the sent values with their pending gradients
    when the loss is one of the sent values, otherwise [head] in front of
    the sent values, with [None] in front of the pending gradients. *)
Definition spec_loss_sources (head loss : option tensor) (sent pending : list tensor)
    : list (option tensor) * list (option tensor) :=
  if bool_decide (loss ∈ Some <$> sent)
  then (Some <$> sent, Some <$> pending)
  else (head :: (Some <$> sent), None :: (Some <$> pending)).

(** The message [send_back] sends for a received value and its gradient. *)
Definition reply_of (p : (string * tensor) * option tensor) : string * tensor :=
  (p.1.1 +:+ "_grad", default (TZerosLike p.1.2) p.2).

(** ** Relating the state before and after a computation *)

(** [keeps R c]: running [c] takes every state to an [R]-related one,
    whether [c] returns or raises. *)
Definition keeps {A} (R : relation state) (c : M A) : Prop :=
  ∀ st, R st (c st).2.

(** The states agree on an observation. *)
Definition same {B} (obs : state → B) : relation state :=
  λ s s', obs s' = obs s.

(** The global-step increments among the training ops of a task. *)
Definition is_global_step_op (o : op) : bool :=
  match o with
  | OpAssignAdd _ _ => true
  | _ => false
  end.

Definition gs_ops (t : task) (s : state) : list op :=
  filter (λ o, is_global_step_op o) (default [] (_train_ops s !! t)).

(** No task gains or loses a global-step increment. *)
Definition same_gs : relation state :=
  λ s s', ∀ t, gs_ops t s' = gs_ops t s.

(** No global-step increment changes and no loss function is registered. *)
Definition input_frame : relation state :=
  λ s s', same_gs s s' ∧ _loss_fns s' = _loss_fns s.

(** The call log and the registered inputs. *)
Definition calls_and_inputs (s : state)
    : list call_event * gmap (MODE * option string) pyobj :=
  (calls s, _inputs s).

(** The sample check in the words of the specification: an input function
    that returns something else than a sample, in either mode, makes the
    step fail with a ValueError. *)
Definition wrong_type_is_fatal (call_input_fn : string → MODE → M pyobj)
    (t : task) (fn : string) (st : state) : Prop :=
  ∀ mode o, (∀ s, (call_input_fn fn mode s).1 = Ok o) → is_sample o = None →
    ∃ msg, (Model.compile_input call_input_fn t fn st).1 = Raise (ValueError msg).

(** Both configuration dicts. *)
Definition cfgs (s : state) : gmap string cfg_value * gmap string cfg_value :=
  (user_opt_config s, default_opt_config s).

(** Keys are only ever removed from the configuration dict [r]. *)
Definition cfg_shrinks (r : cfg_ref) : relation state :=
  λ s s', ∀ k, cfg_get r s !! k = None → cfg_get r s' !! k = None.

(** What the configuration dict [r] holds under [k]. *)
Definition cfg_key (r : cfg_ref) (k : string) (s : state) : option cfg_value :=
  cfg_get r s !! k.

(** The binding after [b1] finds no 'BACKEND_MODE' in the configuration
    dict [r]: what it pops is the default. *)
Definition later_binding_reads_default (step : binding → M (option op))
    (r : cfg_ref) (b1 : binding) (st : state) : Prop :=
  (dict_pop r "BACKEND_MODE" (CfgStr "noise") (step b1 st).2).1 = Ok (CfgStr "noise").

(** The state after popping 'REDUCE' and reducing the loss with it. *)
Definition after_reduce (r : cfg_ref) (loss : option tensor) (st : state) : state :=
  (Model._reduce_loss loss (default (CfgStr "mean") (cfg_get r st !! "REDUCE"))
     (dict_pop r "REDUCE" (CfgStr "mean") st).2).2.

(** A binding without exchange in the words of the specification:
    [FederalModel._minimize] comes out as [Model._minimize] does and
    makes no call on the communicator. *)
Definition minimizes_as_base (scope_matches : var_scope → string * tensor → bool)
    (gradients : list (option tensor) → list tensor → list (option tensor) →
                 result (list (option tensor)))
    (t : task) (loss : option tensor) (vars : list tensor * var_scope)
    (opt : optimizer) (kw : bool) (st : state) : Prop :=
  (FederalModel._minimize scope_matches gradients t loss vars opt kw st).1
    = (Model._minimize t loss vars opt kw st).1
  ∧ comm_log (FederalModel._minimize scope_matches gradients t loss vars opt kw st).2
    = comm_log st.

(** The key a registration with task argument [t] is filed under. *)
Definition registered_as (t : task) (st : state) : task :=
  if truthy t then t else scope_task st.

(** The training step of task [t] with loss function [fn] (lines
    371-395) as it runs from [s0] to [s_end]: the TRAIN sample of the
    task, the loss that the loss function returns under the task's TRAIN
    scope, the bindings that the task's optimizer function returns, the
    list [optimize_ops] that the loop over these bindings collects, and
    the increment of the global step under [control_inputs], the ops of
    the sample followed by the ops of [optimize_ops], added to the
    training ops of the task. *)
Definition train_step_run
    (call_loss_fn : string → Sample → M (option tensor))
    (call_opt_fn : string → task → M (list binding))
    (SyncReplicasOptimizer : optimizer → string → optimizer)
    (make_session_run_hook : optimizer → string)
    (minimize : task → option tensor → list tensor * var_scope → optimizer → bool →
                M (option op))
    (kw : Model.compile_kwargs) (t : task) (fn : string) (s0 s_end : state)
    (control_inputs : list op) (optimize_ops : list (option op)) : Prop :=
  ∃ sample smp loss s1 ofn bindings s2 sb deps,
    Model.input TRAIN t s0 = (Ok sample, s0)
    ∧ is_sample sample = Some smp
    ∧ Model.with_task_scope t TRAIN
        (Model.log_call (CallLossFn fn);; call_loss_fn fn smp) s0 = (Ok loss, s1)
    ∧ _opt_fns s1 !! t = Some ofn
    ∧ (Model.log_call (λ _, CallOptFn ofn);; call_opt_fn ofn t)
        (set_losses (<[t := loss]> (_losses s1)) s1) = (Ok bindings, s2)
    ∧ for_each (Model.optimize_binding SyncReplicasOptimizer make_session_run_hook
                  minimize kw t loss) bindings
        (set_opt_to_vars (<[t := bindings]> (_opt_to_vars s2)) s2) = (Ok optimize_ops, sb)
    ∧ Model.control_dependencies optimize_ops = Ok deps
    ∧ control_inputs = before_step_ops smp ++ deps
    ∧ s_end = (Model.add_train_op (OpAssignAdd 1 control_inputs) t sb).2.

(** The four function registries of a model. *)
Definition registries (s : state)
    : list (option string * string) * list (option string * string)
      * gmap (option string) string * gmap (option string) string :=
  (_input_fns s, _loss_fns s, _opt_fns s, _eval_fns s).

(** What the compile builds apart from the training ops: the registries,
    the inputs, losses, evaluation ops and optimizer bindings of the
    tasks, the hooks, the log of the callbacks, and the current scope. *)
Definition model_side (s : state) :=
  (registries s, _inputs s, _losses s, _eval_ops s, _opt_to_vars s, hooks s,
   calls s, scope_mode s, scope_task s).

(** The training ops of every task are kept, in order, at the front of
    what the task has afterwards. *)
Definition train_ops_grow : relation state :=
  λ s s', ∀ t, default [] (_train_ops s !! t) `prefix_of` default [] (_train_ops s' !! t).

(** ** Concrete graphs, optimizers and engines used in examples *)

Module Fixtures.

(** A freshly constructed model in a fresh process (the hook that the
    constructor of a federated model registers for its communicator is
    left out). *)
Definition fresh : state :=
  {| _inputs := ∅; _input_fns := []; _losses := ∅; _loss_fns := [];
     _train_ops := ∅; _opt_fns := ∅; _eval_ops := ∅; _eval_fns := ∅;
     _opt_to_vars := ∅; _recv_grad_ops := ∅; _require_grad_ops := ∅;
     hooks := []; scope_mode := None; scope_task := None;
     user_opt_config := ∅; default_opt_config := _DEFAULT_OPT_CONFIG;
     warnings := []; comm_log := []; calls := [] |}.

(** A [tf.train.Optimizer] over a table [partial y x] of the partial
    derivatives the differentiation engine finds: [compute_gradients]
    returns one pair per variable, in order; [apply_gradients] refuses a
    list without variables or without any gradient. *)
Definition tf_optimizer (name : string) (partial : tensor → tensor → option tensor)
    : optimizer :=
  {| opt_name := name;
     takes_opt_config := false;
     compute_gradients := λ loss var_list grad_loss _,
       match loss with
       | Some y => Ok (map (λ v, (partial y v, v)) var_list)
       | None => Raise (TypeError "loss is None")
       end;
     apply_gradients := λ gv,
       if bool_decide (gv = []) then Raise (ValueError "No variables provided.")
       else if forallb (λ p, bool_decide (p.1 = None)) gv
       then Raise (ValueError "No gradients provided for any variable")
       else Ok (OpApplyGradients name gv) |}.

(** The same optimizer with a [compute_gradients] that takes
    [opt_config]. *)
Definition noise_optimizer (name : string) (partial : tensor → tensor → option tensor)
    : optimizer :=
  {| opt_name := name;
     takes_opt_config := true;
     compute_gradients := compute_gradients (tf_optimizer name partial);
     apply_gradients := apply_gradients (tf_optimizer name partial) |}.

(** [gradients_impl.gradients] over the same kind of table: the joint
    gradient of all loss sources for each [x]. *)
Definition joint_gradients (partial : tensor → option tensor)
    (ys : list (option tensor)) (xs : list tensor) (grad_ys : list (option tensor))
    : result (list (option tensor)) :=
  Ok (map partial xs).

(** A received value originates in a scope when the scope's name is a
    prefix of the name it was received under; no scope takes all. *)
Definition scope_by_prefix (scope : var_scope) (r : string * tensor) : bool :=
  match scope with
  | None => true
  | Some s => String.prefix s r.1
  end.

Definition loss_t : tensor := TNode "loss" float32.
Definition w : tensor := TNode "w" float32.
Definition w2 : tensor := TNode "w2" float32.
Definition act1 : tensor := TRecv "act1" float32.
Definition hidden : tensor := TNode "hidden" float32.

(** d [y] / d [x] for the graphs of the examples: the loss depends on
    [w] and on the received activation [act1]; the sent tensor [hidden]
    depends on [w2] only. *)
Definition partial (y x : tensor) : option tensor :=
  if bool_decide (y = TReduceMean loss_t ∧ x = w)
  then Some (TNode "grad/loss/w" float32)
  else if bool_decide (y = TReduceMean loss_t ∧ x = act1)
  then Some (TNode "grad/loss/act1" float32)
  else if bool_decide (y = hidden ∧ x = w2)
  then Some (TNode "grad/hidden/w2" float32)
  else None.

Definition sgd : optimizer := tf_optimizer "sgd" partial.

(** The engine of the examples: received values are matched to a scope
    by name, [gradients_impl.gradients] finds no joint gradient. *)
Definition minimize :=
  FederalModel._minimize scope_by_prefix (joint_gradients (λ _, None)).

Definition sample_t1 : Sample :=
  {| sample_name := "t1/sample"; before_step_ops := [OpNamed "t1/materialize"] |}.

(** User callbacks, by the name they are registered under. *)
Definition input_fns (fn : string) (mode : MODE) : M pyobj :=
  if bool_decide (fn = "sample_for_both") then mret (PySample sample_t1)
  else if bool_decide (fn = "sample_for_train_only") then
    mret (match mode with TRAIN => PySample sample_t1 | EVAL => PyNone end)
  else if bool_decide (fn = "dict_for_eval") then
    mret (match mode with
          | TRAIN => PySample sample_t1
          | EVAL => PyOther "{'x': 1}" true
          end)
  else mret (PyOther "{'x': 1}" true).

Definition loss_fns (fn : string) (s : Sample) : M (option tensor) :=
  if bool_decide (fn = "loss_on_received") then
    FederalModel.recv "act1" float32 true None;; mret (Some loss_t)
  else mret (Some loss_t).

Definition opt_fns (fn : string) (t : task) : M (list binding) :=
  if bool_decide (fn = "two_optimizers") then
    mret [(tf_optimizer "sgd_w2" partial, ([w2], None));
          (tf_optimizer "sgd_w" partial, ([w], None))]
  else mret [(sgd, ([w], None))].

Definition eval_fns (fn : string) (s : Sample) : M (option op) :=
  mret (Some (OpNamed "auc")).

Definition sync_replicas (opt : optimizer) (cfg : string) : optimizer :=
  {| opt_name := "sync/" +:+ opt_name opt;
     takes_opt_config := takes_opt_config opt;
     compute_gradients := compute_gradients opt;
     apply_gradients := apply_gradients opt |}.

Definition sync_hook (opt : optimizer) : string := opt_name opt +:+ "/hook".

Definition compile (minimize : task → option tensor → list tensor * var_scope →
                               optimizer → bool → M (option op)) :=
  Model._internal_compile input_fns loss_fns opt_fns eval_fns
    sync_replicas sync_hook minimize.

Definition no_kwargs : Model.compile_kwargs :=
  {| Model.sync_optimizer_config := None; Model.opt_config_given := false |}.

(** A federated model with task "t1" registered: [kind] names the input
    function, [ofn] the optimizer function. *)
Definition registered (ifn lfn ofn : string) : state :=
  set_opt_fns {[ Some "t1" := ofn ]}
    (set_loss_fns [(Some "t1", lfn)]
       (set_input_fns [(Some "t1", ifn)] fresh)).

(** A model that received "act1" and sent [hidden] for task "t1", both
    with [require_grad=True]. *)
Definition exchanged : state :=
  (FederalModel.send "hidden" hidden true TRAIN (Some "t1")
     (FederalModel.recv "act1" float32 true (Some "t1") fresh).2).2.

(** A model that only received "act1" with [require_grad=True]. *)
Definition received : state :=
  (FederalModel.recv "act1" float32 true (Some "t1") fresh).2.

(** d [y] / d [x] when the sent tensor [hidden] is computed from the
    received activation and the local loss is not. *)
Definition partial_through (y x : tensor) : option tensor :=
  if bool_decide (y = hidden ∧ x = act1)
  then Some (TNode "grad/hidden/act1" float32)
  else if bool_decide (y = TReduceMean loss_t ∧ x = w)
  then Some (TNode "grad/loss/w" float32)
  else None.

(** A compile called with [opt_config={'BACKEND_MODE': 'direct'}] on a
    model that received "act1" with [require_grad=True]. *)
Definition received_direct : state :=
  set_user_opt_config {[ "BACKEND_MODE" := CfgStr "direct" ]} received.

Definition with_opt_config : Model.compile_kwargs :=
  {| Model.sync_optimizer_config := None; Model.opt_config_given := true |}.

(** The body of the binding loop for a task of the examples, with a
    [gradients_impl.gradients] that finds a joint gradient for every
    received value. *)
Definition binding_step (t : task) : binding → M (option op) :=
  Model.optimize_binding sync_replicas sync_hook
    (FederalModel._minimize scope_by_prefix
       (joint_gradients (λ _, Some (TNode "grad/joint/act1" float32))))
    with_opt_config t (Some loss_t).

(** One binding over [w], answering every received value of its task. *)
Definition w_binding : binding := (sgd, ([w], None)).

End Fixtures.

(** * Properties *)

(** ** Running the monad *)

Lemma bind_run {A B} (c : M A) (f : A → M B) st :
  (c ≫= f) st = match c st with
                | (Ok a, st') => f a st'
                | (Raise e, st') => (Raise e, st')
                end.
Proof. reflexivity. Qed.

Lemma bind_Ok_inv {A B} (c : M A) (f : A → M B) st b st' :
  (c ≫= f) st = (Ok b, st') →
  ∃ a st1, c st = (Ok a, st1) ∧ f a st1 = (Ok b, st').
Proof.
  rewrite bind_run. destruct (c st) as [[a|e] st1]; [eauto | done].
Qed.

Lemma bind_mret {A B} (a : A) (f : A → M B) st : (mret a ≫= f) st = f a st.
Proof. reflexivity. Qed.

Lemma bind_modify {B} (g : state → state) (f : unit → M B) st :
  (modify g ≫= f) st = f tt (g st).
Proof. reflexivity. Qed.

Lemma bind_gets {A B} (g : state → A) (f : A → M B) st :
  (gets g ≫= f) st = f (g st) st.
Proof. reflexivity. Qed.

Section Frame.
Context (R : relation state) `{!PreOrder R}.

Lemma keeps_ret {A} (a : A) : keeps R (mret a).
Proof. intros st. simpl. reflexivity. Qed.

Lemma keeps_raise {A} (e : exn) : keeps R (@raise A e).
Proof. intros st. simpl. reflexivity. Qed.

Lemma keeps_lift {A} (r : result A) : keeps R (lift r).
Proof. intros st. simpl. reflexivity. Qed.

Lemma keeps_gets {A} (f : state → A) : keeps R (gets f).
Proof. intros st. simpl. reflexivity. Qed.

Lemma keeps_modify (f : state → state) : (∀ s, R s (f s)) → keeps R (modify f).
Proof. intros H st. apply H. Qed.

Lemma keeps_bind {A B} (c : M A) (f : A → M B) :
  keeps R c → (∀ a, keeps R (f a)) → keeps R (c ≫= f).
Proof.
  intros Hc Hf st. rewrite bind_run. specialize (Hc st).
  destruct (c st) as [[a|e] st1]; simpl in *; [|done].
  etrans; [exact Hc | apply Hf].
Qed.

Lemma keeps_try {A} (body : M A) (handler : exn → M A) :
  keeps R body → (∀ e, keeps R (handler e)) →
  keeps R (try_except_ValueError body handler).
Proof.
  intros Hb Hh st. unfold try_except_ValueError. specialize (Hb st).
  destruct (body st) as [[a|e] st1]; simpl in *; [done|].
  destruct (is_ValueError e); [|done]. etrans; [exact Hb | apply Hh].
Qed.

Lemma keeps_for_each {A B} (body : A → M B) (l : list A) :
  (∀ a, keeps R (body a)) → keeps R (for_each body l).
Proof.
  intros Hb. induction l as [|a l IH]; simpl.
  - apply keeps_ret.
  - apply keeps_bind; [apply Hb|]. intros b.
    apply keeps_bind; [apply IH|]. intros bs. apply keeps_ret.
Qed.

Lemma keeps_with_task_scope {A} (t : task) (mode : MODE) (body : M A) :
  (∀ m tk s, R s (set_scope m tk s)) →
  keeps R body → keeps R (Model.with_task_scope t mode body).
Proof.
  intros Hs Hb st. unfold Model.with_task_scope.
  specialize (Hb (set_scope (Some mode) t st)).
  destruct (body _) as [r st1]; simpl in *.
  etrans; [apply Hs|]. etrans; [exact Hb | apply Hs].
Qed.
End Frame.

#[global] Instance same_preorder {B} (obs : state → B) : PreOrder (same obs).
Proof.
  split; [by intros s | intros s1 s2 s3; unfold same; congruence].
Qed.

Ltac keeps_tac :=
  repeat lazymatch goal with
  | |- keeps _ (mret _) => apply keeps_ret; try apply _
  | |- keeps _ (raise _) => apply keeps_raise; try apply _
  | |- keeps _ (lift _) => apply keeps_lift; try apply _
  | |- keeps _ (gets _) => apply keeps_gets; try apply _
  | |- keeps _ (Model.resolve_task _) => apply keeps_gets; try apply _
  | |- keeps _ (_ ≫= _) => apply keeps_bind; try apply _; [|intros ?]
  | |- keeps _ (modify _) => apply keeps_modify; by intros ?; hnf
  | |- keeps _ (for_each _ _) => apply keeps_for_each; try apply _; intros ?
  end.

Lemma keeps_weaken {A} (R R' : relation state) (c : M A) :
  (∀ s s', R s s' → R' s s') → keeps R c → keeps R' c.
Proof. intros H Hc st. apply H, Hc. Qed.

Lemma keeps_run {A} (R : relation state) (c : M A) st r st' :
  keeps R c → c st = (r, st') → R st st'.
Proof. intros Hk Hc. specialize (Hk st). by rewrite Hc in Hk. Qed.

(** ** Loss reduction *)

Lemma reduce_loss_value (loss : option tensor) (rf : cfg_value) (st : state) :
  (Model._reduce_loss loss rf st).1 = Ok (reduce_value rf <$> loss).
Proof.
  destruct loss as [l|]; [|done]. unfold Model._reduce_loss, reduce_value. simpl.
  destruct (cfg_is rf "mean"); [done|]. destruct (cfg_is rf "sum"); [done|].
  by destruct rf.
Qed.

Lemma dict_pop_run r k d st :
  dict_pop r k d st = (Ok (default d (cfg_get r st !! k)), (dict_pop r k d st).2).
Proof. unfold dict_pop. by destruct (_ !! k). Qed.

Lemma reduce_loss_run loss rf st :
  Model._reduce_loss loss rf st
  = (Ok (reduce_value rf <$> loss), (Model._reduce_loss loss rf st).2).
Proof.
  pose proof (reduce_loss_value loss rf st) as Hv.
  destruct (Model._reduce_loss loss rf st) as [res st']; simpl in *. by rewrite Hv.
Qed.

Lemma pop_reduce_run r loss st :
  (dict_pop r "REDUCE" (CfgStr "mean") ≫= λ rf, Model._reduce_loss loss rf) st
  = (Ok (reduce_value (default (CfgStr "mean") (cfg_get r st !! "REDUCE")) <$> loss),
     after_reduce r loss st).
Proof.
  rewrite bind_run, dict_pop_run. by rewrite reduce_loss_run.
Qed.

(** C8.  Applied to a defined loss, [_reduce_loss] gives the mean for
    'mean' (which is also what a configuration without 'REDUCE' yields),
    the sum for 'sum', the result of a callable for a callable, and for
    every other value logs one warning naming the value and gives the
    mean. *)
Theorem reduce_loss_cases :
  ∀ (l : tensor) (st : state),
    Model._reduce_loss (Some l) (CfgStr "mean") st = (Ok (Some (TReduceMean l)), st)
    ∧ (∀ r, cfg_get r st !! "REDUCE" = None →
            dict_pop r "REDUCE" (CfgStr "mean") st = (Ok (CfgStr "mean"), st))
    ∧ Model._reduce_loss (Some l) (CfgStr "sum") st = (Ok (Some (TReduceSum l)), st)
    ∧ (∀ f, Model._reduce_loss (Some l) (CfgCallable f) st = (Ok (Some (f l)), st))
    ∧ (∀ v, cfg_is v "mean" = false → cfg_is v "sum" = false →
            (∀ f, v ≠ CfgCallable f) →
            Model._reduce_loss (Some l) v st =
              (Ok (Some (TReduceMean l)),
               set_warnings (warnings st ++
                 ["No such reduce function called '" +:+ cfg_repr v
                  +:+ "', it will use mean by default."]) st)).
Proof.
  intros l st. repeat split.
  - intros r Hr. unfold dict_pop. by rewrite Hr.
  - intros v Hm Hs Hf. unfold Model._reduce_loss. rewrite Hm, Hs.
    destruct v as [s|f|r]; [done | by destruct (Hf f) | done].
Qed.

Lemma reduce_loss_cases_witness :
  let st := Fixtures.fresh in
  Model._reduce_loss (Some Fixtures.loss_t) (CfgStr "max") st =
    (Ok (Some (TReduceMean Fixtures.loss_t)),
     set_warnings ["No such reduce function called 'max', it will use mean by default."] st)
  ∧ dict_pop UserOptConfig "REDUCE" (CfgStr "mean") st = (Ok (CfgStr "mean"), st).
Proof.
  split.
  - apply (reduce_loss_cases Fixtures.loss_t Fixtures.fresh); [reflexivity | reflexivity |].
    intros f H; discriminate H.
  - apply (reduce_loss_cases Fixtures.loss_t Fixtures.fresh). reflexivity.
Defined.

(** ** Registration *)

Section Dict.
Context {V : Type}.
Implicit Types (d : list (option string * V)) (k : option string).

Lemma dict_get_None k d : dict_get k d = None ↔ k ∉ d.*1.
Proof.
  induction d as [|[k' v'] d IH]; simpl.
  - split; [intros _; apply not_elem_of_nil | done].
  - rewrite not_elem_of_cons. destruct (decide (k' = k)) as [->|Hne].
    + split; [done | by intros [? _]].
    + rewrite IH. split; [by intros ?; split | by intros [_ ?]].
Qed.

Lemma dict_mem_get k d : dict_mem k d = false ↔ dict_get k d = None.
Proof.
  unfold dict_mem. rewrite dict_get_None.
  destruct (bool_decide_reflect (k ∈ d.*1)); split; done.
Qed.

Lemma dict_get_set k v d : dict_get k (dict_set k v d) = Some v.
Proof.
  induction d as [|[k' v'] d IH]; simpl.
  - by rewrite decide_True.
  - destruct (decide (k' = k)) as [->|Hne]; simpl.
    + by rewrite decide_True.
    + by rewrite decide_False.
Qed.

Lemma dict_mem_set k v d : dict_mem k (dict_set k v d) = true.
Proof.
  destruct (dict_mem k (dict_set k v d)) eqn:E; [done|].
  apply dict_mem_get in E. by rewrite dict_get_set in E.
Qed.
End Dict.

Lemma input_fn_unfold fn t st :
  Model.input_fn fn t st =
    if dict_mem (registered_as t st) (_input_fns st)
    then (Raise (ValueError ("input define twice for task:"
                             +:+ Model.fmt_task (registered_as t st))), st)
    else (Ok tt, set_input_fns (dict_set (registered_as t st) fn (_input_fns st)) st).
Proof.
  unfold Model.input_fn, Model.resolve_task, mbind, M_bind, gets, registered_as.
  simpl. by destruct (dict_mem _ _).
Qed.

Lemma loss_fn_unfold fn t st :
  Model.loss_fn fn t st =
    if dict_mem (registered_as t st) (_loss_fns st)
    then (Raise (ValueError ("loss define twice for task:"
                             +:+ Model.fmt_task (registered_as t st))), st)
    else (Ok tt, set_loss_fns (dict_set (registered_as t st) fn (_loss_fns st)) st).
Proof.
  unfold Model.loss_fn, Model.resolve_task, mbind, M_bind, gets, registered_as.
  simpl. by destruct (dict_mem _ _).
Qed.

Lemma optimizer_fn_unfold fn t st :
  Model.optimizer_fn fn t st =
    if bool_decide (is_Some (_opt_fns st !! registered_as t st))
    then (Raise (ValueError ("optimizer define twice for task:"
                             +:+ Model.fmt_task (registered_as t st))), st)
    else (Ok tt, set_opt_fns (<[registered_as t st := fn]> (_opt_fns st)) st).
Proof.
  unfold Model.optimizer_fn, Model.resolve_task, mbind, M_bind, gets, registered_as.
  simpl. by case_bool_decide.
Qed.

(** C9.  After a successful registration of an input, loss or optimizer
    function for a task, registering another one for the same task raises
    a ValueError and changes nothing, so the first function stays
    registered; and a registration succeeds exactly when the task has no
    function of that kind yet.  [key] is the task the registration is
    filed under: the given name, or the current scope's task when none is
    given. *)
Theorem register_twice :
  ∀ (fn1 fn2 : string) (t : task) (st st1 : state),
    let key := if truthy t then t else scope_task st in
    (Model.input_fn fn1 t st = (Ok tt, st1) →
       Model.input_fn fn2 t st1 =
         (Raise (ValueError ("input define twice for task:" +:+ Model.fmt_task key)), st1)
       ∧ dict_get key (_input_fns st1) = Some fn1)
    ∧ (Model.loss_fn fn1 t st = (Ok tt, st1) →
       Model.loss_fn fn2 t st1 =
         (Raise (ValueError ("loss define twice for task:" +:+ Model.fmt_task key)), st1)
       ∧ dict_get key (_loss_fns st1) = Some fn1)
    ∧ (Model.optimizer_fn fn1 t st = (Ok tt, st1) →
       Model.optimizer_fn fn2 t st1 =
         (Raise (ValueError ("optimizer define twice for task:" +:+ Model.fmt_task key)), st1)
       ∧ _opt_fns st1 !! key = Some fn1)
    ∧ ((Model.input_fn fn1 t st).1 = Ok tt ↔ dict_get key (_input_fns st) = None)
    ∧ ((Model.loss_fn fn1 t st).1 = Ok tt ↔ dict_get key (_loss_fns st) = None)
    ∧ ((Model.optimizer_fn fn1 t st).1 = Ok tt ↔ _opt_fns st !! key = None).
Proof.
  intros fn1 fn2 t st st1 key.
  rewrite !input_fn_unfold, !loss_fn_unfold, !optimizer_fn_unfold.
  change (registered_as t st) with key.
  split_and!.
  - destruct (dict_mem key (_input_fns st)) eqn:E; [done|].
    intros [= <-]. change (registered_as t _) with key. simpl.
    rewrite dict_mem_set. split; [done | apply dict_get_set].
  - destruct (dict_mem key (_loss_fns st)) eqn:E; [done|].
    intros [= <-]. change (registered_as t _) with key. simpl.
    rewrite dict_mem_set. split; [done | apply dict_get_set].
  - case_bool_decide as E; [done|].
    intros [= <-]. change (registered_as t _) with key. simpl.
    rewrite lookup_insert_eq. by rewrite bool_decide_true by eauto.
  - rewrite <- dict_mem_get. by destruct (dict_mem key (_input_fns st)).
  - rewrite <- dict_mem_get. by destruct (dict_mem key (_loss_fns st)).
  - rewrite eq_None_not_Some. by case_bool_decide.
Qed.

Lemma register_twice_witness :
  let st1 := set_input_fns [(Some "t1", "first_input_fn")] Fixtures.fresh in
  Model.input_fn "first_input_fn" (Some "t1") Fixtures.fresh = (Ok tt, st1)
  ∧ Model.input_fn "second_input_fn" (Some "t1") st1 =
      (Raise (ValueError "input define twice for task:t1"), st1)
  ∧ dict_get (Some "t1") (_input_fns st1) = Some "first_input_fn".
Proof.
  split; [reflexivity|].
  apply (register_twice "first_input_fn" "second_input_fn" (Some "t1") Fixtures.fresh).
  reflexivity.
Defined.

(** ** Loss sources *)

(** C2, as stated, fails for an optimizer whose [compute_gradients]
    takes [opt_config]: the first loss source is then the local loss as
    it is, not the reduced one. *)
Lemma loss_sources_not_always_reduced :
  let opt := Fixtures.noise_optimizer "dp_sgd" Fixtures.partial in
  (Model._reduce_loss (Some Fixtures.loss_t) (CfgStr "mean") Fixtures.fresh).1
    = Ok (Some (TReduceMean Fixtures.loss_t))
  ∧ (FederalModel.loss_sources DefaultOptConfig opt (Some Fixtures.loss_t) [] []
       Fixtures.fresh).1
    = Ok ([Some Fixtures.loss_t], [None])
  ∧ (FederalModel.loss_sources DefaultOptConfig opt (Some Fixtures.loss_t) [] []
       Fixtures.fresh).1
    ≠ Ok (spec_loss_sources (Some (TReduceMean Fixtures.loss_t))
            (Some Fixtures.loss_t) [] []).
Proof. by vm_compute. Qed.

(** C2, amended.  The loss sources are the sent values paired with their
    pending gradients when the local loss is one of the sent values;
    otherwise one source in front of the sent values, paired with [None]
    in front of the pending gradients: the local loss reduced by the
    configured 'REDUCE' (mean when the key is absent) for an optimizer
    whose [compute_gradients] takes no [opt_config], and the local loss
    itself for one that does. *)
Theorem loss_sources_assembly :
  ∀ (r : cfg_ref) (opt : optimizer) (loss : option tensor)
    (sent pending : list tensor) (st : state),
    (FederalModel.loss_sources r opt loss sent pending st).1
    = Ok (spec_loss_sources
            (if takes_opt_config opt then loss
             else reduce_value (default (CfgStr "mean") (cfg_get r st !! "REDUCE"))
                    <$> loss)
            loss sent pending).
Proof.
  intros r opt loss sent pending st.
  unfold FederalModel.loss_sources, spec_loss_sources.
  case_bool_decide; [done|].
  destruct (takes_opt_config opt); [done|].
  unfold mbind, M_bind, dict_pop.
  destruct (cfg_get r st !! "REDUCE") as [rf|]; simpl.
  - pose proof (reduce_loss_value loss rf (cfg_put r (delete "REDUCE" (cfg_get r st)) st)) as Hv.
    destruct (Model._reduce_loss loss rf _) as [[v|e] st']; simpl in *; congruence.
  - pose proof (reduce_loss_value loss (CfgStr "mean") st) as Hv.
    destruct (Model._reduce_loss loss (CfgStr "mean") st) as [[v|e] st']; simpl in *;
      congruence.
Qed.

(** ** Gradients for the received values *)

Lemma send_back_run t p st :
  ∃ st', FederalModel.send_back t p st = (Ok (OpSend (reply_of p).1 (reply_of p).2), st')
         ∧ comm_log st' = comm_log st ++ [CommSend (reply_of p).1 (reply_of p).2].
Proof.
  unfold FederalModel.send_back, reply_of.
  destruct p as [[name v] [g|]]; simpl; eexists; split; reflexivity.
Qed.

(** The reply loop sends one message per pair, in order: the gradient
    when it is defined, zeros shaped like the received value when not. *)
Lemma reply_loop_sends t pairs st :
  (for_each (FederalModel.send_back t) pairs st).1
  = Ok (map (λ p, OpSend (reply_of p).1 (reply_of p).2) pairs)
  ∧ comm_log (for_each (FederalModel.send_back t) pairs st).2
    = comm_log st ++ map (λ p, CommSend (reply_of p).1 (reply_of p).2) pairs.
Proof.
  revert st. induction pairs as [|p pairs IH]; intros st; simpl.
  - by rewrite app_nil_r.
  - rewrite bind_run. destruct (send_back_run t p st) as (st' & -> & Hlog).
    rewrite bind_run. destruct (IH st') as [Hres Hlog'].
    destruct (for_each _ pairs st') as [[os|e] st'']; simpl in *; [|done].
    injection Hres as ->. split; [done|].
    rewrite Hlog', Hlog. by rewrite <- app_assoc.
Qed.

(** Where the gradients for the received values are computed, one per
    received value, every received value gets exactly one reply under
    its name followed by "_grad". *)
Lemma peer_reply_answers_all gr r opt t recv_grads loss grad_loss mode st send_grads :
  FederalModel.peer_send_grads gr r opt recv_grads loss grad_loss mode st
    = (Ok send_grads, st) →
  length send_grads = length recv_grads →
  let st' := (FederalModel.peer_reply gr r opt t recv_grads loss grad_loss mode st).2 in
  comm_log st'
    = comm_log st ++ map (λ p, CommSend (reply_of p).1 (reply_of p).2)
                         (zip recv_grads send_grads)
  ∧ (map (λ p, (reply_of p).1) (zip recv_grads send_grads))
    = map (λ rv, rv.1 +:+ "_grad") recv_grads.
Proof.
  intros Hsg Hlen st'. subst st'. unfold FederalModel.peer_reply.
  rewrite bind_run, Hsg. rewrite bind_run.
  destruct (reply_loop_sends t (zip recv_grads send_grads) st) as [Hres Hlog].
  destruct (for_each _ _ st) as [[os|e] st1]; simpl in *; [|done].
  split; [done|].
  clear -Hlen. revert send_grads Hlen.
  induction recv_grads as [|rv rvs IH]; intros [|g gs] Hlen; simpl in *; try done.
  f_equal. apply IH. lia.
Qed.

(** C3.  A received value that is left without a reply.  The model
    received "act1" and sent [hidden], both requiring gradients; [hidden]
    is computed from "act1", the local loss is not.  In the default
    'noise' mode the two per-source gradient lists are [[None]] and
    [[Some g]], and adding them with [tf.add] raises a ValueError outside
    the [try]: no "act1_grad" message is sent.  The local step combines
    the same lists with [_safe_slice_add] and keeps [g]; and with the
    local loss as the only source, the undefined gradient is answered
    with zeros. *)
Theorem noise_mode_drops_reply :
  let st := Fixtures.exchanged in
  let opt := Fixtures.tf_optimizer "sgd" Fixtures.partial_through in
  let minimize := FederalModel._minimize Fixtures.scope_by_prefix
                    (Fixtures.joint_gradients (λ _, None)) in
  let r := minimize (Some "t1") (Some Fixtures.loss_t) ([Fixtures.w], None) opt false st in
  (FederalModel.get_recv_grad_vars Fixtures.scope_by_prefix (Some "t1") None st).1
    = Ok [("act1", Fixtures.act1)]
  ∧ FederalModel.grads_per_source opt [Fixtures.act1] ∅
      [(Some (TReduceMean Fixtures.loss_t), None);
       (Some Fixtures.hidden, Some (TRecv "hidden_grad" float32))]
    = Ok [[None]; [Some (TNode "grad/hidden/act1" float32)]]
  ∧ r.1 = Raise (ValueError
        "Tried to convert 'x' to a tensor and failed. Error: None values not supported.")
  ∧ comm_log r.2 = comm_log st
  ∧ _train_ops r.2 = _train_ops st
  ∧ FederalModel.fold_grads (λ a b, Ok (FederalModel._safe_slice_add a b)) None
      [[None]; [Some (TNode "grad/hidden/act1" float32)]]
    = Ok (Some [Some (TNode "grad/hidden/act1" float32)])
  ∧ comm_log (minimize (Some "t1") (Some Fixtures.loss_t) ([Fixtures.w], None) opt false
                Fixtures.received).2
    = comm_log Fixtures.received ++ [CommSend "act1_grad" (TZerosLike Fixtures.act1)].
Proof. by vm_compute. Qed.

(** ** Combining the local gradients *)

Lemma map2_safe_slice_add (a b : list (option tensor)) :
  FederalModel.map2_result (λ x y, Ok (FederalModel._safe_slice_add x y)) a b
  = Ok (zip_with FederalModel._safe_slice_add a b).
Proof.
  revert b. induction a as [|x a IH]; intros [|y b]; simpl; try done.
  by rewrite IH.
Qed.

Lemma map_structure_safe_slice_add (a b : list (option tensor)) :
  FederalModel.map_structure (λ x y, Ok (FederalModel._safe_slice_add x y)) a b
  = if bool_decide (length a = length b)
    then Ok (zip_with FederalModel._safe_slice_add a b)
    else Raise (ValueError "The two structures don't have the same nested structure.").
Proof.
  unfold FederalModel.map_structure. case_bool_decide; [|done].
  apply map2_safe_slice_add.
Qed.

Lemma local_gradients_pair r opt vars y1 y2 g1 g2 st gv1 gv2 :
  let cfg := if takes_opt_config opt then Some (cfg_get r st) else None in
  compute_gradients opt (Some y1) vars g1 cfg = Ok gv1 →
  compute_gradients opt (Some y2) vars g2 cfg = Ok gv2 →
  length gv1 = length gv2 →
  FederalModel.local_gradients r opt vars [Some y1; Some y2] [g1; g2] st
  = (match apply_gradients opt
             (zip (zip_with FederalModel._safe_slice_add gv1.*1 gv2.*1) vars) with
     | Ok o => Ok (Some o)
     | Raise e => Raise e
     end, st).
Proof.
  intros cfg H1 H2 Hlen. unfold FederalModel.local_gradients.
  rewrite bind_gets. simpl. fold cfg.
  rewrite bind_run. unfold lift at 1. rewrite H1. simpl. rewrite H2. simpl.
  rewrite bind_run. unfold lift at 1.
  rewrite map_structure_safe_slice_add.
  rewrite bool_decide_true by (by rewrite !length_fmap).
  simpl. rewrite bind_run. unfold lift at 1. simpl.
  rewrite bind_run. unfold lift.
  by destruct (apply_gradients opt _).
Qed.

(** C4.  [_safe_slice_add] has [None] as identity on both sides and adds
    only two defined gradients.  The gradient lists of two loss sources
    are combined with it position by position: at every variable
    position where one source has no gradient the other source's
    gradient comes out unchanged, without an error; and it is this
    combination, paired with the variables, that the local step of
    [_minimize] hands to [apply_gradients]. *)
Theorem safe_slice_add_null_coalescing :
  (∀ b, FederalModel._safe_slice_add None b = b)
  ∧ (∀ a, FederalModel._safe_slice_add a None = a)
  ∧ (∀ x y, FederalModel._safe_slice_add (Some x) (Some y) = Some (TSliceAdd x y))
  ∧ (∀ l1 l2 : list (option tensor),
       FederalModel.fold_grads (λ a b, Ok (FederalModel._safe_slice_add a b)) None [l1; l2]
       = if bool_decide (length l1 = length l2)
         then Ok (Some (zip_with FederalModel._safe_slice_add l1 l2))
         else Raise (ValueError "The two structures don't have the same nested structure."))
  ∧ (∀ (l1 l2 : list (option tensor)) (i : nat) (g : tensor),
       (l1 !! i = Some (Some g) ∧ l2 !! i = Some None
        ∨ l1 !! i = Some None ∧ l2 !! i = Some (Some g)) →
       zip_with FederalModel._safe_slice_add l1 l2 !! i = Some (Some g))
  ∧ (∀ r opt vars y1 y2 g1 g2 st gv1 gv2,
       let cfg := if takes_opt_config opt then Some (cfg_get r st) else None in
       compute_gradients opt (Some y1) vars g1 cfg = Ok gv1 →
       compute_gradients opt (Some y2) vars g2 cfg = Ok gv2 →
       length gv1 = length gv2 →
       FederalModel.local_gradients r opt vars [Some y1; Some y2] [g1; g2] st
       = (match apply_gradients opt
                  (zip (zip_with FederalModel._safe_slice_add gv1.*1 gv2.*1) vars) with
          | Ok o => Ok (Some o)
          | Raise e => Raise e
          end, st)).
Proof.
  split_and!.
  - done.
  - by intros [a|].
  - done.
  - intros l1 l2. simpl. rewrite map_structure_safe_slice_add.
    by case_bool_decide.
  - intros l1 l2 i g H. rewrite lookup_zip_with.
    by destruct H as [[-> ->]|[-> ->]].
  - apply local_gradients_pair.
Qed.

Lemma safe_slice_add_null_coalescing_witness :
  zip_with FederalModel._safe_slice_add
    [Some (TNode "ga" float32); None] [None; Some (TNode "gb" float32)] !! 0%nat
  = Some (Some (TNode "ga" float32))
  ∧ FederalModel.local_gradients DefaultOptConfig
      (Fixtures.tf_optimizer "sgd" Fixtures.partial_through) [Fixtures.w]
      [Some (TReduceMean Fixtures.loss_t); Some Fixtures.hidden]
      [None; Some (TRecv "hidden_grad" float32)] Fixtures.exchanged
    = (Ok (Some (OpApplyGradients "sgd"
                   [(Some (TNode "grad/loss/w" float32), Fixtures.w)])),
       Fixtures.exchanged).
Proof.
  pose proof safe_slice_add_null_coalescing as (_ & _ & _ & _ & Hpos & Hlocal).
  split.
  - apply Hpos. left. split; reflexivity.
  - apply (Hlocal DefaultOptConfig (Fixtures.tf_optimizer "sgd" Fixtures.partial_through)
             [Fixtures.w] (TReduceMean Fixtures.loss_t) Fixtures.hidden None
             (Some (TRecv "hidden_grad" float32)) Fixtures.exchanged
             [(Some (TNode "grad/loss/w" float32), Fixtures.w)]
             [(None, Fixtures.w)]); reflexivity.
Defined.

(** ** The handler of the local gradient step *)

(** C1.  What the code does where the claim promises a warning and no
    sub-op: the handler of the ValueError builds its message with
    [e + '...'], which raises a TypeError before anything is logged.
    For the binding ([sgd], [w2]) of a task whose loss does not depend on
    [w2], [apply_gradients] raises "No gradients provided for any
    variable"; [_minimize] then raises the TypeError with an empty log,
    and compiling a task with this binding and a second, sound one
    aborts with no training op. *)
Theorem minimize_ValueError_escapes :
  (∀ e st, (FederalModel.on_ValueError e st).1
           = Raise (TypeError "unsupported operand type(s) for +: 'ValueError' and 'str'")
           ∧ warnings (FederalModel.on_ValueError e st).2 = warnings st)
  ∧ (let r := Fixtures.minimize (Some "t1") (Some Fixtures.loss_t)
                ([Fixtures.w2], None) Fixtures.sgd false Fixtures.fresh in
     apply_gradients Fixtures.sgd [(None, Fixtures.w2)]
       = Raise (ValueError "No gradients provided for any variable")
     ∧ r.1 = Raise (TypeError "unsupported operand type(s) for +: 'ValueError' and 'str'")
     ∧ warnings r.2 = [])
  ∧ (let r := Fixtures.compile Fixtures.minimize Fixtures.no_kwargs
                (Fixtures.registered "sample_for_both" "loss" "two_optimizers") in
     r.1 = Raise (TypeError "unsupported operand type(s) for +: 'ValueError' and 'str'")
     ∧ warnings r.2 = []
     ∧ _train_ops r.2 !! Some "t1" = None).
Proof.
  split_and!.
  - done.
  - by vm_compute.
  - by vm_compute.
Qed.

(** ** A binding without exchange *)

#[local] Arguments Model._reduce_loss : simpl never.
#[local] Arguments dict_pop : simpl never.
#[local] Arguments FederalModel.peer_gradients : simpl never.
#[local] Arguments FederalModel.local_gradients : simpl never.

Lemma keeps_comm_dict_pop r k d : keeps (same comm_log) (dict_pop r k d).
Proof.
  intros st. unfold dict_pop, same. destruct r; simpl; by destruct (_ !! k).
Qed.

Lemma keeps_comm_reduce_loss loss rf : keeps (same comm_log) (Model._reduce_loss loss rf).
Proof.
  intros st. unfold Model._reduce_loss, same. destruct loss as [l|]; [|done].
  destruct (cfg_is rf "mean"); [done|]. destruct (cfg_is rf "sum"); [done|].
  by destruct rf.
Qed.

Lemma keeps_comm_getitem t : keeps (same comm_log) (FederalModel.require_grad_ops_getitem t).
Proof.
  intros st. unfold FederalModel.require_grad_ops_getitem, same.
  by destruct (_ !! t).
Qed.

Lemma keeps_comm_loss_sources r opt loss sent pending :
  keeps (same comm_log) (FederalModel.loss_sources r opt loss sent pending).
Proof.
  unfold FederalModel.loss_sources. case_bool_decide; [apply keeps_ret; apply _|].
  apply keeps_bind; [apply _ | | intros ?; apply keeps_ret; apply _].
  destruct (takes_opt_config opt); [apply keeps_ret; apply _|].
  apply keeps_bind; [apply _ | apply keeps_comm_dict_pop |].
  intros rf. apply keeps_comm_reduce_loss.
Qed.

Lemma keeps_comm_local_gradients r opt vars loss grad_loss :
  keeps (same comm_log) (FederalModel.local_gradients r opt vars loss grad_loss).
Proof.
  unfold FederalModel.local_gradients.
  repeat (apply keeps_bind; [apply _ | first [apply keeps_gets | apply keeps_lift]; apply _
                            | intros ?]).
  apply keeps_ret; apply _.
Qed.

Lemma keeps_comm_on_ValueError e : keeps (same comm_log) (FederalModel.on_ValueError e).
Proof. by intros st. Qed.

Lemma peer_gradients_nobody gr r opt t loss grad_loss :
  FederalModel.peer_gradients gr r opt t [] loss grad_loss = mret tt.
Proof. reflexivity. Qed.

Lemma minimize_quiet (sm : option string → string * tensor → bool) gr t loss vars
    scope opt kw st :
  filter (λ r, sm scope r) (default [] (_recv_grad_ops st !! t)) = [] →
  comm_log (FederalModel._minimize sm gr t loss (vars, scope) opt kw st).2 = comm_log st.
Proof.
  intros Hrecv. unfold FederalModel._minimize, FederalModel.get_recv_grad_vars.
  rewrite !bind_run. simpl. rewrite Hrecv.
  match goal with |- comm_log (?c st).2 = _ => assert (keeps (same comm_log) c) as Hk end;
    [|apply Hk].
  apply keeps_bind; [apply _ | apply keeps_comm_getitem | intros l].
  apply keeps_bind; [apply _ | apply keeps_comm_loss_sources | intros src].
  rewrite peer_gradients_nobody.
  apply keeps_bind; [apply _ | apply keeps_ret; apply _ | intros _].
  apply keeps_try; [apply _ | apply keeps_comm_local_gradients
                   | apply keeps_comm_on_ValueError].
Qed.

Lemma set_require_grad_ops_id t st :
  _require_grad_ops st !! t = Some [] →
  set_require_grad_ops (<[t := []]> (_require_grad_ops st)) st = st.
Proof. intros H. rewrite insert_id by done. by destruct st. Qed.

Lemma require_grad_ops_getitem_empty t st :
  default [] (_require_grad_ops st !! t) = [] →
  FederalModel.require_grad_ops_getitem t st
  = (Ok [], set_require_grad_ops (<[t := []]> (_require_grad_ops st)) st).
Proof.
  unfold FederalModel.require_grad_ops_getitem.
  destruct (_require_grad_ops st !! t) as [l|] eqn:E; simpl; [|done].
  intros ->. by rewrite set_require_grad_ops_id.
Qed.

Lemma dict_pop_frame r k d v st :
  (dict_pop r k d (set_require_grad_ops v st)).2
  = set_require_grad_ops v (dict_pop r k d st).2.
Proof.
  unfold dict_pop. destruct r; simpl; by destruct (_ !! k).
Qed.

Lemma reduce_loss_frame loss rf v st :
  (Model._reduce_loss loss rf (set_require_grad_ops v st)).2
  = set_require_grad_ops v (Model._reduce_loss loss rf st).2.
Proof.
  unfold Model._reduce_loss. destruct loss as [l|]; [|done].
  destruct (cfg_is rf "mean"); [done|]. destruct (cfg_is rf "sum"); [done|].
  by destruct rf.
Qed.

Lemma after_reduce_frame r loss v st :
  after_reduce r loss (set_require_grad_ops v st)
  = set_require_grad_ops v (after_reduce r loss st).
Proof.
  unfold after_reduce. rewrite dict_pop_frame, reduce_loss_frame.
  by destruct r.
Qed.

Lemma Model_minimize_run t l vars opt kw st :
  takes_opt_config opt = false →
  let r := kwargs_pop_opt_config kw in
  let y := reduce_value (default (CfgStr "mean") (cfg_get r st !! "REDUCE")) l in
  Model._minimize t (Some l) vars opt kw st
  = match compute_gradients opt (Some y) vars.1 None None with
    | Ok gv => match apply_gradients opt gv with
               | Ok o => (Ok (Some o), after_reduce r (Some l) st)
               | Raise e => (Raise e, after_reduce r (Some l) st)
               end
    | Raise e => (Raise e, after_reduce r (Some l) st)
    end.
Proof.
  intros Hopt r y. unfold Model._minimize. rewrite Hopt.
  rewrite bind_run, pop_reduce_run. simpl.
  unfold mbind, M_bind, lift. subst y r.
  destruct (compute_gradients _ _ _ _ _) as [gv|e]; [|done].
  by destruct (apply_gradients opt gv).
Qed.

Lemma local_gradients_single r opt vars y st :
  takes_opt_config opt = false →
  FederalModel.local_gradients r opt vars [Some y] [None] st
  = match compute_gradients opt (Some y) vars None None with
    | Ok gv => match apply_gradients opt (zip gv.*1 vars) with
               | Ok o => (Ok (Some o), st)
               | Raise e => (Raise e, st)
               end
    | Raise e => (Raise e, st)
    end.
Proof.
  intros Hopt. unfold FederalModel.local_gradients.
  unfold mbind, M_bind, gets, lift. simpl. rewrite Hopt.
  destruct (compute_gradients _ _ _ _ _) as [gv|e]; [|done]. simpl.
  by destruct (apply_gradients opt _).
Qed.

Lemma Federal_minimize_run (sm : option string → string * tensor → bool) gr t l vars
    scope opt kw st :
  default [] (_require_grad_ops st !! t) = [] →
  filter (λ r, sm scope r) (default [] (_recv_grad_ops st !! t)) = [] →
  takes_opt_config opt = false →
  let r := kwargs_pop_opt_config kw in
  let y := reduce_value (default (CfgStr "mean") (cfg_get r st !! "REDUCE")) l in
  let st' := set_require_grad_ops (<[t := []]> (_require_grad_ops st))
               (after_reduce r (Some l) st) in
  FederalModel._minimize sm gr t (Some l) (vars, scope) opt kw st
  = try_except_ValueError
      (λ s, match compute_gradients opt (Some y) vars None None with
            | Ok gv => match apply_gradients opt (zip gv.*1 vars) with
                       | Ok o => (Ok (Some o), s)
                       | Raise e => (Raise e, s)
                       end
            | Raise e => (Raise e, s)
            end)
      FederalModel.on_ValueError st'.
Proof.
  intros Hsent Hrecv Hopt r y st'.
  unfold FederalModel._minimize, FederalModel.get_recv_grad_vars.
  rewrite !bind_run. simpl. rewrite Hrecv.
  rewrite bind_run, require_grad_ops_getitem_empty by done.
  rewrite bind_run. unfold FederalModel.loss_sources. simpl.
  rewrite Hopt.
  rewrite bind_run, pop_reduce_run. simpl.
  rewrite after_reduce_frame. fold r. fold st'.
  replace (cfg_get r (set_require_grad_ops (<[t:=[]]> (_require_grad_ops st)) st))
    with (cfg_get r st) by (by destruct r).
  fold y. rewrite bind_run.
  unfold FederalModel.peer_gradients at 1. simpl.
  unfold try_except_ValueError.
  by rewrite local_gradients_single by done.
Qed.

(** C5, as stated, fails when the task has a received value that
    requires a gradient: nothing was sent with [require_grad=True] and
    the loss is defined, yet [_minimize] sends "act1_grad" to the peer. *)
Lemma minimize_without_sends_still_replies :
  let st := Fixtures.received in
  default [] (_require_grad_ops st !! Some "t1") = []
  ∧ comm_log (Fixtures.minimize (Some "t1") (Some Fixtures.loss_t)
                ([Fixtures.w], None) Fixtures.sgd false st).2
    = comm_log st ++ [CommSend "act1_grad" (TNode "grad/loss/act1" float32)]
  ∧ ¬ minimizes_as_base Fixtures.scope_by_prefix (Fixtures.joint_gradients (λ _, None))
        (Some "t1") (Some Fixtures.loss_t) ([Fixtures.w], None) Fixtures.sgd false st.
Proof.
  split_and!; [by vm_compute | by vm_compute |].
  intros [_ H]. vm_compute in H. discriminate H.
Qed.

(** Why the comparison with [Model._minimize] stops at a ValueError: for
    a binding whose variable gets no gradient the base class raises the
    optimizer's ValueError, the federated class the TypeError of its
    handler. *)
Example minimize_differs_on_ValueError :
  (Model._minimize (Some "t1") (Some Fixtures.loss_t) ([Fixtures.w2], None)
     Fixtures.sgd false Fixtures.fresh).1
  = Raise (ValueError "No gradients provided for any variable")
  ∧ (Fixtures.minimize (Some "t1") (Some Fixtures.loss_t) ([Fixtures.w2], None)
       Fixtures.sgd false Fixtures.fresh).1
    = Raise (TypeError "unsupported operand type(s) for +: 'ValueError' and 'str'").
Proof. by vm_compute. Qed.

(** C5, amended.  For a binding of a task with nothing sent under
    [require_grad=True], a defined local loss and no received value that
    requires a gradient in the binding's scope, [FederalModel._minimize]
    makes no call on the communicator; and with an optimizer whose
    [compute_gradients] takes no [opt_config] and returns its gradients
    paired with the binding's variables in order, it comes out as
    [Model._minimize] does whenever that raises no ValueError: the same
    result, and the same state up to the empty list that reading
    [require_grad_ops[task]] stores. *)
Theorem minimize_without_exchange :
  ∀ (sm : option string → string * tensor → bool) gr (t : option string) (l : tensor)
    (vars : list tensor) (scope : option string) (opt : optimizer) (kw : bool)
    (st : state),
    default [] (_require_grad_ops st !! t) = [] →
    filter (λ r, sm scope r) (default [] (_recv_grad_ops st !! t)) = [] →
    let fed := FederalModel._minimize sm gr t (Some l) (vars, scope) opt kw st in
    let base := Model._minimize t (Some l) (vars, scope) opt kw st in
    comm_log fed.2 = comm_log st
    ∧ (takes_opt_config opt = false →
       (∀ y gv, compute_gradients opt y vars None None = Ok gv → gv.*2 = vars) →
       (∀ msg, base.1 ≠ Raise (ValueError msg)) →
       minimizes_as_base sm gr t (Some l) (vars, scope) opt kw st
       ∧ fed.2 = set_require_grad_ops (<[t := []]> (_require_grad_ops st)) base.2).
Proof.
  intros sm gr t l vars scope opt kw st Hsent Hrecv fed base.
  split; [by apply minimize_quiet|].
  intros Hopt Hpairs Hno. unfold minimizes_as_base.
  rewrite minimize_quiet by done. fold fed. fold base.
  cut (fed.1 = base.1
       ∧ fed.2 = set_require_grad_ops (<[t := []]> (_require_grad_ops st)) base.2);
    [by intros [? ?]|].
  subst fed base. revert Hno.
  rewrite Federal_minimize_run, Model_minimize_run by done. simpl.
  set (r := kwargs_pop_opt_config kw).
  set (y := reduce_value _ l).
  intros Hno. unfold try_except_ValueError.
  destruct (compute_gradients opt (Some y) vars None None) as [gv|e] eqn:Hcg.
  - assert (zip gv.*1 vars = gv) as ->
      by (rewrite <- (Hpairs _ _ Hcg); apply zip_fst_snd).
    destruct (apply_gradients opt gv) as [o|e] eqn:Hag; [done|].
    destruct e; try done. by destruct (Hno msg).
  - destruct e; try done. by destruct (Hno msg).
Qed.

Lemma minimize_without_exchange_witness :
  let st := Fixtures.fresh in
  let fed := Fixtures.minimize (Some "t1") (Some Fixtures.loss_t)
               ([Fixtures.w], None) Fixtures.sgd false st in
  let base := Model._minimize (Some "t1") (Some Fixtures.loss_t)
                ([Fixtures.w], None) Fixtures.sgd false st in
  base.1 = Ok (Some (OpApplyGradients "sgd"
                       [(Some (TNode "grad/loss/w" float32), Fixtures.w)]))
  ∧ comm_log fed.2 = comm_log st
  ∧ minimizes_as_base Fixtures.scope_by_prefix (Fixtures.joint_gradients (λ _, None))
      (Some "t1") (Some Fixtures.loss_t) ([Fixtures.w], None) Fixtures.sgd false st
  ∧ fed.2 = set_require_grad_ops (<[Some "t1" := []]> (_require_grad_ops st)) base.2.
Proof.
  split; [by vm_compute|].
  pose proof (minimize_without_exchange Fixtures.scope_by_prefix
                (Fixtures.joint_gradients (λ _, None)) (Some "t1") Fixtures.loss_t
                [Fixtures.w] None Fixtures.sgd false Fixtures.fresh) as H.
  destruct H as [Hq Heq]; [reflexivity | reflexivity |].
  split; [exact Hq|].
  apply Heq.
  - reflexivity.
  - intros [y|] gv Hcg; [|discriminate Hcg].
    injection Hcg as <-. reflexivity.
  - intros msg. vm_compute. discriminate.
Defined.

(** ** The shared optimizer configuration *)

#[global] Instance cfg_shrinks_preorder r : PreOrder (cfg_shrinks r).
Proof.
  split; [by intros s k | intros s1 s2 s3 H12 H23 k Hk; by apply H23, H12].
Qed.

Lemma same_cfgs_get r s s' : same cfgs s s' → cfg_get r s' = cfg_get r s.
Proof. unfold same, cfgs. intros [= Hu Hd]. by destruct r. Qed.

Lemma same_cfgs_shrinks r s s' : same cfgs s s' → cfg_shrinks r s s'.
Proof. intros H k. by rewrite (same_cfgs_get r s s' H). Qed.

Lemma same_cfgs_key r k s s' : same cfgs s s' → same (cfg_key r k) s s'.
Proof. intros H. unfold same, cfg_key. by rewrite (same_cfgs_get r s s' H). Qed.

Lemma keeps_cfgs_resolve_task t : keeps (same cfgs) (Model.resolve_task t).
Proof. by intros st. Qed.

Lemma keeps_cfgs_send name x rg mode t : keeps (same cfgs) (FederalModel.send name x rg mode t).
Proof.
  unfold FederalModel.send, FederalModel.recv, FederalModel.communicator_send,
    FederalModel.communicator_recv, Model.add_train_op, Model.add_eval_op.
  apply keeps_bind; [apply _ | apply keeps_cfgs_resolve_task | intros ?].
  keeps_tac.
  - destruct mode; keeps_tac.
  - destruct rg; keeps_tac.
Qed.

Lemma keeps_cfgs_getitem t : keeps (same cfgs) (FederalModel.require_grad_ops_getitem t).
Proof.
  intros st. unfold FederalModel.require_grad_ops_getitem, same.
  by destruct (_ !! t).
Qed.

Lemma keeps_cfgs_reduce_loss loss rf : keeps (same cfgs) (Model._reduce_loss loss rf).
Proof.
  unfold Model._reduce_loss, tf_logging_warn. destruct loss as [l|]; [|keeps_tac].
  destruct (cfg_is rf "mean"); [keeps_tac|]. destruct (cfg_is rf "sum"); [keeps_tac|].
  destruct rf; keeps_tac.
Qed.

Lemma keeps_cfgs_local_gradients r opt vars loss grad_loss :
  keeps (same cfgs) (FederalModel.local_gradients r opt vars loss grad_loss).
Proof. unfold FederalModel.local_gradients. keeps_tac. Qed.

Lemma keeps_cfgs_on_ValueError e : keeps (same cfgs) (FederalModel.on_ValueError e).
Proof. by intros st. Qed.

Lemma keeps_cfgs_add_hooks hs mode t : keeps (same cfgs) (Model.add_hooks hs mode t).
Proof.
  unfold Model.add_hooks, Model._get_task_scope. keeps_tac.
  destruct (if mode is Some _ then mode else _); keeps_tac.
Qed.

Lemma keeps_shrinks_dict_pop r r' k d : keeps (cfg_shrinks r) (dict_pop r' k d).
Proof.
  intros st k' Hk'. unfold dict_pop.
  destruct (cfg_get r' st !! k) as [v|] eqn:E; [|done]. simpl.
  destruct r, r'; simpl in *; try done; rewrite lookup_delete; by case_decide.
Qed.

Lemma keeps_key_dict_pop r r' k k' d :
  k ≠ k' → keeps (same (cfg_key r k)) (dict_pop r' k' d).
Proof.
  intros Hne st. unfold dict_pop, same, cfg_key.
  destruct (cfg_get r' st !! k') as [v|] eqn:E; [|done]. simpl.
  destruct r, r'; simpl in *; try done; by rewrite lookup_delete_ne.
Qed.


Lemma keeps_cfgs_send_back t p : keeps (same cfgs) (FederalModel.send_back t p).
Proof. unfold FederalModel.send_back. destruct p.2; apply keeps_cfgs_send. Qed.

Lemma keeps_cfgs_peer_reply gr r opt t recv_grads loss grad_loss mode :
  keeps (same cfgs) (FederalModel.peer_reply gr r opt t recv_grads loss grad_loss mode).
Proof.
  unfold FederalModel.peer_reply, FederalModel.peer_send_grads.
  keeps_tac; [|apply keeps_cfgs_send_back].
  destruct (cfg_is mode "noise"); keeps_tac.
Qed.

Lemma dict_pop_gone r k d st : cfg_get r (dict_pop r k d st).2 !! k = None.
Proof.
  unfold dict_pop. destruct (cfg_get r st !! k) as [v|] eqn:E; [|done].
  destruct r; simpl; apply lookup_delete_eq.
Qed.

Lemma keeps_shrinks_loss_sources r r' opt loss sent pending :
  keeps (cfg_shrinks r) (FederalModel.loss_sources r' opt loss sent pending).
Proof.
  unfold FederalModel.loss_sources. case_bool_decide; [keeps_tac|].
  keeps_tac. destruct (takes_opt_config opt); keeps_tac.
  - apply keeps_shrinks_dict_pop.
  - eapply keeps_weaken; [apply same_cfgs_shrinks | apply keeps_cfgs_reduce_loss].
Qed.

Lemma keeps_key_loss_sources r r' opt loss sent pending :
  keeps (same (cfg_key r "BACKEND_MODE"))
        (FederalModel.loss_sources r' opt loss sent pending).
Proof.
  unfold FederalModel.loss_sources. case_bool_decide; [keeps_tac|].
  keeps_tac. destruct (takes_opt_config opt); keeps_tac.
  - by apply keeps_key_dict_pop.
  - eapply keeps_weaken; [apply same_cfgs_key | apply keeps_cfgs_reduce_loss].
Qed.

Lemma keeps_cfgs_try_local r opt vars loss grad_loss :
  keeps (same cfgs)
    (try_except_ValueError (FederalModel.local_gradients r opt vars loss grad_loss)
       FederalModel.on_ValueError).
Proof.
  apply keeps_try; [apply _ | apply keeps_cfgs_local_gradients
                   | apply keeps_cfgs_on_ValueError].
Qed.

Lemma keeps_shrinks_peer_gradients gr r r' opt t recv_grads loss grad_loss :
  keeps (cfg_shrinks r) (FederalModel.peer_gradients gr r' opt t recv_grads loss grad_loss).
Proof.
  unfold FederalModel.peer_gradients. case_bool_decide; keeps_tac.
  - apply keeps_shrinks_dict_pop.
  - eapply keeps_weaken; [apply same_cfgs_shrinks | apply keeps_cfgs_peer_reply].
Qed.

Lemma keeps_shrinks_minimize (sm : option string → string * tensor → bool) gr r t loss
    vars opt kw :
  keeps (cfg_shrinks r) (FederalModel._minimize sm gr t loss vars opt kw).
Proof.
  unfold FederalModel._minimize, FederalModel.get_recv_grad_vars. keeps_tac.
  - eapply keeps_weaken; [apply same_cfgs_shrinks | apply keeps_cfgs_getitem].
  - apply keeps_shrinks_loss_sources.
  - apply keeps_shrinks_peer_gradients.
  - eapply keeps_weaken; [apply same_cfgs_shrinks | apply keeps_cfgs_try_local].
Qed.

Lemma loss_sources_run r opt loss sent pending st :
  ∃ src, FederalModel.loss_sources r opt loss sent pending st
         = (Ok src, (FederalModel.loss_sources r opt loss sent pending st).2).
Proof.
  unfold FederalModel.loss_sources. case_bool_decide; [by eexists|].
  destruct (takes_opt_config opt); [by eexists|].
  rewrite bind_run, pop_reduce_run. by eexists.
Qed.

Lemma getitem_run t st :
  ∃ l, FederalModel.require_grad_ops_getitem t st
       = (Ok l, (FederalModel.require_grad_ops_getitem t st).2).
Proof.
  unfold FederalModel.require_grad_ops_getitem. destruct (_ !! t); eauto.
Qed.

(** A call with received values to answer leaves no 'BACKEND_MODE'. *)
Lemma minimize_consumes (sm : option string → string * tensor → bool) gr t loss vars
    scope opt kw st :
  filter (λ r, sm scope r) (default [] (_recv_grad_ops st !! t)) ≠ [] →
  cfg_get (kwargs_pop_opt_config kw)
    (FederalModel._minimize sm gr t loss (vars, scope) opt kw st).2 !! "BACKEND_MODE"
  = None.
Proof.
  intros Hne. set (r := kwargs_pop_opt_config kw).
  unfold FederalModel._minimize, FederalModel.get_recv_grad_vars.
  rewrite !bind_run. simpl.
  set (recv_grads := filter _ _) in *.
  destruct (getitem_run t st) as [l Hl]. rewrite bind_run, Hl.
  set (st1 := (FederalModel.require_grad_ops_getitem t st).2).
  destruct (loss_sources_run r opt loss l.*1 l.*2 st1) as [src Hs].
  rewrite bind_run. fold r. rewrite Hs.
  set (st2 := (FederalModel.loss_sources r opt loss l.*1 l.*2 st1).2).
  rewrite bind_run. unfold FederalModel.peer_gradients.
  rewrite bool_decide_true by (destruct recv_grads; [done | simpl; lia]).
  rewrite bind_run, dict_pop_run.
  match goal with
  | |- cfg_get r (match ?c ?s with _ => _ end).2 !! _ = None =>
      assert (keeps (cfg_shrinks r) (c ≫= λ _, try_except_ValueError
                (FederalModel.local_gradients r opt vars src.1 src.2)
                FederalModel.on_ValueError)) as Hk
  end.
  { keeps_tac; eapply keeps_weaken;
      [apply same_cfgs_shrinks | apply keeps_cfgs_peer_reply
      |apply same_cfgs_shrinks | apply keeps_cfgs_try_local]. }
  specialize (Hk (dict_pop r "BACKEND_MODE" (CfgStr "noise") st2).2 "BACKEND_MODE").
  rewrite bind_run in Hk. apply Hk, dict_pop_gone.
Qed.

(** A call without received values to answer leaves 'BACKEND_MODE' alone. *)
Lemma minimize_skips (sm : option string → string * tensor → bool) gr t loss vars
    scope opt kw st :
  filter (λ r, sm scope r) (default [] (_recv_grad_ops st !! t)) = [] →
  cfg_get (kwargs_pop_opt_config kw)
    (FederalModel._minimize sm gr t loss (vars, scope) opt kw st).2 !! "BACKEND_MODE"
  = cfg_get (kwargs_pop_opt_config kw) st !! "BACKEND_MODE".
Proof.
  intros Hrecv. set (r := kwargs_pop_opt_config kw).
  unfold FederalModel._minimize, FederalModel.get_recv_grad_vars.
  rewrite !bind_run. simpl. rewrite Hrecv. fold r.
  match goal with
  | |- cfg_get r (?c st).2 !! _ = _ =>
      assert (keeps (same (cfg_key r "BACKEND_MODE")) c) as Hk; [|apply Hk]
  end.
  keeps_tac.
  - eapply keeps_weaken; [apply same_cfgs_key | apply keeps_cfgs_getitem].
  - apply keeps_key_loss_sources.
  - rewrite peer_gradients_nobody. keeps_tac.
  - eapply keeps_weaken; [apply same_cfgs_key | apply keeps_cfgs_try_local].
Qed.

Section BindingLoop.
Context (sm : option string → string * tensor → bool).
Context (gr : list (option tensor) → list tensor → list (option tensor) →
              result (list (option tensor))).
Context (SRO : optimizer → string → optimizer) (hook : optimizer → string).
Context (kw : Model.compile_kwargs) (t : option string) (loss : option tensor).

Let r := kwargs_pop_opt_config (Model.opt_config_given kw).
Let step := Model.optimize_binding SRO hook (FederalModel._minimize sm gr) kw t loss.

Lemma keeps_shrinks_step b : keeps (cfg_shrinks r) (step b).
Proof.
  unfold step, Model.optimize_binding. keeps_tac.
  - destruct (Model.sync_optimizer_config kw); keeps_tac.
    eapply keeps_weaken; [apply same_cfgs_shrinks | apply keeps_cfgs_add_hooks].
  - apply keeps_shrinks_minimize.
Qed.

Lemma add_hooks_run hs tk st :
  Model.add_hooks hs (Some TRAIN) tk st
  = (Ok tt, set_hooks (hooks st ++ map (λ h, (TRAIN, if truthy tk then tk else scope_task st, h)) hs) st).
Proof. reflexivity. Qed.

Lemma step_consumes (b : binding) st :
  filter (λ x, sm b.2.2 x) (default [] (_recv_grad_ops st !! t)) ≠ [] →
  cfg_get r (step b st).2 !! "BACKEND_MODE" = None.
Proof.
  intros Hne. unfold step, Model.optimize_binding.
  destruct b as [opt [vars scope]]. simpl in *.
  destruct (Model.sync_optimizer_config kw) as [cfg|].
  - rewrite !bind_run, add_hooks_run. simpl. by apply minimize_consumes.
  - rewrite bind_run. simpl. by apply minimize_consumes.
Qed.

Lemma step_skips (b : binding) st :
  filter (λ x, sm b.2.2 x) (default [] (_recv_grad_ops st !! t)) = [] →
  cfg_get r (step b st).2 !! "BACKEND_MODE" = cfg_get r st !! "BACKEND_MODE".
Proof.
  intros He. unfold step, Model.optimize_binding.
  destruct b as [opt [vars scope]]. simpl in *.
  destruct (Model.sync_optimizer_config kw) as [cfg|].
  - rewrite !bind_run, add_hooks_run. simpl.
    etrans; [by apply minimize_skips|]. unfold r.
    by destruct (Model.opt_config_given kw).
  - rewrite bind_run. simpl. by apply minimize_skips.
Qed.

Lemma loop_consumed (b : binding) (later : list binding) st :
  filter (λ x, sm b.2.2 x) (default [] (_recv_grad_ops st !! t)) ≠ [] →
  cfg_get r (for_each step (b :: later) st).2 !! "BACKEND_MODE" = None.
Proof.
  intros Hne. simpl. rewrite bind_run.
  pose proof (step_consumes b st Hne) as Hgone.
  destruct (step b st) as [[o|e] st1]; simpl in *; [|done].
  assert (keeps (cfg_shrinks r) (for_each step later ≫= λ bs, mret (o :: bs))) as Hk.
  { keeps_tac. apply keeps_shrinks_step. }
  by apply Hk.
Qed.
End BindingLoop.

Lemma getitem_value t st :
  (FederalModel.require_grad_ops_getitem t st).1
  = Ok (default [] (_require_grad_ops st !! t)).
Proof. unfold FederalModel.require_grad_ops_getitem. by destruct (_ !! t). Qed.

Lemma loss_sources_consumes r opt loss sent pending st :
  takes_opt_config opt = false → loss ∉ Some <$> sent →
  cfg_get r (FederalModel.loss_sources r opt loss sent pending st).2 !! "REDUCE" = None.
Proof.
  intros Hopt Hloss. unfold FederalModel.loss_sources.
  rewrite bool_decide_false, Hopt by done.
  rewrite bind_run, pop_reduce_run. simpl. unfold after_reduce.
  pose proof (keeps_cfgs_reduce_loss loss
                (default (CfgStr "mean") (cfg_get r st !! "REDUCE"))
                (dict_pop r "REDUCE" (CfgStr "mean") st).2) as Hk.
  rewrite (same_cfgs_get r _ _ Hk). apply dict_pop_gone.
Qed.

(** A call that reduces the loss leaves no 'REDUCE'. *)
Lemma minimize_consumes_reduce (sm : option string → string * tensor → bool) gr t loss
    vars opt kw st :
  takes_opt_config opt = false →
  loss ∉ Some <$> (default [] (_require_grad_ops st !! t)).*1 →
  cfg_get (kwargs_pop_opt_config kw)
    (FederalModel._minimize sm gr t loss vars opt kw st).2 !! "REDUCE" = None.
Proof.
  intros Hopt Hloss. set (r := kwargs_pop_opt_config kw).
  unfold FederalModel._minimize, FederalModel.get_recv_grad_vars.
  rewrite !bind_run. simpl.
  destruct (getitem_run t st) as [l Hl]. rewrite bind_run, Hl.
  pose proof (getitem_value t st) as Hv. rewrite Hl in Hv.
  injection Hv as ->.
  set (st1 := (FederalModel.require_grad_ops_getitem t st).2).
  set (sent := (default [] (_require_grad_ops st !! t)).*1) in *.
  set (pending := (default [] (_require_grad_ops st !! t)).*2).
  pose proof (loss_sources_consumes r opt loss sent pending st1 Hopt Hloss) as Hgone.
  destruct (loss_sources_run r opt loss sent pending st1) as [src Hs].
  rewrite bind_run. fold r. rewrite Hs.
  match goal with
  | |- cfg_get r (?c ?s).2 !! _ = None =>
      assert (keeps (cfg_shrinks r) c) as Hk; [|by apply Hk]
  end.
  keeps_tac.
  - apply keeps_shrinks_peer_gradients.
  - eapply keeps_weaken; [apply same_cfgs_shrinks | apply keeps_cfgs_try_local].
Qed.

(** C6, as stated, fails when the first binding has no received value to
    answer.  The compile is given [{'BACKEND_MODE': 'direct'}]; task "t0"
    received nothing, task "t1" received "act1".  The binding of "t0"
    never pops 'BACKEND_MODE', and the binding of "t1", minimized after
    it, still reads 'direct' and answers "act1" with the joint gradient
    of [gradients_impl.gradients]. *)
Lemma later_binding_reads_configured_mode :
  let st := Fixtures.received_direct in
  let st1 := (Fixtures.binding_step (Some "t0") Fixtures.w_binding st).2 in
  ¬ later_binding_reads_default (Fixtures.binding_step (Some "t0")) UserOptConfig
      Fixtures.w_binding st
  ∧ (dict_pop UserOptConfig "BACKEND_MODE" (CfgStr "noise") st1).1 = Ok (CfgStr "direct")
  ∧ comm_log st1 = comm_log st
  ∧ comm_log (Fixtures.binding_step (Some "t1") Fixtures.w_binding st1).2
    = comm_log st ++ [CommSend "act1_grad" (TNode "grad/joint/act1" float32)].
Proof.
  split_and!; [|by vm_compute..].
  unfold later_binding_reads_default. vm_compute. discriminate.
Qed.

(** C6, amended.  [_minimize] pops 'BACKEND_MODE' from the configuration
    dict it is given exactly when the binding has received values to
    answer, and pops 'REDUCE' when the optimizer's [compute_gradients]
    takes no [opt_config] and the loss is not one of the sent values.
    The dict is the same object for every binding of the loop: a binding
    without received values leaves 'BACKEND_MODE' for the next one; once
    a binding has popped it, it is absent after any further bindings, a
    key that is absent stays absent, and popping an absent key yields the
    default. *)
Theorem opt_config_consumed_once :
  ∀ (sm : option string → string * tensor → bool) gr SRO hook
    (kw : Model.compile_kwargs) (t : option string) (loss : option tensor)
    (b : binding) (later : list binding) (st : state),
    let r := kwargs_pop_opt_config (Model.opt_config_given kw) in
    let step := Model.optimize_binding SRO hook (FederalModel._minimize sm gr) kw t loss in
    let answers := filter (λ x, sm b.2.2 x) (default [] (_recv_grad_ops st !! t)) in
    (answers = [] →
       cfg_get r (step b st).2 !! "BACKEND_MODE" = cfg_get r st !! "BACKEND_MODE")
    ∧ (answers ≠ [] →
       cfg_get r (for_each step (b :: later) st).2 !! "BACKEND_MODE" = None)
    ∧ (∀ k, cfg_get r st !! k = None →
         cfg_get r (for_each step (b :: later) st).2 !! k = None
         ∧ ∀ d, dict_pop r k d st = (Ok d, st))
    ∧ (∀ opt vars,
         takes_opt_config opt = false →
         loss ∉ Some <$> (default [] (_require_grad_ops st !! t)).*1 →
         cfg_get r (FederalModel._minimize sm gr t loss vars opt
                      (Model.opt_config_given kw) st).2 !! "REDUCE" = None).
Proof.
  intros sm gr SRO hook kw t loss b later st r step answers. split_and!.
  - apply step_skips.
  - apply loop_consumed.
  - intros k Hk. split.
    + assert (keeps (cfg_shrinks r) (for_each step (b :: later))) as Hl.
      { apply keeps_for_each; [apply _|]. intros b'. apply keeps_shrinks_step. }
      by apply Hl.
    + intros d. unfold dict_pop. by rewrite Hk.
  - intros opt vars. apply minimize_consumes_reduce.
Qed.

Lemma opt_config_consumed_once_witness :
  let st := Fixtures.received_direct in
  cfg_get UserOptConfig st !! "BACKEND_MODE" = Some (CfgStr "direct")
  ∧ cfg_get UserOptConfig
      (for_each (Fixtures.binding_step (Some "t1"))
         [Fixtures.w_binding; Fixtures.w_binding] st).2 !! "BACKEND_MODE"
    = None.
Proof.
  split; [by vm_compute|].
  pose proof (opt_config_consumed_once Fixtures.scope_by_prefix
           (Fixtures.joint_gradients (λ _, Some (TNode "grad/joint/act1" float32)))
           Fixtures.sync_replicas Fixtures.sync_hook Fixtures.with_opt_config
           (Some "t1") (Some Fixtures.loss_t) Fixtures.w_binding
           [Fixtures.w_binding] Fixtures.received_direct) as (_ & Hgone & _).
  apply Hgone. intros H. vm_compute in H. discriminate H.
Defined.

(** ** Input functions *)

Lemma invoke_run (cb : string → MODE → M pyobj) t fn mode st o :
  (∀ s, (cb fn mode s).1 = Ok o) →
  keeps (same calls_and_inputs) (cb fn mode) →
  ∃ st', Model.with_task_scope t mode
           (Model.log_call (CallInputFn fn mode);; cb fn mode) st = (Ok o, st')
         ∧ calls st' = calls st ++ [CallInputFn fn mode (Some mode) t]
         ∧ _inputs st' = _inputs st.
Proof.
  intros Hret Hkeep. unfold Model.with_task_scope, Model.log_call.
  rewrite bind_run. simpl.
  set (s_in := set_calls _ _).
  specialize (Hret s_in). specialize (Hkeep s_in).
  destruct (cb fn mode s_in) as [res s_out]. simpl in *. subst res.
  eexists. split; [reflexivity|].
  unfold same, calls_and_inputs in Hkeep. injection Hkeep as Hc Hi.
  simpl. by rewrite Hc, Hi.
Qed.

(** C10, as stated, fails for the EVAL invocation: an input function that
    returns a sample for TRAIN and [None] for EVAL returns the wrong type
    for EVAL, and the step, like the whole compile, succeeds. *)
Lemma eval_input_may_be_None :
  (∀ s, (Fixtures.input_fns "sample_for_train_only" EVAL s).1 = Ok PyNone)
  ∧ is_sample PyNone = None
  ∧ (Model.compile_input Fixtures.input_fns (Some "t1") "sample_for_train_only"
       Fixtures.fresh).1 = Ok tt
  ∧ (Fixtures.compile Fixtures.minimize Fixtures.no_kwargs
       (Fixtures.registered "sample_for_train_only" "loss" "one_optimizer")).1 = Ok tt
  ∧ ¬ wrong_type_is_fatal Fixtures.input_fns (Some "t1") "sample_for_train_only"
        Fixtures.fresh.
Proof.
  split_and!; try by vm_compute.
  intros H. destruct (H EVAL PyNone) as [msg Hmsg]; [done | done |].
  vm_compute in Hmsg. discriminate Hmsg.
Qed.

(** C10, amended.  For an input function that returns [o_train] under
    TRAIN scope and [o_eval] under EVAL scope (and leaves the call log
    and the registered inputs alone), the step of a task invokes it once
    under TRAIN scope; a TRAIN value that is no sample raises a
    ValueError at once, without the EVAL invocation.  Otherwise the TRAIN
    sample is registered, the function is invoked once under EVAL scope,
    and an EVAL value that is true but no sample raises a ValueError; an
    EVAL sample is registered; an EVAL value that is false, such as
    [None], is accepted and nothing is registered for EVAL. *)
Theorem input_sample_check :
  ∀ (cb : string → MODE → M pyobj) (t : option string) (fn : string) (st : state)
    (o_train o_eval : pyobj),
    (∀ s, (cb fn TRAIN s).1 = Ok o_train) →
    (∀ s, (cb fn EVAL s).1 = Ok o_eval) →
    (∀ mode, keeps (same calls_and_inputs) (cb fn mode)) →
    let r := Model.compile_input cb t fn st in
    let train_ok := bool_decide (is_Some (is_sample o_train)) in
    let eval_ok := bool_decide (is_Some (is_sample o_eval)) in
    r.1 = (if negb train_ok
           then Raise (ValueError
                  "input_fn must return a efl.Sample or efl.FederalSample for TRAIN")
           else if py_bool o_eval && negb eval_ok
           then Raise (ValueError
                  "input_fn must return a efl.Sample or efl.FederalSample for EVAL")
           else Ok tt)
    ∧ calls r.2 = calls st ++ CallInputFn fn TRAIN (Some TRAIN) t
                    :: (if train_ok then [CallInputFn fn EVAL (Some EVAL) t] else [])
    ∧ _inputs r.2 = (if train_ok
                     then (if py_bool o_eval && eval_ok
                           then <[(EVAL, t) := o_eval]> else id)
                            (<[(TRAIN, t) := o_train]> (_inputs st))
                     else _inputs st).
Proof.
  intros cb t fn st o_train o_eval Htr Hev Hkeep r train_ok eval_ok.
  subst r. unfold Model.compile_input.
  destruct (invoke_run cb t fn TRAIN st o_train (Htr) (Hkeep TRAIN))
    as (s1 & Hrun1 & Hc1 & Hi1).
  rewrite bind_run, Hrun1.
  subst train_ok eval_ok.
  destruct (is_sample o_train) as [smp|] eqn:Est; simpl.
  2:{ rewrite Hc1, Hi1. done. }
  rewrite bind_mret, bind_modify.
  set (s2 := set_inputs (<[(TRAIN, t) := o_train]> (_inputs s1)) s1).
  destruct (invoke_run cb t fn EVAL s2 o_eval (Hev) (Hkeep EVAL))
    as (s3 & Hrun3 & Hc3 & Hi3).
  rewrite bind_run, Hrun3.
  destruct (py_bool o_eval) eqn:Epb; simpl.
  - destruct (is_sample o_eval) as [smp'|] eqn:Ese; simpl.
    + rewrite Hc3, Hi3. simpl. rewrite Hc1, Hi1. by rewrite <- app_assoc.
    + rewrite Hc3, Hi3. simpl. rewrite Hc1, Hi1. by rewrite <- app_assoc.
  - rewrite Hc3, Hi3. simpl. rewrite Hc1, Hi1. by rewrite <- app_assoc.
Qed.

Lemma input_sample_check_witness :
  let r := Model.compile_input Fixtures.input_fns (Some "t1") "sample_for_train_only"
             Fixtures.fresh in
  r.1 = Ok tt
  ∧ calls r.2 = [CallInputFn "sample_for_train_only" TRAIN (Some TRAIN) (Some "t1");
                 CallInputFn "sample_for_train_only" EVAL (Some EVAL) (Some "t1")]
  ∧ _inputs r.2 = <[(TRAIN, Some "t1") := PySample Fixtures.sample_t1]> ∅.
Proof.
  apply (input_sample_check Fixtures.input_fns (Some "t1") "sample_for_train_only"
           Fixtures.fresh (PySample Fixtures.sample_t1) PyNone).
  - intros s. reflexivity.
  - intros s. reflexivity.
  - intros mode s. by destruct mode.
Defined.

(** ** The training op of a task *)

#[global] Instance same_gs_preorder : PreOrder same_gs.
Proof.
  split; [by intros s t | intros s1 s2 s3 H12 H23 t; by rewrite H23, H12].
Qed.

Lemma same_train_ops_gs s s' : _train_ops s' = _train_ops s → same_gs s s'.
Proof. intros H t. unfold gs_ops. by rewrite H. Qed.

Ltac keeps_gs_tac :=
  repeat lazymatch goal with
  | |- keeps _ (mret _) => apply keeps_ret; try apply _
  | |- keeps _ (raise _) => apply keeps_raise; try apply _
  | |- keeps _ (lift _) => apply keeps_lift; try apply _
  | |- keeps _ (gets _) => apply keeps_gets; try apply _
  | |- keeps _ (Model.resolve_task _) => apply keeps_gets; try apply _
  | |- keeps _ (_ ≫= _) => apply keeps_bind; try apply _; [|intros ?]
  | |- keeps _ (modify _) => apply keeps_modify; by intros ?; apply same_train_ops_gs
  | |- keeps _ (for_each _ _) => apply keeps_for_each; try apply _; intros ?
  end.

Lemma gs_ops_add_train_op o t t' s :
  gs_ops t' (Model.add_train_op o t s).2
  = if decide (t = t')
    then gs_ops t' s ++ (if is_global_step_op o then [o] else [])
    else gs_ops t' s.
Proof.
  unfold gs_ops, Model.add_train_op. simpl. case_decide as E.
  - subst. rewrite lookup_insert_eq. simpl. rewrite list.filter_app. f_equal.
    rewrite list.filter_cons, list.filter_nil. by destruct (is_global_step_op o).
  - by rewrite lookup_insert_ne.
Qed.

Lemma keeps_gs_add_train_op o t :
  is_global_step_op o = false → keeps same_gs (Model.add_train_op o t).
Proof.
  intros Ho st t'. rewrite gs_ops_add_train_op, Ho. case_decide; [|done].
  by rewrite app_nil_r.
Qed.

Lemma send_unfold name x rg mode t :
  FederalModel.send name x rg mode t
  = (tk ← Model.resolve_task t;
     modify (λ s, set_comm_log (comm_log s ++ [CommSend name x]) s);;
     (match mode with
      | TRAIN => Model.add_train_op (OpSend name x) tk
      | EVAL => Model.add_eval_op (OpSend name x) tk
      end);;
     (if rg
      then recv_grad ← FederalModel.recv (name +:+ "_grad") (tensor_dtype x) false None;
           modify (λ s, set_require_grad_ops
                     (<[tk := default [] (_require_grad_ops s !! tk) ++ [(x, recv_grad)]]>
                        (_require_grad_ops s)) s)
      else mret tt);;
     mret (OpSend name x)).
Proof. reflexivity. Qed.

Lemma keeps_gs_send name x rg mode t : keeps same_gs (FederalModel.send name x rg mode t).
Proof.
  rewrite send_unfold.
  unfold FederalModel.recv, FederalModel.communicator_recv, Model.add_eval_op.
  keeps_gs_tac.
  - destruct mode; [by apply keeps_gs_add_train_op | keeps_gs_tac].
  - destruct rg; keeps_gs_tac.
Qed.

Lemma keeps_gs_reduce_loss loss rf : keeps same_gs (Model._reduce_loss loss rf).
Proof.
  unfold Model._reduce_loss, tf_logging_warn. destruct loss as [l|]; [|keeps_gs_tac].
  destruct (cfg_is rf "mean"); [keeps_gs_tac|].
  destruct (cfg_is rf "sum"); [keeps_gs_tac|].
  destruct rf; keeps_gs_tac.
Qed.

Lemma keeps_gs_dict_pop r k d : keeps same_gs (dict_pop r k d).
Proof.
  intros st. apply same_train_ops_gs. unfold dict_pop.
  destruct (cfg_get r st !! k); [|done]. by destruct r.
Qed.

Lemma keeps_gs_model_minimize t loss vars opt kw :
  keeps same_gs (Model._minimize t loss vars opt kw).
Proof.
  unfold Model._minimize. keeps_gs_tac.
  destruct (takes_opt_config opt); keeps_gs_tac;
    [apply keeps_gs_dict_pop | apply keeps_gs_reduce_loss].
Qed.

Lemma keeps_gs_federal_minimize (sm : option string → string * tensor → bool) gr t loss
    vars opt kw :
  keeps same_gs (FederalModel._minimize sm gr t loss vars opt kw).
Proof.
  unfold FederalModel._minimize, FederalModel.get_recv_grad_vars. keeps_gs_tac.
  - intros st. apply same_train_ops_gs. unfold FederalModel.require_grad_ops_getitem.
    by destruct (_ !! t).
  - unfold FederalModel.loss_sources. case_bool_decide; keeps_gs_tac.
    destruct (takes_opt_config opt); keeps_gs_tac;
      [apply keeps_gs_dict_pop | apply keeps_gs_reduce_loss].
  - unfold FederalModel.peer_gradients. case_bool_decide; keeps_gs_tac;
      [apply keeps_gs_dict_pop|].
    unfold FederalModel.peer_reply, FederalModel.peer_send_grads. keeps_gs_tac.
    + destruct (cfg_is _ "noise"); keeps_gs_tac.
    + unfold FederalModel.send_back. destruct (_.2); apply keeps_gs_send.
  - apply keeps_try; [apply _ | | intros e; by intros st].
    unfold FederalModel.local_gradients. keeps_gs_tac.
Qed.

Lemma control_dependencies_Ok l deps :
  Model.control_dependencies l = Ok deps → l = Some <$> deps.
Proof.
  revert deps. induction l as [|[o|] l IH]; intros deps; simpl.
  - by intros [= <-].
  - destruct (Model.control_dependencies l) as [os|e]; [|done].
    intros [= <-]. simpl. f_equal. by apply IH.
  - done.
Qed.

#[global] Instance input_frame_preorder : PreOrder input_frame.
Proof.
  split.
  - by intros s.
  - intros s1 s2 s3 [H12 L12] [H23 L23]. split; [by etrans | congruence].
Qed.

Section CompileSteps.
Context (call_input_fn : string → MODE → M pyobj).
Context (call_loss_fn : string → Sample → M (option tensor)).
Context (call_opt_fn : string → option string → M (list (optimizer * (list tensor * option string)))).
Context (call_eval_fn : string → Sample → M (option op)).
Context (SRO : optimizer → string → optimizer) (hook : optimizer → string).
Context (minimize : option string → option tensor → list tensor * option string →
                    optimizer → bool → M (option op)).

Hypothesis input_fn_frame : ∀ fn mode, keeps input_frame (call_input_fn fn mode).
Hypothesis loss_fn_frame : ∀ fn smp, keeps same_gs (call_loss_fn fn smp).
Hypothesis opt_fn_frame : ∀ fn t, keeps same_gs (call_opt_fn fn t).
Hypothesis eval_fn_frame : ∀ fn smp, keeps same_gs (call_eval_fn fn smp).
Hypothesis minimize_frame : ∀ t loss vars opt kw, keeps same_gs (minimize t loss vars opt kw).

Let compile_input := Model.compile_input call_input_fn.
Let optimize_binding := Model.optimize_binding SRO hook minimize.
Let compile_train := Model.compile_train call_loss_fn call_opt_fn SRO hook minimize.
Let compile_eval := Model.compile_eval call_eval_fn.
Let compile_task :=
  Model.compile_task call_loss_fn call_opt_fn call_eval_fn SRO hook minimize.

Lemma keeps_input_frame_modify f :
  (∀ s, _train_ops (f s) = _train_ops s) → (∀ s, _loss_fns (f s) = _loss_fns s) →
  keeps input_frame (modify f).
Proof.
  intros Ht Hl. apply keeps_modify. intros s.
  split; [by apply same_train_ops_gs | apply Hl].
Qed.

Lemma keeps_compile_input t fn : keeps input_frame (compile_input t fn).
Proof.
  unfold compile_input, Model.compile_input, Model.log_call.
  assert (∀ mode (e : option MODE → option string → call_event),
            keeps input_frame
              (Model.with_task_scope t mode
                 (modify (λ s, set_calls (calls s ++ [e (scope_mode s) (scope_task s)]) s);;
                  call_input_fn fn mode))) as Hcall.
  { intros mode e. apply keeps_with_task_scope; [apply _ | |].
    - intros m tk s. split; [by apply same_train_ops_gs | done].
    - apply keeps_bind; [apply _ | by apply keeps_input_frame_modify |].
      intros _. apply input_fn_frame. }
  apply keeps_bind; [apply _ | apply Hcall | intros o].
  apply keeps_bind; [apply _ | | intros _].
  { destruct (is_sample o); [apply keeps_ret | apply keeps_raise]; apply _. }
  apply keeps_bind; [apply _ | by apply keeps_input_frame_modify | intros _].
  apply keeps_bind; [apply _ | apply Hcall | intros o'].
  destruct (py_bool o'); [|apply keeps_ret; apply _].
  apply keeps_bind; [apply _ | | intros _; by apply keeps_input_frame_modify].
  destruct (is_sample o'); [apply keeps_ret | apply keeps_raise]; apply _.
Qed.

Lemma keeps_gs_input mode t : keeps same_gs (Model.input mode t).
Proof.
  unfold Model.input, Model._get_task_scope. simpl. keeps_gs_tac.
  destruct (_ !! _); keeps_gs_tac.
Qed.

Lemma keeps_gs_log_call e : keeps same_gs (Model.log_call e).
Proof. unfold Model.log_call. keeps_gs_tac. Qed.

Lemma keeps_gs_scoped {A} t mode (c : M A) :
  keeps same_gs c → keeps same_gs (Model.with_task_scope t mode c).
Proof.
  intros Hc. apply keeps_with_task_scope; [apply _ | | done].
  intros m tk s. by apply same_train_ops_gs.
Qed.

Lemma keeps_gs_before_step_ops o : keeps same_gs (Model.call_before_step_ops o).
Proof. unfold Model.call_before_step_ops. destruct (is_sample o); keeps_gs_tac. Qed.

Lemma keeps_gs_add_hooks hs mode t : keeps same_gs (Model.add_hooks hs mode t).
Proof.
  unfold Model.add_hooks, Model._get_task_scope. keeps_gs_tac.
  destruct (if mode is Some _ then mode else _); keeps_gs_tac.
Qed.

Lemma keeps_gs_optimize_binding kw t loss b :
  keeps same_gs (optimize_binding kw t loss b).
Proof.
  unfold optimize_binding, Model.optimize_binding. keeps_gs_tac; [|apply minimize_frame].
  destruct (Model.sync_optimizer_config kw); keeps_gs_tac. apply keeps_gs_add_hooks.
Qed.

Lemma keeps_gs_compile_eval t : keeps same_gs (compile_eval t).
Proof.
  unfold compile_eval, Model.compile_eval. keeps_gs_tac.
  destruct (_ !! t); keeps_gs_tac.
  - apply keeps_gs_input.
  - apply keeps_gs_before_step_ops.
  - apply keeps_gs_scoped. keeps_gs_tac; [apply keeps_gs_log_call | apply eval_fn_frame].
  - destruct a2; keeps_gs_tac. unfold Model.add_eval_op. keeps_gs_tac.
Qed.

(** A successful training step of a task adds one increment by 1 to the
    task, behind the sub-ops of its bindings, and nothing to other tasks. *)
Lemma compile_train_gs kw t fn st st' :
  compile_train kw t fn st = (Ok tt, st') →
  ∃ pre deps loss bindings sa sb,
    for_each (optimize_binding kw t loss) bindings sa = (Ok (Some <$> deps), sb)
    ∧ ∀ t', gs_ops t' st'
            = if decide (t = t')
              then gs_ops t' st ++ [OpAssignAdd 1 (pre ++ deps)]
              else gs_ops t' st.
Proof.
  intros H. unfold compile_train, Model.compile_train in H.
  apply bind_Ok_inv in H as (smp & s1 & H1 & H).
  apply bind_Ok_inv in H as (pre & s2 & H2 & H).
  apply bind_Ok_inv in H as (loss & s3 & H3 & H).
  apply bind_Ok_inv in H as ([] & s4 & H4 & H).
  apply bind_Ok_inv in H as (ofns & s5 & H5 & H).
  destruct (ofns !! t) as [ofn|]; [|done].
  apply bind_Ok_inv in H as (bindings & s6 & H6 & H).
  apply bind_Ok_inv in H as ([] & s7 & H7 & H).
  apply bind_Ok_inv in H as (ops & s8 & H8 & H).
  apply bind_Ok_inv in H as (deps & s9 & H9 & H).
  injection H9 as Hdeps <-. apply control_dependencies_Ok in Hdeps as ->.
  exists pre, deps, loss, bindings, s7, s8. split; [exact H8|].
  assert (same_gs st s8) as Hsame.
  { etrans; [eapply keeps_run, H1; apply keeps_gs_input|].
    etrans; [eapply keeps_run, H2; apply keeps_gs_before_step_ops|].
    etrans; [eapply keeps_run, H3|].
    { apply keeps_gs_scoped. keeps_gs_tac; [apply keeps_gs_log_call | apply loss_fn_frame]. }
    etrans; [eapply keeps_run, H4; keeps_gs_tac|].
    etrans; [eapply keeps_run, H5; keeps_gs_tac|].
    etrans; [eapply keeps_run, H6|].
    { keeps_gs_tac; [apply keeps_gs_log_call | apply opt_fn_frame]. }
    etrans; [eapply keeps_run, H7; keeps_gs_tac|].
    eapply keeps_run, H8. apply keeps_for_each; [apply _|].
    intros b. apply keeps_gs_optimize_binding. }
  intros t'. replace st' with (Model.add_train_op (OpAssignAdd 1 (pre ++ deps)) t s8).2
    by (by rewrite H).
  rewrite gs_ops_add_train_op. simpl. by rewrite (Hsame t').
Qed.

Lemma compile_task_gs kw t fn st st' :
  compile_task kw t fn st = (Ok tt, st') →
  ∃ pre deps loss bindings sa sb,
    for_each (optimize_binding kw t loss) bindings sa = (Ok (Some <$> deps), sb)
    ∧ ∀ t', gs_ops t' st'
            = if decide (t = t')
              then gs_ops t' st ++ [OpAssignAdd 1 (pre ++ deps)]
              else gs_ops t' st.
Proof.
  intros H. unfold compile_task, Model.compile_task in H.
  apply bind_Ok_inv in H as ([] & s1 & H1 & H).
  apply compile_train_gs in H1 as (pre & deps & loss & bindings & sa & sb & Hloop & Hgs).
  exists pre, deps, loss, bindings, sa, sb. split; [done|].
  intros t'. rewrite <- Hgs. eapply (keeps_run same_gs), H. apply keeps_gs_compile_eval.
Qed.

Lemma compile_loop_gs kw (l : list (option string * string)) st st' us :
  NoDup l.*1 →
  for_each (λ e, compile_task kw e.1 e.2) l st = (Ok us, st') →
  (∀ t', t' ∉ l.*1 → gs_ops t' st' = gs_ops t' st)
  ∧ (∀ e, e ∈ l →
       ∃ pre deps loss bindings sa sb,
         for_each (optimize_binding kw e.1 loss) bindings sa = (Ok (Some <$> deps), sb)
         ∧ gs_ops e.1 st' = gs_ops e.1 st ++ [OpAssignAdd 1 (pre ++ deps)]).
Proof.
  revert st us. induction l as [|[t fn] l IH]; intros st us Hnd H.
  - simpl in H. injection H as <- <-. split; [done|]. intros e He.
    by apply elem_of_nil in He.
  - simpl in H, Hnd. apply list.NoDup_cons in Hnd as [Hnotin Hnd].
    apply bind_Ok_inv in H as ([] & s1 & H1 & H).
    apply bind_Ok_inv in H as (us' & s2 & H2 & H).
    injection H as <- <-.
    apply compile_task_gs in H1 as (pre & deps & loss & bindings & sa & sb & Hloop & Hgs).
    destruct (IH s1 us' Hnd H2) as [IHout IHin]. split.
    + intros t' Hout. simpl in Hout. apply not_elem_of_cons in Hout as [Hne Hout].
      rewrite IHout by done. rewrite Hgs. by rewrite decide_False.
    + intros e He. apply elem_of_cons in He as [->|He].
      * exists pre, deps, loss, bindings, sa, sb. split; [done|]. simpl.
        rewrite IHout by done. rewrite Hgs. by rewrite decide_True.
      * destruct (IHin e He) as (pre' & deps' & loss' & bindings' & sa' & sb' & Hl' & Hg').
        exists pre', deps', loss', bindings', sa', sb'. split; [done|].
        rewrite Hg'. rewrite Hgs. rewrite decide_False; [done|].
        intros ->. apply Hnotin. apply list_elem_of_fmap. by exists e.
Qed.

(** The same step, with the states it goes through. *)
Lemma compile_train_run kw t fn s0 s1 :
  compile_train kw t fn s0 = (Ok tt, s1) →
  ∃ control_inputs optimize_ops,
    train_step_run call_loss_fn call_opt_fn SRO hook minimize kw t fn s0 s1
      control_inputs optimize_ops
    ∧ (∀ sub_op, sub_op ∈ optimize_ops → ∃ o, sub_op = Some o ∧ o ∈ control_inputs)
    ∧ (∀ t', gs_ops t' s1
             = if decide (t = t')
               then gs_ops t' s0 ++ [OpAssignAdd 1 control_inputs]
               else gs_ops t' s0)
    ∧ list.last (default [] (_train_ops s1 !! t)) = Some (OpAssignAdd 1 control_inputs).
Proof.
  intros H. unfold compile_train, Model.compile_train in H.
  apply bind_Ok_inv in H as (sample & sa & H1 & H).
  assert (sa = s0) as ->.
  { unfold Model.input in H1. apply bind_Ok_inv in H1 as (ts & sx & Hts & H1).
    unfold Model._get_task_scope in Hts. rewrite !bind_gets in Hts. simpl in Hts.
    injection Hts as <- <-. rewrite bind_gets in H1.
    destruct (_ !! _); [|done]. by injection H1. }
  apply bind_Ok_inv in H as (pre & s2 & H2 & H).
  unfold Model.call_before_step_ops in H2.
  destruct (is_sample sample) as [smp|] eqn:Hsmp; [|done]. injection H2 as <- <-.
  apply bind_Ok_inv in H as (loss & s3 & H3 & H).
  unfold Model.as_sample in H3. rewrite Hsmp in H3. simpl in H3.
  rewrite bind_modify, bind_gets in H. simpl in H.
  destruct (_opt_fns s3 !! t) as [ofn|] eqn:Hofn; [|done].
  apply bind_Ok_inv in H as (bindings & s6 & H6 & H).
  rewrite bind_modify in H.
  apply bind_Ok_inv in H as (oops & s8 & H8 & H).
  apply bind_Ok_inv in H as (deps & s9 & H9 & H).
  injection H9 as Hdeps <-.
  unfold Model.add_train_op, modify in H. injection H as <-.
  exists (before_step_ops smp ++ deps), oops. split_and!.
  - exists sample, smp, loss, s3, ofn, bindings, s6, s8, deps. by split_and!.
  - apply control_dependencies_Ok in Hdeps as ->.
    intros sub_op (o & -> & Ho)%list_elem_of_fmap. exists o. split; [done|].
    apply elem_of_app. by right.
  - assert (same_gs s0 s8) as Hsame.
    { assert (same_gs s0 s3) as Ha.
      { eapply keeps_run, H3. apply keeps_gs_scoped.
        keeps_gs_tac; [apply keeps_gs_log_call | apply loss_fn_frame]. }
      assert (same_gs (set_losses (<[t := loss]> (_losses s3)) s3) s6) as Hb.
      { eapply keeps_run, H6.
        keeps_gs_tac; [apply keeps_gs_log_call | apply opt_fn_frame]. }
      assert (same_gs (set_opt_to_vars (<[t := bindings]> (_opt_to_vars s6)) s6) s8) as Hc.
      { eapply keeps_run, H8. apply keeps_for_each; [apply _|].
        intros b. apply keeps_gs_optimize_binding. }
      intros t'. etrans; [exact (Hc t')|]. etrans; [exact (Hb t') | exact (Ha t')]. }
    intros t'.
    pose proof (gs_ops_add_train_op (OpAssignAdd 1 (before_step_ops smp ++ deps)) t t' s8)
      as Hgs.
    unfold Model.add_train_op, modify in Hgs. simpl in Hgs.
    rewrite Hgs. by rewrite (Hsame t').
  - simpl. rewrite lookup_insert_eq. simpl. apply last_snoc.
Qed.

Lemma for_each_app_inv {A B} (f : A → M B) (l1 : list A) (x : A) (l2 : list A) s s' us :
  for_each f (l1 ++ x :: l2) s = (Ok us, s') →
  ∃ u1 sa u sb u2,
    for_each f l1 s = (Ok u1, sa) ∧ f x sa = (Ok u, sb) ∧ for_each f l2 sb = (Ok u2, s').
Proof.
  revert s us. induction l1 as [|a l1 IH]; intros s us H; simpl in H.
  - apply bind_Ok_inv in H as (u & sb & Hx & H).
    apply bind_Ok_inv in H as (u2 & s2 & H2 & H). injection H as <- <-.
    by exists [], s, u, sb, u2.
  - apply bind_Ok_inv in H as (ua & sa & Ha & H).
    apply bind_Ok_inv in H as (urest & s2 & Hrest & H). injection H as <- <-.
    destruct (IH _ _ Hrest) as (u1 & sa' & u & sb & u2 & H1 & Hx & H2).
    exists (ua :: u1), sa', u, sb, u2. split_and!; try done.
    simpl. by rewrite bind_run, Ha, bind_run, H1.
Qed.

(** The task's step within the loop over the loss functions. *)
Lemma compile_loop_run kw (l1 : list (option string * string)) t fn l2 s s' us :
  NoDup (l1 ++ (t, fn) :: l2).*1 →
  for_each (λ e, compile_task kw e.1 e.2) (l1 ++ (t, fn) :: l2) s = (Ok us, s') →
  ∃ s1 control_inputs optimize_ops,
    train_step_run call_loss_fn call_opt_fn SRO hook minimize kw t fn
      (for_each (λ e, compile_task kw e.1 e.2) l1 s).2 s1 control_inputs optimize_ops
    ∧ (∀ sub_op, sub_op ∈ optimize_ops → ∃ o, sub_op = Some o ∧ o ∈ control_inputs)
    ∧ gs_ops t s' = gs_ops t s ++ [OpAssignAdd 1 control_inputs]
    ∧ list.last (default [] (_train_ops s1 !! t)) = Some (OpAssignAdd 1 control_inputs).
Proof.
  intros Hnd H. rewrite fmap_app, fmap_cons in Hnd. simpl in Hnd.
  apply list.NoDup_app in Hnd as (Hnd1 & Hdisj & Hnd2).
  apply list.NoDup_cons in Hnd2 as [Hnotin2 Hnd2].
  assert (t ∉ l1.*1) as Hnotin1.
  { intros Hin. apply (Hdisj t Hin). by left. }
  apply for_each_app_inv in H as (u1 & sa & u & sb & u2 & H1 & Hx & H2).
  rewrite H1. simpl.
  unfold compile_task, Model.compile_task in Hx. simpl in Hx.
  apply bind_Ok_inv in Hx as ([] & s1 & Htr & Hev).
  destruct (compile_train_run kw t fn sa s1 Htr) as (ci & oo & Hrun & Hsub & Hgs & Hlast).
  exists s1, ci, oo. split_and!; try done.
  destruct (compile_loop_gs kw l1 s sa u1 Hnd1 H1) as [Hout1 _].
  destruct (compile_loop_gs kw l2 sb s' u2 Hnd2 H2) as [Hout2 _].
  rewrite (Hout2 t Hnotin2).
  assert (gs_ops t sb = gs_ops t s1) as ->
    by (eapply (keeps_run same_gs), Hev; apply keeps_gs_compile_eval).
  rewrite Hgs, decide_True by done. by rewrite (Hout1 t Hnotin1).
Qed.
End CompileSteps.

(** C7.  When the compile of a model succeeds, every task with a loss
    function has gained exactly one global-step op, and that op is tied
    to the run of the task's own step.  For the task [t] with loss
    function [fn], the step runs from the state [s0] that the input loop
    and the steps of the tasks before [t] leave; [optimize_ops] is the
    list that the loop over the bindings returned by the task's optimizer
    function collects, one sub-op per binding, as [train_step_run] spells
    out; every one of these sub-ops is an op and is among the control
    inputs of the increment by 1, which also hold the ops of the task's
    sample; the increment is the last of the task's training ops when
    the step ends, it is the one global-step op the task has gained when
    the compile ends, and it is among the task's training ops then.  The
    user callbacks and [_minimize] are taken not to add or remove
    global-step ops themselves ([_minimize] of both classes does not),
    the input functions not to register loss functions, and the registry
    to hold each task once. *)
Theorem train_op_increments_global_step :
  ∀ (call_input_fn : string → MODE → M pyobj)
    (call_loss_fn : string → Sample → M (option tensor))
    (call_opt_fn : string → option string →
                   M (list (optimizer * (list tensor * option string))))
    (call_eval_fn : string → Sample → M (option op))
    (SRO : optimizer → string → optimizer) (hook : optimizer → string)
    (minimize : option string → option tensor → list tensor * option string →
                optimizer → bool → M (option op))
    (kw : Model.compile_kwargs) (st st' : state),
    (∀ fn mode, keeps input_frame (call_input_fn fn mode)) →
    (∀ fn smp, keeps same_gs (call_loss_fn fn smp)) →
    (∀ fn t, keeps same_gs (call_opt_fn fn t)) →
    (∀ fn smp, keeps same_gs (call_eval_fn fn smp)) →
    (∀ t loss vars opt k, keeps same_gs (minimize t loss vars opt k)) →
    NoDup (_loss_fns st).*1 →
    Model._internal_compile call_input_fn call_loss_fn call_opt_fn call_eval_fn
      SRO hook minimize kw st = (Ok tt, st') →
    ∀ before t fn after, _loss_fns st = before ++ (t, fn) :: after →
      let s_in := (for_each (λ e, Model.compile_input call_input_fn e.1 e.2)
                     (_input_fns st) st).2 in
      let s0 := (for_each (λ e, Model.compile_task call_loss_fn call_opt_fn call_eval_fn
                                  SRO hook minimize kw e.1 e.2) before s_in).2 in
      ∃ s1 control_inputs optimize_ops,
        train_step_run call_loss_fn call_opt_fn SRO hook minimize kw t fn s0 s1
          control_inputs optimize_ops
        ∧ (∀ sub_op, sub_op ∈ optimize_ops →
             ∃ o, sub_op = Some o ∧ o ∈ control_inputs)
        ∧ list.last (default [] (_train_ops s1 !! t)) = Some (OpAssignAdd 1 control_inputs)
        ∧ gs_ops t st' = gs_ops t st ++ [OpAssignAdd 1 control_inputs]
        ∧ OpAssignAdd 1 control_inputs ∈ default [] (_train_ops st' !! t).
Proof.
  intros cin clo cop cev SRO hook minimize kw st st' Hin Hlo Hop Hev Hmin Hnd H
    before t fn after Hsplit s_in s0.
  unfold Model._internal_compile in H.
  rewrite bind_gets in H.
  apply bind_Ok_inv in H as (us & s1 & H1 & H).
  rewrite bind_gets in H.
  apply bind_Ok_inv in H as (us' & s2 & H2 & H).
  injection H as <-.
  assert (input_frame st s1) as [Hgs1 Hfns1].
  { eapply keeps_run, H1. apply keeps_for_each; [apply _|].
    intros e. by apply keeps_compile_input. }
  assert (s_in = s1) as Hs_in by (subst s_in; by rewrite H1).
  rewrite Hfns1, Hsplit in H2. rewrite Hsplit in Hnd.
  destruct (compile_loop_run clo cop cev SRO hook minimize Hlo Hop Hev Hmin kw
              before t fn after s1 s2 us' Hnd H2)
    as (sx & ci & oo & Hrun & Hsub & Hgs & Hlast).
  exists sx, ci, oo. subst s0. rewrite Hs_in.
  rewrite (Hgs1 t) in Hgs. split_and!; try done.
  assert (OpAssignAdd 1 ci ∈ gs_ops t s2) as Hel
    by (rewrite Hgs; apply elem_of_app; right; apply list_elem_of_singleton; done).
  unfold gs_ops in Hel. by apply list_elem_of_filter in Hel as [_ ?].
Qed.

Lemma train_op_increments_global_step_witness :
  let st := Fixtures.registered "sample_for_both" "loss_on_received" "one_optimizer" in
  let r := Fixtures.compile Fixtures.minimize Fixtures.no_kwargs st in
  r.1 = Ok tt
  ∧ _train_ops r.2 !! Some "t1"
    = Some [OpSend "act1_grad" (TNode "grad/loss/act1" float32);
            OpAssignAdd 1
              [OpNamed "t1/materialize";
               OpApplyGradients "sgd"
                 [(Some (TNode "grad/loss/w" float32), Fixtures.w)]]]
  ∧ ∃ (control_inputs : list op) (optimize_ops : list (option op)),
      (∀ sub_op, sub_op ∈ optimize_ops → ∃ o, sub_op = Some o ∧ o ∈ control_inputs)
      ∧ gs_ops (Some "t1") r.2 = gs_ops (Some "t1") st ++ [OpAssignAdd 1 control_inputs].
Proof.
  split; [by vm_compute|]. split; [by vm_compute|].
  destruct (train_op_increments_global_step
              Fixtures.input_fns Fixtures.loss_fns Fixtures.opt_fns Fixtures.eval_fns
              Fixtures.sync_replicas Fixtures.sync_hook Fixtures.minimize
              Fixtures.no_kwargs
              (Fixtures.registered "sample_for_both" "loss_on_received" "one_optimizer")
              (Fixtures.compile Fixtures.minimize Fixtures.no_kwargs
                 (Fixtures.registered "sample_for_both" "loss_on_received"
                    "one_optimizer")).2)
    with (before := @nil (option string * string)) (t := Some "t1")
         (fn := "loss_on_received") (after := @nil (option string * string))
    as (s1 & control_inputs & optimize_ops & _ & Hsub & _ & Hgs & _).
  - intros fn mode. unfold Fixtures.input_fns.
    repeat case_bool_decide; apply keeps_ret; apply _.
  - intros fn smp. unfold Fixtures.loss_fns, FederalModel.recv,
      FederalModel.communicator_recv.
    case_bool_decide; keeps_gs_tac.
  - intros fn t. unfold Fixtures.opt_fns. case_bool_decide; apply keeps_ret; apply _.
  - intros fn smp. apply keeps_ret; apply _.
  - intros t loss vars opt k. apply keeps_gs_federal_minimize.
  - apply list.NoDup_singleton.
  - by vm_compute.
  - reflexivity.
  - by exists control_inputs, optimize_ops.
Defined.

(** * Further properties of the model's methods *)

(** ** Extra data *)

(** X1.  A key can be given extra data once: after a successful
    [add_extra_data], [get_extra_data] returns the stored value, other
    keys are as before, and a second [add_extra_data] for the key raises
    a ValueError and keeps the first value.  [add_extra_data] succeeds
    exactly for a key that is not in the dict.  [get_extra_data] returns
    [None] both for a key that is not in the dict and for a key stored
    with [None], so after storing [None] it still returns [None] while a
    further [add_extra_data] raises. *)
Theorem extra_data_written_once :
  ∀ {V} (key : string) (v v' : option V) (d d' : gmap string (option V)),
    (Model.add_extra_data key v d = (Ok tt, d') →
       Model.get_extra_data key d' = v
       ∧ (∀ k, k ≠ key → Model.get_extra_data k d' = Model.get_extra_data k d)
       ∧ Model.add_extra_data key v' d'
         = (Raise (ValueError ("key[" +:+ key +:+ "] already exist")), d'))
    ∧ ((Model.add_extra_data key v d).1 = Ok tt ↔ d !! key = None)
    ∧ (Model.get_extra_data key d = None ↔ d !! key = None ∨ d !! key = Some None).
Proof.
  intros V key v v' d d'. unfold Model.add_extra_data, Model.get_extra_data.
  split_and!.
  - case_bool_decide as E; [done|]. intros [= <-]. split_and!.
    + by rewrite lookup_insert_eq.
    + intros k Hk. by rewrite lookup_insert_ne.
    + rewrite bool_decide_true; [done|]. rewrite lookup_insert_eq. eauto.
  - case_bool_decide as E; simpl.
    + destruct E as [x ->]. by split.
    + apply eq_None_not_Some in E. by split.
  - destruct (d !! key) as [[x|]|]; split; try done; eauto.
    intros [?|?]; done.
Qed.

Lemma extra_data_written_once_witness :
  Model.get_extra_data "vocab" (<["vocab" := Some 7%Z]> (∅ : gmap string (option Z)))
  = Some 7%Z
  ∧ Model.add_extra_data "vocab" (Some 9%Z) (<["vocab" := Some 7%Z]> ∅)
    = (Raise (ValueError "key[vocab] already exist"), <["vocab" := Some 7%Z]> ∅)
  ∧ Model.get_extra_data "seed" (<["seed" := None]> (∅ : gmap string (option Z))) = None
  ∧ Model.add_extra_data "seed" (Some 1%Z) (<["seed" := None]> ∅)
    = (Raise (ValueError "key[seed] already exist"), <["seed" := None]> ∅).
Proof.
  pose proof (@extra_data_written_once Z "vocab" (Some 7%Z) (Some 9%Z) ∅
                (<["vocab" := Some 7%Z]> ∅)) as [H _].
  destruct H as (Hget & _ & Hadd); [reflexivity|].
  pose proof (@extra_data_written_once Z "seed" None (Some 1%Z) ∅
                (<["seed" := None]> ∅)) as [H' _].
  destruct H' as (Hget' & _ & Hadd'); [reflexivity|].
  by split_and!.
Defined.

(** ** Training and evaluation ops *)

Lemma resolve_task_run t st :
  Model.resolve_task t st = (Ok (registered_as t st), st).
Proof. reflexivity. Qed.

Lemma train_op_run t st :
  Model.train_op t st
  = match _train_ops st !! registered_as t st with
    | None => (Raise (ValueError ("get train_op failed for task:"
                                  +:+ Model.fmt_task (registered_as t st))), st)
    | Some l => (Ok l, st)
    end.
Proof.
  unfold Model.train_op. rewrite bind_run, resolve_task_run, bind_gets.
  by destruct (_ !! _).
Qed.

Lemma eval_op_run t st :
  Model.eval_op t st
  = match _eval_ops st !! registered_as t st with
    | None => (Raise (ValueError ("get eval_op failed for task:"
                                  +:+ Model.fmt_task (registered_as t st))), st)
    | Some l => (Ok l, st)
    end.
Proof.
  unfold Model.eval_op. rewrite bind_run, resolve_task_run, bind_gets.
  by destruct (_ !! _).
Qed.

(** X2.  Ops added to a task are what its getter returns, in the order
    they were added, and the ops of other tasks stay as they are.  [t] is
    a task that the getter looks up as given: a name, or no name while
    the current scope has none either. *)
Theorem ops_are_returned_in_order :
  ∀ (o1 o2 : op) (t : task) (st : state),
    registered_as t st = t →
    let st1 := (Model.add_train_op o1 t st).2 in
    let st2 := (Model.add_train_op o2 t st1).2 in
    let se1 := (Model.add_eval_op o1 t st).2 in
    let se2 := (Model.add_eval_op o2 t se1).2 in
    Model.train_op t st2 = (Ok (default [] (_train_ops st !! t) ++ [o1; o2]), st2)
    ∧ Model.eval_op t se2 = (Ok (default [] (_eval_ops st !! t) ++ [o1; o2]), se2)
    ∧ (∀ t', t' ≠ t → _train_ops st2 !! t' = _train_ops st !! t'
                      ∧ _eval_ops se2 !! t' = _eval_ops st !! t')
    ∧ _eval_ops st2 = _eval_ops st
    ∧ _train_ops se2 = _train_ops st.
Proof.
  intros o1 o2 t st Ht st1 st2 se1 se2.
  assert (registered_as t st2 = t) as Ht2 by exact Ht.
  assert (registered_as t se2 = t) as Hte2 by exact Ht.
  split_and!.
  - rewrite train_op_run, Ht2. subst st2 st1. simpl.
    rewrite !lookup_insert_eq. simpl. by rewrite <- app_assoc.
  - rewrite eval_op_run, Hte2. subst se2 se1. simpl.
    rewrite !lookup_insert_eq. simpl. by rewrite <- app_assoc.
  - intros t' Hne. subst st2 st1 se2 se1. simpl.
    by rewrite !lookup_insert_ne.
  - done.
  - done.
Qed.

Lemma ops_are_returned_in_order_witness :
  let st2 := (Model.add_train_op (OpNamed "b") (Some "t1")
                (Model.add_train_op (OpNamed "a") (Some "t1") Fixtures.fresh).2).2 in
  Model.train_op (Some "t1") st2 = (Ok [OpNamed "a"; OpNamed "b"], st2).
Proof.
  apply (ops_are_returned_in_order (OpNamed "a") (OpNamed "b") (Some "t1") Fixtures.fresh).
  reflexivity.
Defined.

(** X3.  [add_train_op] files an op under the task it is given, without
    looking at the current scope, while [train_op] falls back to the
    scope's task: inside the scope of a task, an op added without a task
    is filed under [None] and a [train_op] without a task does not find
    it. *)
Theorem op_added_without_task_is_not_found :
  ∀ (o : op) (tk : string) (st : state),
    scope_task st = Some tk →
    _train_ops st !! Some tk = None →
    let st' := (Model.add_train_op o None st).2 in
    _train_ops st' !! None = Some (default [] (_train_ops st !! None) ++ [o])
    ∧ Model.train_op None st'
      = (Raise (ValueError ("get train_op failed for task:" +:+ tk)), st').
Proof.
  intros o tk st Hscope Hnone st'. split.
  - subst st'. simpl. by rewrite lookup_insert_eq.
  - rewrite train_op_run.
    assert (registered_as None st' = Some tk) as -> by exact Hscope.
    subst st'. simpl. rewrite lookup_insert_ne by done. by rewrite Hnone.
Qed.

Lemma op_added_without_task_is_not_found_witness :
  let st := set_scope (Some TRAIN) (Some "t1") Fixtures.fresh in
  let st' := (Model.add_train_op (OpNamed "a") None st).2 in
  Model.train_op None st' = (Raise (ValueError "get train_op failed for task:t1"), st').
Proof.
  apply (op_added_without_task_is_not_found (OpNamed "a") "t1"
           (set_scope (Some TRAIN) (Some "t1") Fixtures.fresh)); done.
Defined.

(** ** Metrics *)

Section AList.
Context {K V : Type} `{EqDecision K}.

Lemma alist_get_set_eq (k : K) (v : V) d : alist_get k (alist_set k v d) = Some v.
Proof.
  induction d as [|[k' v'] d IH]; simpl.
  - by rewrite decide_True.
  - destruct (decide (k' = k)) as [->|Hne]; simpl.
    + by rewrite decide_True.
    + by rewrite decide_False.
Qed.

Lemma alist_get_set_ne (k k' : K) (v : V) d :
  k' ≠ k → alist_get k' (alist_set k v d) = alist_get k' d.
Proof.
  intros Hne. induction d as [|[k0 v0] d IH]; simpl.
  - by rewrite decide_False.
  - destruct (decide (k0 = k)) as [->|Hk0]; simpl.
    + by rewrite !decide_False.
    + by rewrite IH.
Qed.

Lemma alist_set_keys (k : K) (v : V) d :
  (alist_set k v d).*1 = if decide (k ∈ d.*1) then d.*1 else d.*1 ++ [k].
Proof.
  induction d as [|[k0 v0] d IH].
  - destruct (decide (k ∈ ([] : list (K * V)).*1)) as [Hin|_]; [|done].
    by apply elem_of_nil in Hin.
  - cbn [alist_set]. destruct (decide (k0 = k)) as [->|Hk0].
    + rewrite decide_True; [done|]. rewrite fmap_cons. by left.
    + rewrite !fmap_cons, IH. cbn [fst].
      destruct (decide (k ∈ d.*1)) as [Hin|Hin].
      * rewrite decide_True; [done|]. by right.
      * rewrite decide_False; [done|]. intros [?|?]%elem_of_cons; congruence.
Qed.

End AList.

Lemma get_task_scope_run mode t st :
  Model._get_task_scope mode t st
  = match (if mode is Some _ then mode else scope_mode st) with
    | None => (Raise (ValueError "must have mode param"), st)
    | Some m => (Ok (m, registered_as t st), st)
    end.
Proof.
  unfold Model._get_task_scope. rewrite !bind_gets.
  by destruct (if mode is Some _ then mode else scope_mode st).
Qed.

(** X4.  A metric added under a mode and task is what [metrics] returns
    for that mode and task under its name; adding a name again replaces
    the metric and keeps the place of the name; other names and other
    scopes stay as they are.  With a mode, given or left to its default
    [MODE.TRAIN], neither method raises, whatever the current scope.
    Only a call with an explicit [mode=None] while the current scope has
    no mode either makes both methods raise a ValueError. *)
Theorem metric_added_is_listed :
  ∀ (name : string) (m : tensor) (mode : option MODE) (t : task)
    (ms : list ((MODE * option string) * list (string * tensor)))
    (st : state) (ts : MODE * option string),
    ((Model._get_task_scope mode t st).1 = Ok ts →
     ∃ ms' l old,
       Model.add_metric name m mode t ms st = (Ok ms', st)
       ∧ Model.metrics mode t ms st = (Ok old, st)
       ∧ Model.metrics mode t ms' st = (Ok l, st)
       ∧ alist_get name l = Some m
       ∧ (∀ n, n ≠ name → alist_get n l = alist_get n old)
       ∧ l.*1 = (if decide (name ∈ old.*1) then old.*1 else old.*1 ++ [name])
       ∧ (∀ ts', ts' ≠ ts → alist_get ts' ms' = alist_get ts' ms))
    ∧ (∀ md, (Model._get_task_scope (Some md) t st).1 = Ok (md, registered_as t st)
             ∧ (∃ ms', Model.add_metric name m (Some md) t ms st = (Ok ms', st))
             ∧ (∃ l, Model.metrics (Some md) t ms st = (Ok l, st)))
    ∧ (mode = None → scope_mode st = None →
       (Model.add_metric name m mode t ms st).1 = Raise (ValueError "must have mode param")
       ∧ (Model.metrics mode t ms st).1 = Raise (ValueError "must have mode param")).
Proof.
  intros name m mode t ms st ts. split_and!.
  2:{ intros md. unfold Model.add_metric, Model.metrics.
      rewrite !bind_run, get_task_scope_run. simpl. split_and!; [done | by eexists..]. }
  - intros Hts. rewrite get_task_scope_run in Hts.
    unfold Model.add_metric, Model.metrics. rewrite !bind_run, get_task_scope_run.
    destruct (if mode is Some _ then mode else scope_mode st) as [m0|] eqn:Hm; [|done].
    simpl in Hts. injection Hts as <-.
    exists (alist_set (m0, registered_as t st)
              (alist_set name m (default [] (alist_get (m0, registered_as t st) ms))) ms),
      (alist_set name m (default [] (alist_get (m0, registered_as t st) ms))),
      (default [] (alist_get (m0, registered_as t st) ms)).
    split_and!.
    + reflexivity.
    + reflexivity.
    + unfold Model.metrics. rewrite bind_run, get_task_scope_run, Hm.
      cbn [mret M_ret]. by rewrite alist_get_set_eq.
    + apply alist_get_set_eq.
    + intros n Hn. by apply alist_get_set_ne.
    + apply alist_set_keys.
    + intros ts' Hne. by apply alist_get_set_ne.
  - intros -> Hnone. unfold Model.add_metric, Model.metrics.
    rewrite !bind_run, get_task_scope_run, Hnone. done.
Qed.

Lemma metric_added_is_listed_witness :
  ∃ ms', Model.add_metric "auc" (TNode "auc_v2" float32) (Some EVAL) (Some "t1")
           [((EVAL, Some "t1"), [("auc", TNode "auc_v1" float32); ("loss", TNode "l" float32)])]
           Fixtures.fresh = (Ok ms', Fixtures.fresh)
         ∧ Model.metrics (Some EVAL) (Some "t1") ms' Fixtures.fresh
           = (Ok [("auc", TNode "auc_v2" float32); ("loss", TNode "l" float32)], Fixtures.fresh).
Proof.
  pose proof (metric_added_is_listed "auc" (TNode "auc_v2" float32) (Some EVAL) (Some "t1")
                [((EVAL, Some "t1"), [("auc", TNode "auc_v1" float32); ("loss", TNode "l" float32)])]
                Fixtures.fresh (EVAL, Some "t1")) as [H _].
  destruct H as (ms' & l & old & Hadd & _ & Hget & _); [reflexivity|].
  exists ms'. split; [exact Hadd|].
  rewrite Hget. vm_compute in Hadd. injection Hadd as <-.
  vm_compute in Hget. injection Hget as <-. reflexivity.
Defined.

(** ** The logger hooks *)

(** X5.  [_add_logger_hook] does not fail: it adds one logger hook for
    each scope that has metrics, under that scope's mode and task and in
    the order of the scopes, each hook holding all metrics of its scope,
    and it changes nothing else; the current scope is the same
    afterwards. *)
Theorem logger_hook_per_scope :
  ∀ (LoggerHook : Z → list (string * tensor) → string) (log_step : Z)
    (ms : list ((MODE * option string) * list (string * tensor))) (st : state),
    Model._add_logger_hook LoggerHook log_step ms st
    = (Ok tt,
       set_hooks (hooks st
                  ++ map (λ e, (e.1.1, e.1.2, LoggerHook log_step e.2)) ms) st).
Proof.
  intros LH n ms. unfold Model._add_logger_hook.
  assert (∀ st, ∃ us,
             for_each (λ e : (MODE * option string) * list (string * tensor),
                         Model.with_task_scope e.1.2 e.1.1
                           (Model.add_hooks [LH n e.2] (Some e.1.1) None)) ms st
             = (Ok us, set_hooks (hooks st ++ map (λ e, (e.1.1, e.1.2, LH n e.2)) ms) st))
    as Hloop.
  { induction ms as [|e ms IH]; intros st.
    - exists []. destruct st; unfold set_hooks; simpl. by rewrite app_nil_r.
    - simpl. rewrite bind_run.
      assert (Model.with_task_scope e.1.2 e.1.1
                (Model.add_hooks [LH n e.2] (Some e.1.1) None) st
              = (Ok tt, set_hooks (hooks st ++ [(e.1.1, e.1.2, LH n e.2)]) st)) as ->.
      { by destruct st. }
      destruct (IH (set_hooks (hooks st ++ [(e.1.1, e.1.2, LH n e.2)]) st)) as [us Hus].
      rewrite bind_run, Hus. exists (tt :: us).
      cbn [mret M_ret]. f_equal.
      destruct st; unfold set_hooks; simpl. by rewrite <- app_assoc. }
  intros st. destruct (Hloop st) as [us Hus].
  change ((for_each (λ e : (MODE * option string) * list (string * tensor),
                       Model.with_task_scope e.1.2 e.1.1
                         (Model.add_hooks [LH n e.2] (Some e.1.1) None)) ms
           ≫= λ _, mret tt) st = (Ok tt, set_hooks (hooks st ++ map (λ e, (e.1.1, e.1.2, LH n e.2)) ms) st)).
  by rewrite bind_run, Hus.
Qed.

(** ** Evaluation functions *)

Lemma eval_fn_unfold fn t st :
  Model.eval_fn fn t st =
    if bool_decide (is_Some (_eval_fns st !! registered_as t st))
    then (Raise (ValueError ("eval fn define twice for task:"
                             +:+ Model.fmt_task (registered_as t st))), st)
    else (Ok tt, set_eval_fns (<[registered_as t st := fn]> (_eval_fns st)) st).
Proof.
  unfold Model.eval_fn, Model.resolve_task, mbind, M_bind, gets, registered_as.
  simpl. by case_bool_decide.
Qed.

(** X6.  An evaluation function is registered once per task: after a
    successful [eval_fn], another [eval_fn] for the task raises a
    ValueError and changes nothing, the first function stays registered,
    and the evaluation functions of other tasks and the input, loss and
    optimizer functions are as before.  [eval_fn] succeeds exactly for a
    task without evaluation function. *)
Theorem eval_fn_registered_once :
  ∀ (fn1 fn2 : string) (t : task) (st st1 : state),
    let key := registered_as t st in
    (Model.eval_fn fn1 t st = (Ok tt, st1) →
       Model.eval_fn fn2 t st1
       = (Raise (ValueError ("eval fn define twice for task:" +:+ Model.fmt_task key)), st1)
       ∧ _eval_fns st1 !! key = Some fn1
       ∧ (∀ k, k ≠ key → _eval_fns st1 !! k = _eval_fns st !! k)
       ∧ _input_fns st1 = _input_fns st
       ∧ _loss_fns st1 = _loss_fns st
       ∧ _opt_fns st1 = _opt_fns st)
    ∧ ((Model.eval_fn fn1 t st).1 = Ok tt ↔ _eval_fns st !! key = None).
Proof.
  intros fn1 fn2 t st st1 key. rewrite !eval_fn_unfold.
  change (registered_as t st) with key. split.
  - case_bool_decide as E; [done|]. intros [= <-].
    change (registered_as t _) with key. simpl.
    rewrite lookup_insert_eq. rewrite bool_decide_true by eauto.
    split_and!; try done. intros k Hk. by rewrite lookup_insert_ne.
  - rewrite eq_None_not_Some. by case_bool_decide.
Qed.

Lemma eval_fn_registered_once_witness :
  let st1 := set_eval_fns {[ Some "t1" := "auc_fn" ]} Fixtures.fresh in
  Model.eval_fn "auc_fn" (Some "t1") Fixtures.fresh = (Ok tt, st1)
  ∧ Model.eval_fn "other_fn" (Some "t1") st1
    = (Raise (ValueError "eval fn define twice for task:t1"), st1)
  ∧ _eval_fns st1 !! Some "t1" = Some "auc_fn".
Proof.
  pose proof (eval_fn_registered_once "auc_fn" "other_fn" (Some "t1") Fixtures.fresh
                (set_eval_fns {[ Some "t1" := "auc_fn" ]} Fixtures.fresh)) as [H _].
  destruct H as (H2 & Hget & _); [reflexivity|].
  split; [reflexivity|]. by split.
Defined.

(** ** The steps of a task in the compile *)

(** A callback that returns [a], run under the scope of a task as the
    compile does: the scope is the same afterwards, the call is logged
    with the scope it ran under, and what the callback leaves alone is
    left alone. *)
Lemma scoped_call_run {A B} (c : M A) (obs : state → B) t mode
    (e : option MODE → option string → call_event) st a :
  (∀ s, (c s).1 = Ok a) →
  keeps (same calls) c →
  keeps (same obs) c →
  (∀ s m tk, obs (set_scope m tk s) = obs s) →
  (∀ s cl, obs (set_calls cl s) = obs s) →
  ∃ st', Model.with_task_scope t mode (Model.log_call e;; c) st = (Ok a, st')
         ∧ calls st' = calls st ++ [e (Some mode) t]
         ∧ obs st' = obs st
         ∧ scope_mode st' = scope_mode st
         ∧ scope_task st' = scope_task st.
Proof.
  intros Hret Hcalls Hobs Hscope Hlog. unfold Model.with_task_scope, Model.log_call.
  rewrite bind_run. simpl.
  set (s_in := set_calls _ _).
  specialize (Hret s_in). specialize (Hcalls s_in). specialize (Hobs s_in).
  destruct (c s_in) as [res s_out]. simpl in *. subst res.
  eexists. split; [reflexivity|]. unfold same in *.
  split_and!.
  - simpl. by rewrite Hcalls.
  - rewrite Hscope, Hobs. subst s_in. by rewrite Hlog, Hscope.
  - done.
  - done.
Qed.

Lemma input_run mode t st :
  Model.input mode t st
  = match _inputs st !! (mode, registered_as t st) with
    | None => (Raise (ValueError ("get input failed for mode:" +:+ Model.fmt_mode mode
                                  +:+ " task:" +:+ Model.fmt_task t)), st)
    | Some o => (Ok o, st)
    end.
Proof.
  unfold Model.input. rewrite bind_run, get_task_scope_run, bind_gets.
  by destruct (_ !! _).
Qed.





(** ** From the input function to the evaluation step *)

(** X9.  An input function that returns a sample under TRAIN scope and a
    false value such as [None] under EVAL scope is accepted by the input
    step, and [input] then returns the TRAIN sample of the task; but when
    the task has an evaluation function, the evaluation step of the task
    raises the ValueError of [input] for the missing EVAL sample, without
    invoking the evaluation function and without changing the model.
    [t] is a task that [input] looks up as given.  The input function is
    taken to leave the call log, the registered inputs and the evaluation
    functions alone. *)
Theorem eval_fn_needs_eval_sample :
  ∀ (call_input_fn : string → MODE → M pyobj)
    (call_eval_fn : string → Sample → M (option op))
    (t : task) (fn efn : string) (st : state) (o_train o_eval : pyobj),
    (∀ s, (call_input_fn fn TRAIN s).1 = Ok o_train) →
    (∀ s, (call_input_fn fn EVAL s).1 = Ok o_eval) →
    is_Some (is_sample o_train) →
    py_bool o_eval = false →
    (∀ mode, keeps (same calls) (call_input_fn fn mode)) →
    (∀ mode, keeps (same (λ s, (_inputs s, _eval_fns s))) (call_input_fn fn mode)) →
    registered_as t st = t →
    _inputs st !! (EVAL, t) = None →
    _eval_fns st !! t = Some efn →
    let s1 := (Model.compile_input call_input_fn t fn st).2 in
    (Model.compile_input call_input_fn t fn st).1 = Ok tt
    ∧ Model.input TRAIN t s1 = (Ok o_train, s1)
    ∧ Model.compile_eval call_eval_fn t s1
      = (Raise (ValueError ("get input failed for mode:" +:+ Model.fmt_mode EVAL
                            +:+ " task:" +:+ Model.fmt_task t)), s1).
Proof.
  intros cin cev t fn efn st o_train o_eval Htr Hev [smp Hsmp] Hfalse Hcalls Hkeep
    Hreg Hnone Hfn s1.
  assert (∃ s, Model.compile_input cin t fn st = (Ok tt, s)
               ∧ _inputs s = <[(TRAIN, t) := o_train]> (_inputs st)
               ∧ _eval_fns s = _eval_fns st
               ∧ scope_task s = scope_task st) as (s & Hrun & Hin & Hfns & Hsc).
  { unfold Model.compile_input.
    destruct (scoped_call_run (cin fn TRAIN) (λ s, (_inputs s, _eval_fns s)) t TRAIN
                (CallInputFn fn TRAIN) st o_train Htr (Hcalls TRAIN) (Hkeep TRAIN))
      as (sa & Hruna & _ & Hobsa & _ & Hsca); [done | done |].
    rewrite bind_run, Hruna, Hsmp, bind_mret, bind_modify.
    set (sb := set_inputs _ sa).
    destruct (scoped_call_run (cin fn EVAL) (λ s, (_inputs s, _eval_fns s)) t EVAL
                (CallInputFn fn EVAL) sb o_eval Hev (Hcalls EVAL) (Hkeep EVAL))
      as (sc & Hrunc & _ & Hobsc & _ & Hscc); [done | done |].
    rewrite bind_run, Hrunc, Hfalse. exists sc. split; [done|].
    injection Hobsa as Hia Hfa. injection Hobsc as Hic Hfc.
    split_and!.
    - rewrite Hic. subst sb. simpl. by rewrite Hia.
    - rewrite Hfc. subst sb. simpl. by rewrite Hfa.
    - rewrite Hscc. subst sb. simpl. by rewrite Hsca. }
  subst s1. rewrite Hrun. simpl.
  assert (registered_as t s = t) as Hreg'.
  { unfold registered_as in *. by rewrite Hsc. }
  split_and!.
  - done.
  - by rewrite input_run, Hreg', Hin, lookup_insert_eq.
  - unfold Model.compile_eval.
    rewrite bind_gets, Hfns, Hfn, bind_run, input_run, Hreg', Hin.
    by rewrite lookup_insert_ne, Hnone.
Qed.

Lemma eval_fn_needs_eval_sample_witness :
  let st := set_eval_fns {[ Some "t1" := "auc_fn" ]} Fixtures.fresh in
  let s1 := (Model.compile_input Fixtures.input_fns (Some "t1") "sample_for_train_only"
               st).2 in
  Model.input TRAIN (Some "t1") s1 = (Ok (PySample Fixtures.sample_t1), s1)
  ∧ Model.compile_eval Fixtures.eval_fns (Some "t1") s1
    = (Raise (ValueError "get input failed for mode:eval task:t1"), s1).
Proof.
  destruct (eval_fn_needs_eval_sample Fixtures.input_fns Fixtures.eval_fns (Some "t1")
              "sample_for_train_only" "auc_fn"
              (set_eval_fns {[ Some "t1" := "auc_fn" ]} Fixtures.fresh)
              (PySample Fixtures.sample_t1) PyNone) as (_ & H2 & H3).
  - intros s. reflexivity.
  - intros s. reflexivity.
  - by eexists.
  - reflexivity.
  - intros mode s. by destruct mode.
  - intros mode s. by destruct mode.
  - reflexivity.
  - reflexivity.
  - reflexivity.
  - by split.
Defined.

(** ** What [_minimize] leaves alone *)

Lemma keeps_side_dict_pop r k d : keeps (same model_side) (dict_pop r k d).
Proof.
  intros st. unfold dict_pop, same.
  destruct (cfg_get r st !! k); [|done]. by destruct r.
Qed.

Lemma keeps_side_reduce_loss loss rf : keeps (same model_side) (Model._reduce_loss loss rf).
Proof.
  unfold Model._reduce_loss, tf_logging_warn. destruct loss as [l|]; [|keeps_tac].
  destruct (cfg_is rf "mean"); [keeps_tac|]. destruct (cfg_is rf "sum"); [keeps_tac|].
  destruct rf; keeps_tac.
Qed.

Lemma keeps_side_send name x rg t :
  keeps (same model_side) (FederalModel.send name x rg TRAIN t).
Proof.
  rewrite send_unfold.
  unfold FederalModel.recv, FederalModel.communicator_recv, Model.add_train_op.
  keeps_tac. destruct rg; keeps_tac.
Qed.

Lemma train_ops_grow_same s s' : _train_ops s' = _train_ops s → train_ops_grow s s'.
Proof. intros H t. by rewrite H. Qed.

#[global] Instance train_ops_grow_preorder : PreOrder train_ops_grow.
Proof.
  split.
  - by intros s t.
  - intros s1 s2 s3 H12 H23 t. etrans; [apply H12 | apply H23].
Qed.

Ltac keeps_grow_tac :=
  repeat lazymatch goal with
  | |- keeps _ (mret _) => apply keeps_ret; try apply _
  | |- keeps _ (raise _) => apply keeps_raise; try apply _
  | |- keeps _ (lift _) => apply keeps_lift; try apply _
  | |- keeps _ (gets _) => apply keeps_gets; try apply _
  | |- keeps _ (Model.resolve_task _) => apply keeps_gets; try apply _
  | |- keeps _ (_ ≫= _) => apply keeps_bind; try apply _; [|intros ?]
  | |- keeps _ (modify _) => apply keeps_modify; by intros ?; apply train_ops_grow_same
  | |- keeps _ (for_each _ _) => apply keeps_for_each; try apply _; intros ?
  end.

Lemma keeps_grow_add_train_op o t : keeps train_ops_grow (Model.add_train_op o t).
Proof.
  intros st t'. unfold Model.add_train_op. simpl.
  destruct (decide (t = t')) as [->|Hne].
  - rewrite lookup_insert_eq. simpl. by apply prefix_app_r.
  - by rewrite lookup_insert_ne.
Qed.

Lemma keeps_grow_send name x rg mode t :
  keeps train_ops_grow (FederalModel.send name x rg mode t).
Proof.
  rewrite send_unfold.
  unfold FederalModel.recv, FederalModel.communicator_recv, Model.add_eval_op.
  keeps_grow_tac.
  - destruct mode; [apply keeps_grow_add_train_op | keeps_grow_tac].
  - destruct rg; keeps_grow_tac.
Qed.

Lemma keeps_grow_dict_pop r k d : keeps train_ops_grow (dict_pop r k d).
Proof.
  intros st. apply train_ops_grow_same. unfold dict_pop.
  destruct (cfg_get r st !! k); [|done]. by destruct r.
Qed.

Lemma keeps_grow_reduce_loss loss rf : keeps train_ops_grow (Model._reduce_loss loss rf).
Proof.
  unfold Model._reduce_loss, tf_logging_warn. destruct loss as [l|]; [|keeps_grow_tac].
  destruct (cfg_is rf "mean"); [keeps_grow_tac|].
  destruct (cfg_is rf "sum"); [keeps_grow_tac|].
  destruct rf; keeps_grow_tac.
Qed.

Lemma keeps_side_federal_minimize (sm : option string → string * tensor → bool) gr t loss
    vars opt kw :
  keeps (same model_side) (FederalModel._minimize sm gr t loss vars opt kw).
Proof.
  unfold FederalModel._minimize, FederalModel.get_recv_grad_vars. keeps_tac.
  - intros st. unfold FederalModel.require_grad_ops_getitem, same.
    by destruct (_ !! t).
  - unfold FederalModel.loss_sources. case_bool_decide; keeps_tac.
    destruct (takes_opt_config opt); keeps_tac;
      [apply keeps_side_dict_pop | apply keeps_side_reduce_loss].
  - unfold FederalModel.peer_gradients. case_bool_decide; keeps_tac;
      [apply keeps_side_dict_pop|].
    unfold FederalModel.peer_reply, FederalModel.peer_send_grads. keeps_tac.
    + destruct (cfg_is _ "noise"); keeps_tac.
    + unfold FederalModel.send_back. destruct (_.2); apply keeps_side_send.
  - apply keeps_try; [apply _ | | intros e; by intros st].
    unfold FederalModel.local_gradients. keeps_tac.
Qed.

Lemma keeps_grow_federal_minimize (sm : option string → string * tensor → bool) gr t loss
    vars opt kw :
  keeps train_ops_grow (FederalModel._minimize sm gr t loss vars opt kw).
Proof.
  unfold FederalModel._minimize, FederalModel.get_recv_grad_vars. keeps_grow_tac.
  - intros st. apply train_ops_grow_same.
    unfold FederalModel.require_grad_ops_getitem. by destruct (_ !! t).
  - unfold FederalModel.loss_sources. case_bool_decide; keeps_grow_tac.
    destruct (takes_opt_config opt); keeps_grow_tac;
      [apply keeps_grow_dict_pop | apply keeps_grow_reduce_loss].
  - unfold FederalModel.peer_gradients. case_bool_decide; keeps_grow_tac;
      [apply keeps_grow_dict_pop|].
    unfold FederalModel.peer_reply, FederalModel.peer_send_grads. keeps_grow_tac.
    + destruct (cfg_is _ "noise"); keeps_grow_tac.
    + unfold FederalModel.send_back. destruct (_.2); apply keeps_grow_send.
  - apply keeps_try; [apply _ | | intros e; by intros st].
    unfold FederalModel.local_gradients. keeps_grow_tac.
Qed.

Lemma keeps_all_model_minimize t loss vars opt kw :
  keeps (same (λ s, (model_side s, _train_ops s, comm_log s,
                     _recv_grad_ops s, _require_grad_ops s)))
    (Model._minimize t loss vars opt kw).
Proof.
  unfold Model._minimize. keeps_tac.
  destruct (takes_opt_config opt); keeps_tac.
  - intros st. unfold dict_pop, same.
    destruct (cfg_get _ st !! "REDUCE"); [|done]. by destruct (kwargs_pop_opt_config kw).
  - unfold Model._reduce_loss, tf_logging_warn. destruct loss as [l|]; [|keeps_tac].
    destruct (cfg_is _ "mean"); [keeps_tac|]. destruct (cfg_is _ "sum"); [keeps_tac|].
    destruct a; keeps_tac.
Qed.

Lemma side_registries s s' : same model_side s s' → same registries s s'.
Proof.
  unfold same, model_side. intros H.
  exact (f_equal (λ x, x.1.1.1.1.1.1.1.1) H).
Qed.

(** X10.  [_minimize] of a federated model, whether it returns or raises,
    leaves alone what the compile builds apart from the training ops: the
    function registries, the inputs, losses, evaluation ops and optimizer
    bindings, the hooks and the current scope; and it only adds to the
    training ops: what a task had stays, in order, at the front of what
    it has afterwards.  [_minimize] of the base class leaves the training
    ops and the communicator alone as well. *)
Theorem minimize_leaves_model_alone :
  ∀ (scope_matches : option string → string * tensor → bool)
    (gradients : list (option tensor) → list tensor → list (option tensor) →
                 result (list (option tensor)))
    (t : task) (loss : option tensor) (vars : list tensor * option string)
    (opt : optimizer) (kw : bool),
    keeps (same model_side) (FederalModel._minimize scope_matches gradients t loss vars opt kw)
    ∧ keeps train_ops_grow (FederalModel._minimize scope_matches gradients t loss vars opt kw)
    ∧ keeps (same (λ s, (model_side s, _train_ops s, comm_log s,
                         _recv_grad_ops s, _require_grad_ops s)))
        (Model._minimize t loss vars opt kw).
Proof.
  intros sm gr t loss vars opt kw. split_and!.
  - apply keeps_side_federal_minimize.
  - apply keeps_grow_federal_minimize.
  - apply keeps_all_model_minimize.
Qed.

(** ** The registries during the compile *)

Section CompileRegistries.
Context (call_input_fn : string → MODE → M pyobj).
Context (call_loss_fn : string → Sample → M (option tensor)).
Context (call_opt_fn : string → option string → M (list (optimizer * (list tensor * option string)))).
Context (call_eval_fn : string → Sample → M (option op)).
Context (SRO : optimizer → string → optimizer) (hook : optimizer → string).
Context (minimize : option string → option tensor → list tensor * option string →
                    optimizer → bool → M (option op)).

Hypothesis input_fn_reg : ∀ fn mode, keeps (same registries) (call_input_fn fn mode).
Hypothesis loss_fn_reg : ∀ fn smp, keeps (same registries) (call_loss_fn fn smp).
Hypothesis opt_fn_reg : ∀ fn t, keeps (same registries) (call_opt_fn fn t).
Hypothesis eval_fn_reg : ∀ fn smp, keeps (same registries) (call_eval_fn fn smp).
Hypothesis minimize_reg :
  ∀ t loss vars opt kw, keeps (same registries) (minimize t loss vars opt kw).

Lemma keeps_reg_scoped {A} t mode (c : M A) :
  keeps (same registries) c → keeps (same registries) (Model.with_task_scope t mode c).
Proof. intros Hc. apply keeps_with_task_scope; [apply _ | by intros m tk s | done]. Qed.

Lemma keeps_reg_log_call e : keeps (same registries) (Model.log_call e).
Proof. unfold Model.log_call. keeps_tac. Qed.

Lemma keeps_reg_input mode t : keeps (same registries) (Model.input mode t).
Proof. intros st. rewrite input_run. by destruct (_ !! _). Qed.

Lemma keeps_reg_add_hooks hs mode t : keeps (same registries) (Model.add_hooks hs mode t).
Proof.
  unfold Model.add_hooks, Model._get_task_scope. keeps_tac.
  destruct (if mode is Some _ then mode else _); keeps_tac.
Qed.

Lemma keeps_reg_compile_input t fn :
  keeps (same registries) (Model.compile_input call_input_fn t fn).
Proof.
  unfold Model.compile_input. keeps_tac.
  - apply keeps_reg_scoped. keeps_tac; [apply keeps_reg_log_call | apply input_fn_reg].
  - destruct (is_sample _); keeps_tac.
  - apply keeps_reg_scoped. keeps_tac; [apply keeps_reg_log_call | apply input_fn_reg].
  - destruct (py_bool _); keeps_tac. destruct (is_sample _); keeps_tac.
Qed.

Lemma keeps_reg_optimize_binding kw t loss b :
  keeps (same registries) (Model.optimize_binding SRO hook minimize kw t loss b).
Proof.
  unfold Model.optimize_binding. keeps_tac; [|apply minimize_reg].
  destruct (Model.sync_optimizer_config kw); keeps_tac. apply keeps_reg_add_hooks.
Qed.

Lemma keeps_reg_compile_train kw t fn :
  keeps (same registries)
    (Model.compile_train call_loss_fn call_opt_fn SRO hook minimize kw t fn).
Proof.
  unfold Model.compile_train. keeps_tac.
  - apply keeps_reg_input.
  - unfold Model.call_before_step_ops. destruct (is_sample _); keeps_tac.
  - apply keeps_reg_scoped. keeps_tac; [apply keeps_reg_log_call | apply loss_fn_reg].
  - destruct (_ !! t); keeps_tac.
    + apply keeps_reg_log_call.
    + apply opt_fn_reg.
    + apply keeps_reg_optimize_binding.
    + unfold Model.add_train_op. keeps_tac.
Qed.

Lemma keeps_reg_compile_eval t :
  keeps (same registries) (Model.compile_eval call_eval_fn t).
Proof.
  unfold Model.compile_eval. keeps_tac. destruct (_ !! t); keeps_tac.
  - apply keeps_reg_input.
  - unfold Model.call_before_step_ops. destruct (is_sample _); keeps_tac.
  - apply keeps_reg_scoped. keeps_tac; [apply keeps_reg_log_call | apply eval_fn_reg].
  - destruct a2; keeps_tac. unfold Model.add_eval_op. keeps_tac.
Qed.

Lemma keeps_reg_compile_task kw t fn :
  keeps (same registries)
    (Model.compile_task call_loss_fn call_opt_fn call_eval_fn SRO hook minimize kw t fn).
Proof.
  unfold Model.compile_task. keeps_tac;
    [apply keeps_reg_compile_train | apply keeps_reg_compile_eval].
Qed.

Lemma compile_train_has_opt_fn kw t fn st st' :
  Model.compile_train call_loss_fn call_opt_fn SRO hook minimize kw t fn st = (Ok tt, st') →
  is_Some (_opt_fns st !! t).
Proof.
  intros H. unfold Model.compile_train in H.
  apply bind_Ok_inv in H as (smp & s1 & H1 & H).
  apply bind_Ok_inv in H as (pre & s2 & H2 & H).
  apply bind_Ok_inv in H as (loss & s3 & H3 & H).
  apply bind_Ok_inv in H as ([] & s4 & H4 & H).
  rewrite bind_gets in H.
  assert (same registries st s4) as Hsame.
  { etrans; [eapply keeps_run, H1; apply keeps_reg_input|].
    etrans; [eapply keeps_run, H2|].
    { unfold Model.call_before_step_ops. destruct (is_sample _); keeps_tac. }
    etrans; [eapply keeps_run, H3|].
    { apply keeps_reg_scoped. keeps_tac; [apply keeps_reg_log_call | apply loss_fn_reg]. }
    eapply keeps_run, H4. keeps_tac. }
  unfold same, registries in Hsame. injection Hsame as _ _ Hopt _.
  rewrite Hopt in H. destruct (_opt_fns st !! t); [eauto | done].
Qed.

Lemma compile_loop_has_opt_fn kw (l : list (option string * string)) st st' us :
  for_each (λ e, Model.compile_task call_loss_fn call_opt_fn call_eval_fn SRO hook
                   minimize kw e.1 e.2) l st = (Ok us, st') →
  ∀ t, t ∈ l.*1 → is_Some (_opt_fns st !! t).
Proof.
  revert st us. induction l as [|[t0 fn] l IH]; intros st us H t Ht.
  - by apply elem_of_nil in Ht.
  - simpl in H. apply bind_Ok_inv in H as ([] & s1 & H1 & H).
    apply bind_Ok_inv in H as (us' & s2 & H2 & H).
    injection H as <- <-.
    rewrite fmap_cons in Ht. apply elem_of_cons in Ht as [->|Ht].
    + unfold Model.compile_task in H1.
      apply bind_Ok_inv in H1 as ([] & sa & Ha & _).
      by apply compile_train_has_opt_fn in Ha.
    + assert (same registries st s1) as Hsame
        by (eapply keeps_run, H1; apply keeps_reg_compile_task).
      unfold same, registries in Hsame. injection Hsame as _ _ Hopt _.
      rewrite <- Hopt. by eapply IH.
Qed.

End CompileRegistries.

(** X11.  The compile neither registers nor drops a function, and it
    succeeds only if every task with a loss function has an optimizer
    function: a model with a loss function for a task without optimizer
    function does not compile.  The user callbacks and [_minimize] are
    taken to leave the four registries alone ([_minimize] of both classes
    does). *)
Theorem compile_needs_optimizer_fn :
  ∀ (call_input_fn : string → MODE → M pyobj)
    (call_loss_fn : string → Sample → M (option tensor))
    (call_opt_fn : string → option string →
                   M (list (optimizer * (list tensor * option string))))
    (call_eval_fn : string → Sample → M (option op))
    (SRO : optimizer → string → optimizer) (hook : optimizer → string)
    (minimize : option string → option tensor → list tensor * option string →
                optimizer → bool → M (option op))
    (kw : Model.compile_kwargs) (st : state),
    (∀ fn mode, keeps (same registries) (call_input_fn fn mode)) →
    (∀ fn smp, keeps (same registries) (call_loss_fn fn smp)) →
    (∀ fn t, keeps (same registries) (call_opt_fn fn t)) →
    (∀ fn smp, keeps (same registries) (call_eval_fn fn smp)) →
    (∀ t loss vars opt k, keeps (same registries) (minimize t loss vars opt k)) →
    let r := Model._internal_compile call_input_fn call_loss_fn call_opt_fn call_eval_fn
               SRO hook minimize kw st in
    registries r.2 = registries st
    ∧ (r.1 = Ok tt → ∀ t, t ∈ (_loss_fns st).*1 → is_Some (_opt_fns st !! t)).
Proof.
  intros cin clo cop cev SRO hook minimize kw st Hin Hlo Hop Hev Hmin r. subst r.
  split.
  - assert (keeps (same registries)
              (Model._internal_compile cin clo cop cev SRO hook minimize kw)) as Hk.
    { unfold Model._internal_compile. keeps_tac.
      - by apply keeps_reg_compile_input.
      - by apply keeps_reg_compile_task. }
    apply Hk.
  - destruct (Model._internal_compile _ _ _ _ _ _ _ _ _) as [res st'] eqn:H.
    simpl. intros -> t Ht.
    unfold Model._internal_compile in H. rewrite bind_gets in H.
    apply bind_Ok_inv in H as (us & s1 & H1 & H).
    rewrite bind_gets in H.
    apply bind_Ok_inv in H as (us' & s2 & H2 & H).
    assert (same registries st s1) as Hsame.
    { eapply keeps_run, H1. apply keeps_for_each; [apply _|].
      intros e. by apply keeps_reg_compile_input. }
    unfold same, registries in Hsame. injection Hsame as _ Hloss Hopt _.
    rewrite <- Hopt. rewrite Hloss in H2.
    by eapply (compile_loop_has_opt_fn clo cop cev SRO hook minimize Hlo Hop Hev Hmin).
Qed.

Lemma compile_needs_optimizer_fn_witness :
  let st := Fixtures.registered "sample_for_both" "loss_on_received" "one_optimizer" in
  let r := Fixtures.compile Fixtures.minimize Fixtures.no_kwargs st in
  registries r.2 = registries st
  ∧ is_Some (_opt_fns st !! Some "t1").
Proof.
  destruct (compile_needs_optimizer_fn
              Fixtures.input_fns Fixtures.loss_fns Fixtures.opt_fns Fixtures.eval_fns
              Fixtures.sync_replicas Fixtures.sync_hook Fixtures.minimize
              Fixtures.no_kwargs
              (Fixtures.registered "sample_for_both" "loss_on_received" "one_optimizer"))
    as [Hreg Hopt].
  - intros fn mode. unfold Fixtures.input_fns.
    repeat case_bool_decide; apply keeps_ret; apply _.
  - intros fn smp. unfold Fixtures.loss_fns, FederalModel.recv,
      FederalModel.communicator_recv.
    case_bool_decide; keeps_tac.
  - intros fn t. unfold Fixtures.opt_fns. case_bool_decide; apply keeps_ret; apply _.
  - intros fn smp. apply keeps_ret; apply _.
  - intros t loss vars opt k. eapply keeps_weaken; [apply side_registries|].
    apply keeps_side_federal_minimize.
  - split; [exact Hreg|]. apply Hopt; [by vm_compute|].
    apply list_elem_of_singleton. reflexivity.
Defined.

(** ** A task without loss *)

Lemma loss_sources_no_loss r opt st :
  FederalModel.loss_sources r opt None [] [] st
  = (Ok ([None], [None]), (FederalModel.loss_sources r opt None [] [] st).2).
Proof.
  unfold FederalModel.loss_sources. rewrite bool_decide_false.
  2:{ simpl. apply not_elem_of_nil. }
  destruct (takes_opt_config opt); [reflexivity|].
  rewrite bind_run. rewrite pop_reduce_run. reflexivity.
Qed.

Lemma local_gradients_no_source r opt vars st :
  FederalModel.local_gradients r opt vars [None] [None] st
  = (Raise (TypeError "'NoneType' object is not iterable"), st).
Proof. reflexivity. Qed.

Lemma peer_reply_no_source gr r opt t recv_grads mode st :
  cfg_is mode "noise" = true →
  FederalModel.peer_reply gr r opt t recv_grads [None] [None] mode st
  = (Raise (TypeError "'NoneType' object is not iterable"), st).
Proof.
  intros Hmode. unfold FederalModel.peer_reply, FederalModel.peer_send_grads.
  rewrite Hmode. reflexivity.
Qed.

Lemma keeps_quiet_getitem t :
  keeps (same (λ s, (comm_log s, _train_ops s))) (FederalModel.require_grad_ops_getitem t).
Proof.
  intros st. unfold FederalModel.require_grad_ops_getitem, same.
  by destruct (_ !! t).
Qed.

Lemma keeps_quiet_dict_pop r k d :
  keeps (same (λ s, (comm_log s, _train_ops s))) (dict_pop r k d).
Proof.
  intros st. unfold dict_pop, same.
  destruct (cfg_get r st !! k); [|done]. by destruct r.
Qed.

Lemma keeps_quiet_loss_sources r opt loss sent pending :
  keeps (same (λ s, (comm_log s, _train_ops s)))
    (FederalModel.loss_sources r opt loss sent pending).
Proof.
  unfold FederalModel.loss_sources. case_bool_decide; keeps_tac.
  destruct (takes_opt_config opt); keeps_tac; [apply keeps_quiet_dict_pop|].
  unfold Model._reduce_loss, tf_logging_warn. destruct loss as [l|]; [|keeps_tac].
  destruct (cfg_is _ "mean"); [keeps_tac|]. destruct (cfg_is _ "sum"); [keeps_tac|].
  destruct a; keeps_tac.
Qed.

(** X12.  [_minimize] of a federated model cannot handle a task whose
    loss is [None] and that sent nothing with [require_grad=True]: there
    is no loss source, and it raises the TypeError of iterating [None],
    which the handler for ValueError does not catch, whatever the
    optimizer, both when the binding has no received value
    to answer and when it has some and the backend mode is 'noise' (the
    default).  In the second case the peer gets no reply: nothing is sent
    and no training op is added. *)
Theorem minimize_without_loss_source :
  ∀ (scope_matches : option string → string * tensor → bool)
    (gradients : list (option tensor) → list tensor → list (option tensor) →
                 result (list (option tensor)))
    (t : task) (vars : list tensor) (scope : option string) (opt : optimizer)
    (kw : bool) (st : state),
    let r := kwargs_pop_opt_config kw in
    let recv_grads :=
      filter (λ x, scope_matches scope x) (default [] (_recv_grad_ops st !! t)) in
    default [] (_require_grad_ops st !! t) = [] →
    recv_grads = []
    ∨ cfg_is (default (CfgStr "noise") (cfg_get r st !! "BACKEND_MODE")) "noise" = true →
    let res := FederalModel._minimize scope_matches gradients t None (vars, scope) opt kw st in
    (∃ msg, res.1 = Raise (TypeError msg))
    ∧ comm_log res.2 = comm_log st
    ∧ _train_ops res.2 = _train_ops st.
Proof.
  intros sm gr t vars scope opt kw st r recv_grads Hsent Hcase res. subst res.
  unfold FederalModel._minimize, FederalModel.get_recv_grad_vars.
  rewrite !bind_run. simpl. fold recv_grads.
  rewrite bind_run, require_grad_ops_getitem_empty by done.
  set (s1 := set_require_grad_ops _ st).
  assert (same (λ s, (comm_log s, _train_ops s)) st s1) as H1 by done.
  rewrite bind_run. simpl. fold r. rewrite loss_sources_no_loss.
  set (s2 := (FederalModel.loss_sources r opt None [] [] s1).2).
  assert (same (λ s, (comm_log s, _train_ops s)) s1 s2) as H2
    by apply keeps_quiet_loss_sources.
  assert (cfg_get r s2 !! "BACKEND_MODE" = cfg_get r st !! "BACKEND_MODE") as Hbm.
  { transitivity (cfg_get r s1 !! "BACKEND_MODE"); [|by destruct r].
    apply (keeps_key_loss_sources r r opt None [] [] s1). }
  rewrite bind_run. simpl.
  destruct (decide (recv_grads = [])) as [Hnil|Hne].
  - rewrite Hnil, peer_gradients_nobody. simpl.
    assert (same (λ s, (comm_log s, _train_ops s)) st s2) as H by (by etrans).
    split_and!; [by eexists | exact (f_equal fst H) | exact (f_equal snd H)].
  - destruct Hcase as [?|Hnoise]; [done|].
    unfold FederalModel.peer_gradients. rewrite bool_decide_true.
    2:{ destruct recv_grads; [done | simpl; lia]. }
    rewrite bind_run, dict_pop_run, Hbm.
    rewrite peer_reply_no_source by done. simpl.
    assert (same (λ s, (comm_log s, _train_ops s)) s2
              (dict_pop r "BACKEND_MODE" (CfgStr "noise") s2).2) as H3
      by apply keeps_quiet_dict_pop.
    assert (same (λ s, (comm_log s, _train_ops s)) st
              (dict_pop r "BACKEND_MODE" (CfgStr "noise") s2).2) as H
      by (etrans; [exact H1 | by etrans]).
    split_and!; [by eexists | exact (f_equal fst H) | exact (f_equal snd H)].
Qed.

Lemma minimize_without_loss_source_witness :
  let res := Fixtures.minimize (Some "t1") None ([Fixtures.w], None) Fixtures.sgd false
               Fixtures.received in
  (∃ msg, res.1 = Raise (TypeError msg))
  ∧ comm_log res.2 = comm_log Fixtures.received
  ∧ _train_ops res.2 = _train_ops Fixtures.received.
Proof.
  apply (minimize_without_loss_source Fixtures.scope_by_prefix
           (Fixtures.joint_gradients (λ _, None)) (Some "t1") [Fixtures.w] None
           Fixtures.sgd false Fixtures.received).
  - reflexivity.
  - right. reflexivity.
Defined.

(** ** Answering the received values *)

Lemma send_back_full t p st :
  FederalModel.send_back t p st
  = (Ok (OpSend (reply_of p).1 (reply_of p).2),
     set_train_ops
       (<[registered_as t st :=
            default [] (_train_ops st !! registered_as t st)
            ++ [OpSend (reply_of p).1 (reply_of p).2]]> (_train_ops st))
       (set_comm_log (comm_log st ++ [CommSend (reply_of p).1 (reply_of p).2]) st)).
Proof.
  unfold FederalModel.send_back, reply_of.
  destruct p as [[name v] [g|]]; reflexivity.
Qed.

(** The reply loop files every message it sends among the training ops
    of the task, in order, and touches no other task. *)
Lemma reply_loop_run t pairs st :
  ∃ st', for_each (FederalModel.send_back t) pairs st
         = (Ok (map (λ p, OpSend (reply_of p).1 (reply_of p).2) pairs), st')
         ∧ comm_log st' = comm_log st ++ map (λ p, CommSend (reply_of p).1 (reply_of p).2) pairs
         ∧ default [] (_train_ops st' !! registered_as t st)
           = default [] (_train_ops st !! registered_as t st)
             ++ map (λ p, OpSend (reply_of p).1 (reply_of p).2) pairs
         ∧ (∀ k, k ≠ registered_as t st → _train_ops st' !! k = _train_ops st !! k)
         ∧ scope_task st' = scope_task st.
Proof.
  revert st. induction pairs as [|p pairs IH]; intros st.
  - exists st. simpl. by rewrite !app_nil_r.
  - cbn [for_each]. rewrite bind_run, send_back_full.
    set (s1 := set_train_ops _ _).
    destruct (IH s1) as (st' & Hrun & Hlog & Hops & Hother & Hsc).
    assert (registered_as t s1 = registered_as t st) as Hkey by done.
    rewrite Hkey in Hops, Hother.
    rewrite bind_run, Hrun. exists st'. split; [done|]. split_and!.
    + rewrite Hlog. subst s1. simpl. by rewrite <- app_assoc.
    + rewrite Hops. subst s1. simpl. rewrite lookup_insert_eq. simpl.
      by rewrite <- app_assoc.
    + intros k Hk. rewrite Hother by done. subst s1. simpl.
      by rewrite lookup_insert_ne.
    + by rewrite Hsc.
Qed.

Lemma peer_send_grads_single gr r opt recv_grads y g mode st :
  FederalModel.peer_send_grads gr r opt recv_grads [Some y] [g] mode st
  = ((if cfg_is mode "noise"
      then match compute_gradients opt (Some y) recv_grads.*2 g
                   (if takes_opt_config opt then Some (cfg_get r st) else None) with
           | Ok gv => Ok gv.*1
           | Raise e => Raise e
           end
      else gr [Some y] recv_grads.*2 [g]), st).
Proof.
  unfold FederalModel.peer_send_grads.
  destruct (cfg_is mode "noise"); [|reflexivity].
  rewrite bind_gets. cbn [zip zip_with FederalModel.grads_per_source].
  unfold lift. rewrite bind_run.
  destruct (compute_gradients opt (Some y) recv_grads.*2 g _) as [gv|e]; reflexivity.
Qed.

Lemma loss_sources_local r opt l st :
  FederalModel.loss_sources r opt (Some l) [] [] st
  = (Ok ([Some (if takes_opt_config opt then l
                else reduce_value (default (CfgStr "mean") (cfg_get r st !! "REDUCE")) l)],
         [None]),
     (FederalModel.loss_sources r opt (Some l) [] [] st).2).
Proof.
  unfold FederalModel.loss_sources. rewrite bool_decide_false.
  2:{ simpl. apply not_elem_of_nil. }
  destruct (takes_opt_config opt); [reflexivity|].
  rewrite bind_run, pop_reduce_run. reflexivity.
Qed.

Lemma dict_pop_delete r k d st :
  cfg_get r (dict_pop r k d st).2 = delete k (cfg_get r st).
Proof.
  unfold dict_pop. destruct (cfg_get r st !! k) as [v|] eqn:E.
  - by destruct r.
  - simpl. by rewrite delete_id.
Qed.

Lemma keeps_quiet_try_local r opt vars loss grad_loss :
  keeps (same (λ s, (comm_log s, _train_ops s)))
    (try_except_ValueError (FederalModel.local_gradients r opt vars loss grad_loss)
       FederalModel.on_ValueError).
Proof.
  apply keeps_try; [apply _ | | intros e; by intros st].
  unfold FederalModel.local_gradients. keeps_tac.
Qed.

Lemma keeps_scope_dict_pop r k d : keeps (same scope_task) (dict_pop r k d).
Proof.
  intros st. unfold dict_pop, same.
  destruct (cfg_get r st !! k); [|done]. by destruct r.
Qed.

Lemma keeps_scope_loss_sources r opt loss sent pending :
  keeps (same scope_task) (FederalModel.loss_sources r opt loss sent pending).
Proof.
  unfold FederalModel.loss_sources. case_bool_decide; keeps_tac.
  destruct (takes_opt_config opt); keeps_tac; [apply keeps_scope_dict_pop|].
  unfold Model._reduce_loss, tf_logging_warn. destruct loss as [l|]; [|keeps_tac].
  destruct (cfg_is _ "mean"); [keeps_tac|]. destruct (cfg_is _ "sum"); [keeps_tac|].
  destruct a; keeps_tac.
Qed.

Lemma peer_gradients_single_run gr r opt t recv_grads y st send_grads :
  recv_grads ≠ [] →
  (if cfg_is (default (CfgStr "noise") (cfg_get r st !! "BACKEND_MODE")) "noise"
   then match compute_gradients opt (Some y) recv_grads.*2 None
                (if takes_opt_config opt
                 then Some (delete "BACKEND_MODE" (cfg_get r st)) else None) with
        | Ok gv => Ok gv.*1
        | Raise e => Raise e
        end
   else gr [Some y] recv_grads.*2 [None]) = Ok send_grads →
  ∃ st', FederalModel.peer_gradients gr r opt t recv_grads [Some y] [None] st = (Ok tt, st')
         ∧ comm_log st'
           = comm_log st ++ map (λ p, CommSend (reply_of p).1 (reply_of p).2)
                                (zip recv_grads send_grads)
         ∧ default [] (_train_ops st' !! registered_as t st)
           = default [] (_train_ops st !! registered_as t st)
             ++ map (λ p, OpSend (reply_of p).1 (reply_of p).2) (zip recv_grads send_grads).
Proof.
  intros Hne Hgrads. unfold FederalModel.peer_gradients.
  rewrite bool_decide_true by (destruct recv_grads; [done | simpl; lia]).
  rewrite bind_run, dict_pop_run.
  set (s3 := (dict_pop r "BACKEND_MODE" (CfgStr "noise") st).2).
  assert (same (λ s, (comm_log s, _train_ops s)) st s3) as H3
    by apply keeps_quiet_dict_pop.
  assert (scope_task s3 = scope_task st) as Hsc3
    by (apply (keeps_scope_dict_pop r "BACKEND_MODE" (CfgStr "noise") st)).
  assert (cfg_get r s3 = delete "BACKEND_MODE" (cfg_get r st)) as Hcfg
    by apply dict_pop_delete.
  unfold FederalModel.peer_reply.
  rewrite bind_run, peer_send_grads_single, Hcfg, Hgrads.
  destruct (reply_loop_run t (zip recv_grads send_grads) s3)
    as (s4 & Hrun & Hlog & Hops & _ & _).
  rewrite bind_run, Hrun. exists s4. split; [done|].
  assert (registered_as t s3 = registered_as t st) as Hkey
    by (unfold registered_as; by rewrite Hsc3).
  rewrite Hkey in Hops.
  pose proof (f_equal fst H3) as Hc3. pose proof (f_equal snd H3) as Ht3.
  simpl in Hc3, Ht3. by rewrite Hlog, Hops, Hc3, Ht3.
Qed.

Lemma reply_names (recv_grads : list (string * tensor)) (send_grads : list (option tensor)) :
  (map reply_of (zip recv_grads send_grads)).*1
  = map (λ rv, rv.1 +:+ "_grad") (take (length send_grads) recv_grads).
Proof.
  revert send_grads. induction recv_grads as [|rv rvs IH]; intros [|g gs]; simpl; try done.
  f_equal. apply IH.
Qed.

(** X13.  A binding of a task that sent nothing with [require_grad=True]
    and has a defined loss, so that the local loss is its only loss
    source, answers the received values of its scope, for every optimizer,
    as soon as the gradients for them are computed without an exception:
    [_minimize] sends one message for each pair of the zip of the
    received values with these gradients, in order, under the name the
    value was received under followed by "_grad", carrying the gradient
    or, where that is [None], zeros shaped like the received value, and
    it files the sends among the training ops of the task; with one
    gradient per received value, every received value is answered.  In
    'noise' mode the gradients are the optimizer's [compute_gradients]
    with respect to the received tensors: of the reduced loss for an
    optimizer that takes no [opt_config], of the loss as it is, with the
    configuration dict left after the pop of 'BACKEND_MODE', for one
    that does.  In any other mode they are those of
    [gradients_impl.gradients].  'BACKEND_MODE' is removed from the
    configuration.  The replies are sent before the local step, whether
    that succeeds or not. *)
Theorem minimize_answers_received_values :
  ∀ (scope_matches : option string → string * tensor → bool)
    (gradients : list (option tensor) → list tensor → list (option tensor) →
                 result (list (option tensor)))
    (t : task) (l : tensor) (vars : list tensor) (scope : option string)
    (opt : optimizer) (kw : bool) (st : state) (send_grads : list (option tensor)),
    let r := kwargs_pop_opt_config kw in
    let recv_grads :=
      filter (λ x, scope_matches scope x) (default [] (_recv_grad_ops st !! t)) in
    let y := if takes_opt_config opt then l
             else reduce_value (default (CfgStr "mean") (cfg_get r st !! "REDUCE")) l in
    let cfg := if takes_opt_config opt
               then Some (delete "BACKEND_MODE" (cfg_get r st)) else None in
    let mode := default (CfgStr "noise") (cfg_get r st !! "BACKEND_MODE") in
    default [] (_require_grad_ops st !! t) = [] →
    recv_grads ≠ [] →
    (if cfg_is mode "noise"
     then match compute_gradients opt (Some y) recv_grads.*2 None cfg with
          | Ok gv => Ok gv.*1
          | Raise e => Raise e
          end
     else gradients [Some y] recv_grads.*2 [None]) = Ok send_grads →
    let res := FederalModel._minimize scope_matches gradients t (Some l) (vars, scope)
                 opt kw st in
    let replies := map reply_of (zip recv_grads send_grads) in
    comm_log res.2 = comm_log st ++ map (λ m, CommSend m.1 m.2) replies
    ∧ replies.*1 = map (λ rv, rv.1 +:+ "_grad") (take (length send_grads) recv_grads)
    ∧ (length send_grads = length recv_grads →
       replies.*1 = map (λ rv, rv.1 +:+ "_grad") recv_grads)
    ∧ default [] (_train_ops res.2 !! registered_as t st)
      = default [] (_train_ops st !! registered_as t st)
        ++ map (λ m, OpSend m.1 m.2) replies
    ∧ cfg_get r res.2 !! "BACKEND_MODE" = None.
Proof.
  intros sm gr t l vars scope opt kw st send_grads r recv_grads y cfg mode
    Hsent Hne Hgrads res replies.
  assert (replies.*1 = map (λ rv, rv.1 +:+ "_grad") (take (length send_grads) recv_grads))
    as Hnames by apply reply_names.
  assert (cfg_get r res.2 !! "BACKEND_MODE" = None) as Hgone
    by (subst res; apply minimize_consumes; exact Hne).
  enough (comm_log res.2 = comm_log st ++ map (λ m, CommSend m.1 m.2) replies
          ∧ default [] (_train_ops res.2 !! registered_as t st)
            = default [] (_train_ops st !! registered_as t st)
              ++ map (λ m, OpSend m.1 m.2) replies) as [Hlog Hops].
  { split_and!; try done. intros Hlen. rewrite Hnames, Hlen. by rewrite firstn_all. }
  subst res. unfold FederalModel._minimize, FederalModel.get_recv_grad_vars.
  rewrite !bind_run. simpl. fold recv_grads.
  rewrite bind_run, require_grad_ops_getitem_empty by done.
  set (s1 := set_require_grad_ops _ st).
  rewrite bind_run. simpl. fold r. rewrite loss_sources_local.
  set (s2 := (FederalModel.loss_sources r opt (Some l) [] [] s1).2).
  assert (same (λ s, (comm_log s, _train_ops s)) s1 s2) as H2
    by apply keeps_quiet_loss_sources.
  assert (cfg_get r s2 !! "BACKEND_MODE" = cfg_get r st !! "BACKEND_MODE") as Hbm.
  { transitivity (cfg_get r s1 !! "BACKEND_MODE"); [|by destruct r].
    apply (keeps_key_loss_sources r r opt (Some l) [] [] s1). }
  assert (takes_opt_config opt = true → cfg_get r s2 = cfg_get r st) as Hcfg2.
  { intros Htakes. subst s2. unfold FederalModel.loss_sources.
    rewrite bool_decide_false by (simpl; apply not_elem_of_nil).
    rewrite Htakes. simpl. by destruct r. }
  assert (cfg_get r s1 !! "REDUCE" = cfg_get r st !! "REDUCE") as -> by (by destruct r).
  fold y.
  assert (scope_task s2 = scope_task st) as Hsc2
    by (apply (keeps_scope_loss_sources r opt (Some l) [] [] s1)).
  destruct (peer_gradients_single_run gr r opt t recv_grads y s2 send_grads Hne)
    as (s4 & Hrun & Hlog & Hops).
  { rewrite Hbm. fold mode. rewrite <- Hgrads. subst cfg.
    destruct (takes_opt_config opt); [by rewrite Hcfg2 | done]. }
  rewrite bind_run. cbn [fst snd]. rewrite Hrun.
  pose proof (keeps_quiet_try_local r opt vars [Some y] [None] s4) as H5.
  pose proof (f_equal fst H2) as Hc2. pose proof (f_equal snd H2) as Ht2.
  pose proof (f_equal fst H5) as Hc5. pose proof (f_equal snd H5) as Ht5.
  simpl in Hc2, Ht2, Hc5, Ht5.
  assert (registered_as t s2 = registered_as t st) as Hkey
    by (unfold registered_as; by rewrite Hsc2).
  rewrite Hkey in Hops. subst replies. rewrite !map_map. split.
  - rewrite Hc5, Hlog, Hc2. done.
  - rewrite Ht5, Hops, Ht2. done.
Qed.

Lemma minimize_answers_received_values_witness :
  let res := Fixtures.minimize (Some "t1") (Some Fixtures.loss_t) ([Fixtures.w], None)
               Fixtures.sgd false Fixtures.received in
  comm_log res.2
  = comm_log Fixtures.received ++ [CommSend "act1_grad" (TNode "grad/loss/act1" float32)]
  ∧ default [] (_train_ops res.2 !! Some "t1")
    = [OpSend "act1_grad" (TNode "grad/loss/act1" float32)].
Proof.
  destruct (minimize_answers_received_values Fixtures.scope_by_prefix
              (Fixtures.joint_gradients (λ _, None)) (Some "t1") Fixtures.loss_t
              [Fixtures.w] None Fixtures.sgd false Fixtures.received
              [Some (TNode "grad/loss/act1" float32)]) as (Hlog & _ & _ & Hops & _).
  - reflexivity.
  - intros H. vm_compute in H. discriminate H.
  - reflexivity.
  - split; [exact Hlog | exact Hops].
Defined.

(** ** Sending and receiving *)

(** X14.  [send] with [require_grad=True] sends the tensor, files the
    send among the ops of the task for the given mode, receives the
    pending gradient under the name followed by "_grad" with the dtype of
    the tensor, and records the pair for the task, without recording a
    received value; a later [_minimize] of the task whose loss is the
    sent tensor takes the sent tensors as its only loss sources, with
    their pending gradients.  Without [require_grad] nothing is received
    and nothing is recorded. *)
Theorem send_records_loss_source :
  ∀ (name : string) (x : tensor) (mode : MODE) (t : task) (st : state),
    let key := registered_as t st in
    let pending := TRecv (name +:+ "_grad") (tensor_dtype x) in
    let st' := (FederalModel.send name x true mode t st).2 in
    let st0 := (FederalModel.send name x false mode t st).2 in
    let sent := default [] (_require_grad_ops st' !! key) in
    (FederalModel.send name x true mode t st).1 = Ok (OpSend name x)
    ∧ comm_log st' = comm_log st ++ [CommSend name x; CommRecv (name +:+ "_grad") (tensor_dtype x)]
    ∧ sent = default [] (_require_grad_ops st !! key) ++ [(x, pending)]
    ∧ _recv_grad_ops st' = _recv_grad_ops st
    ∧ default [] (match mode with TRAIN => _train_ops st' | EVAL => _eval_ops st' end !! key)
      = default [] (match mode with TRAIN => _train_ops st | EVAL => _eval_ops st end !! key)
        ++ [OpSend name x]
    ∧ (∀ r opt, FederalModel.loss_sources r opt (Some x) sent.*1 sent.*2 st'
                = (Ok (Some <$> sent.*1, Some <$> sent.*2), st'))
    ∧ comm_log st0 = comm_log st ++ [CommSend name x]
    ∧ _require_grad_ops st0 = _require_grad_ops st
    ∧ _recv_grad_ops st0 = _recv_grad_ops st.
Proof.
  intros name x mode t st key pending st' st0 sent.
  assert (sent = default [] (_require_grad_ops st !! key) ++ [(x, pending)]) as Hsent.
  { subst sent st'. destruct mode; simpl; by rewrite lookup_insert_eq. }
  split_and!; try done.
  - by destruct mode.
  - subst st'. destruct mode; simpl; by rewrite <- app_assoc.
  - subst st'. by destruct mode.
  - subst st'. destruct mode; simpl; by rewrite lookup_insert_eq.
  - intros r opt. unfold FederalModel.loss_sources. rewrite bool_decide_true; [done|].
    rewrite Hsent, fmap_app. simpl. rewrite fmap_app. apply elem_of_app. right.
    simpl. by left.
  - subst st0. by destruct mode.
  - subst st0. by destruct mode.
  - subst st0. by destruct mode.
Qed.

(** X15.  A value received with [require_grad=True] inside the scope of
    a task, as a loss function does during the compile, is recorded for
    that task although [recv] is called without a task, and whatever the
    scope around it; the scope is the same afterwards, and other tasks
    and the sent values are as before.  So the [_minimize] of the task,
    which looks the records up under the task it is given, finds it. *)
Theorem recv_in_task_scope :
  ∀ (name : string) (dt : dtype) (t : task) (mode : MODE) (st : state),
    let run := Model.with_task_scope t mode (FederalModel.recv name dt true None) st in
    run.1 = Ok (TRecv name dt)
    ∧ comm_log run.2 = comm_log st ++ [CommRecv name dt]
    ∧ default [] (_recv_grad_ops run.2 !! t)
      = default [] (_recv_grad_ops st !! t) ++ [(name, TRecv name dt)]
    ∧ (∀ k, k ≠ t → _recv_grad_ops run.2 !! k = _recv_grad_ops st !! k)
    ∧ _require_grad_ops run.2 = _require_grad_ops st
    ∧ scope_mode run.2 = scope_mode st
    ∧ scope_task run.2 = scope_task st
    ∧ ∀ scope_matches scope,
        scope_matches scope (name, TRecv name dt) = true →
        (FederalModel.get_recv_grad_vars scope_matches t scope run.2).1
        = Ok (filter (λ x, scope_matches scope x) (default [] (_recv_grad_ops st !! t))
              ++ [(name, TRecv name dt)]).
Proof.
  intros name dt t mode st run. subst run.
  unfold Model.with_task_scope, FederalModel.recv, FederalModel.communicator_recv.
  simpl. split_and!; try done.
  - by rewrite lookup_insert_eq.
  - intros k Hk. by rewrite lookup_insert_ne.
  - intros sm scope Hsm. rewrite lookup_insert_eq. simpl.
    rewrite list.filter_app, list.filter_cons, list.filter_nil.
    by rewrite decide_True by (by rewrite Hsm).
Qed.

Lemma recv_in_task_scope_witness :
  (FederalModel.get_recv_grad_vars Fixtures.scope_by_prefix (Some "t1") None
     (Model.with_task_scope (Some "t1") TRAIN
        (FederalModel.recv "act1" float32 true None) Fixtures.fresh).2).1
  = Ok [("act1", TRecv "act1" float32)].
Proof.
  pose proof (recv_in_task_scope "act1" float32 (Some "t1") TRAIN Fixtures.fresh)
    as (_ & _ & _ & _ & _ & _ & _ & H).
  apply (H Fixtures.scope_by_prefix None). reflexivity.
Defined.

(** ** [_minimize] of the base class *)

Lemma after_reduce_consumed r loss st : cfg_get r (after_reduce r loss st) !! "REDUCE" = None.
Proof.
  unfold after_reduce.
  rewrite (same_cfgs_get r _ _ (keeps_cfgs_reduce_loss loss _ _)).
  apply dict_pop_gone.
Qed.

(** X16.  [_minimize] of the base class reads the reduce function once
    per configuration dict: the first call for an optimizer that does
    not take [opt_config] reduces the loss with the configured 'REDUCE'
    and removes the key, so every later call on the same dict, for any
    task and optimizer of that kind, reduces its loss with the mean.
    The op returned is [apply_gradients] of [compute_gradients] of the
    reduced loss over the binding's variables. *)
Theorem base_minimize_reduces_once :
  ∀ (t1 t2 : task) (l1 l2 : tensor) (v1 v2 : list tensor * option string)
    (opt1 opt2 : optimizer) (kw : bool) (st : state),
    takes_opt_config opt1 = false →
    takes_opt_config opt2 = false →
    let r := kwargs_pop_opt_config kw in
    let run (opt : optimizer) (y : tensor) (vars : list tensor) : result (option op) :=
      match compute_gradients opt (Some y) vars None None with
      | Ok gv => match apply_gradients opt gv with
                 | Ok o => Ok (Some o)
                 | Raise e => Raise e
                 end
      | Raise e => Raise e
      end in
    let st1 := (Model._minimize t1 (Some l1) v1 opt1 kw st).2 in
    (Model._minimize t1 (Some l1) v1 opt1 kw st).1
      = run opt1 (reduce_value (default (CfgStr "mean") (cfg_get r st !! "REDUCE")) l1) v1.1
    ∧ cfg_get r st1 !! "REDUCE" = None
    ∧ (Model._minimize t2 (Some l2) v2 opt2 kw st1).1 = run opt2 (TReduceMean l2) v2.1.
Proof.
  intros t1 t2 l1 l2 v1 v2 opt1 opt2 kw st H1 H2 r run st1.
  assert (st1 = after_reduce r (Some l1) st) as Hst1.
  { subst st1. rewrite Model_minimize_run by done. fold r.
    destruct (compute_gradients opt1 _ _ _ _) as [gv|e]; [|done].
    by destruct (apply_gradients opt1 gv). }
  assert (cfg_get r st1 !! "REDUCE" = None) as Hgone
    by (rewrite Hst1; apply after_reduce_consumed).
  split_and!; [| exact Hgone |].
  - rewrite Model_minimize_run by done. fold r. subst run. cbn beta.
    destruct (compute_gradients opt1 _ _ _ _) as [gv|e]; [|done].
    by destruct (apply_gradients opt1 gv).
  - rewrite Model_minimize_run by done. fold r. rewrite Hgone. subst run. cbn beta.
    change (reduce_value (default (CfgStr "mean") None) l2) with (TReduceMean l2).
    destruct (compute_gradients opt2 _ _ _ _) as [gv|e]; [|done].
    by destruct (apply_gradients opt2 gv).
Qed.

Lemma base_minimize_reduces_once_witness :
  let st := set_user_opt_config {[ "REDUCE" := CfgStr "sum" ]} Fixtures.fresh in
  let st1 := (Model._minimize (Some "t1") (Some Fixtures.loss_t) ([Fixtures.w], None)
                (Fixtures.tf_optimizer "sgd" (λ y x, Some y)) true st).2 in
  (Model._minimize (Some "t1") (Some Fixtures.loss_t) ([Fixtures.w], None)
     (Fixtures.tf_optimizer "sgd" (λ y x, Some y)) true st).1
  = Ok (Some (OpApplyGradients "sgd" [(Some (TReduceSum Fixtures.loss_t), Fixtures.w)]))
  ∧ (Model._minimize (Some "t2") (Some Fixtures.loss_t) ([Fixtures.w2], None)
       (Fixtures.tf_optimizer "sgd" (λ y x, Some y)) true st1).1
    = Ok (Some (OpApplyGradients "sgd" [(Some (TReduceMean Fixtures.loss_t), Fixtures.w2)])).
Proof.
  pose proof (base_minimize_reduces_once (Some "t1") (Some "t2") Fixtures.loss_t
                Fixtures.loss_t ([Fixtures.w], None) ([Fixtures.w2], None)
                (Fixtures.tf_optimizer "sgd" (λ y x, Some y))
                (Fixtures.tf_optimizer "sgd" (λ y x, Some y)) true
                (set_user_opt_config {[ "REDUCE" := CfgStr "sum" ]} Fixtures.fresh))
    as (Ha & _ & Hb); [reflexivity | reflexivity |].
  split; [exact Ha | exact Hb].
Defined.

(** ** Reading the results of the training step *)




